(** * fashion-finder: landed cost, relevance scoring, fan-out and price monitoring

    A shallow embedding of the Python sources
    - [src/shops/base.py]            (data model, [calculate_relevance])
    - [src/core/cost_calculator.py]  ([CostCalculator])
    - [src/api/routes/search.py]     (the fan-out of [search_products])
    - [src/monitor/price_checker.py] ([PriceChecker.check_price])
    - [src/monitor/notifier.py]      ([process_price_checks])
    followed by the properties stated for them.

    Conventions of the embedding:
    - a Python [str] is a list of code points ([str]); literals are written
      [lit "..."];
    - [decimal.Decimal] is a coefficient and an exponent, with the default
      context (28 significant digits, ROUND_HALF_EVEN) applied by every
      arithmetic operation, and [quantize] raising [InvalidOperation] exactly
      where Python does;
    - a Python [float] is an IEEE 754 binary64 value ([spec_float]) with the
      correctly rounded operations of the standard library's [SpecFloat];
    - a [dict] is a [gmap]; a raised exception is [Raised]; [None] is
      [None]. *)

From Stdlib Require Import ZArith NArith List Bool Lia String Ascii SpecFloat.
From Stdlib Require DecimalString DecimalN DecimalPos.
From stdpp Require Import base option list gmap.
Import ListNotations.

Set Default Proof Using "Type".
Local Open Scope Z_scope.

(** ** Python strings *)

Definition char := N.
Definition str := list char.

Definition lit (s : string) : str := map N_of_ascii (list_ascii_of_string s).
Global Arguments lit : simpl never.

Fixpoint starts_with (p t : str) : bool :=
  match p, t with
  | [], _ => true
  | _ :: _, [] => false
  | c :: p', d :: t' => (c =? d)%N && starts_with p' t'
  end.

(** [contains p t] is Python's [p in t] on strings. *)
Fixpoint contains (p t : str) : bool :=
  starts_with p t ||
  match t with
  | [] => false
  | _ :: t' => contains p t'
  end.

Definition str_eqb (a b : str) : bool := bool_decide (a = b).

(** [x in xs] on a list of strings. *)
Definition str_in_list (x : str) (xs : list str) : bool :=
  existsb (str_eqb x) xs.

(** Truthiness of an optional string: [None] and [""] are falsy. *)
Definition str_truthy (o : option str) : bool :=
  match o with
  | Some (_ :: _) => true
  | _ => false
  end.

(** [o or ""]. *)
Definition or_empty (o : option str) : str :=
  match o with
  | Some s => s
  | None => []
  end.

(** The case mappings and the whitespace classification are those of the
    Unicode database shipped with the interpreter; the development is
    parametric in them. *)
Class StrOps := {
  lower : str -> str;
  upper : str -> str;
  split : str -> list str;
  strip : str -> str
}.

(** *** The ASCII instance

    On ASCII text these agree with [str.lower], [str.upper], [str.split()]
    and [str.strip()]. *)

Definition ascii_lower_char (c : char) : char :=
  if ((65 <=? c) && (c <=? 90))%N then (c + 32)%N else c.

Definition ascii_upper_char (c : char) : char :=
  if ((97 <=? c) && (c <=? 122))%N then (c - 32)%N else c.

Definition ascii_space (c : char) : bool :=
  (((9 <=? c) && (c <=? 13)) || ((28 <=? c) && (c <=? 32)))%N.

Fixpoint ascii_split_aux (cur : str) (s : str) : list str :=
  match s with
  | [] => match cur with [] => [] | _ => [rev cur] end
  | c :: s' =>
      if ascii_space c
      then match cur with
           | [] => ascii_split_aux [] s'
           | _ => rev cur :: ascii_split_aux [] s'
           end
      else ascii_split_aux (c :: cur) s'
  end.

Fixpoint ascii_lstrip (s : str) : str :=
  match s with
  | c :: s' => if ascii_space c then ascii_lstrip s' else s
  | [] => []
  end.

Definition ascii_strip (s : str) : str :=
  rev (ascii_lstrip (rev (ascii_lstrip s))).

Definition ascii_ops : StrOps := {|
  lower := map ascii_lower_char;
  upper := map ascii_upper_char;
  split := ascii_split_aux [];
  strip := ascii_strip
|}.

(** ** Exceptions *)

(** The outcome of a call that may raise an [Exception]. *)
Inductive result (A : Type) : Type :=
  | Returned (a : A)
  | Raised.
Arguments Returned {A} a.
Arguments Raised {A}.

Global Instance result_ret : MRet result := fun _ a => Returned a.
Global Instance result_bind : MBind result := fun _ _ k r =>
  match r with
  | Returned a => k a
  | Raised => Raised
  end.

(** [try: r except Exception: return d]. *)
Definition try_except {A} (r : result A) (d : A) : A :=
  match r with
  | Returned a => a
  | Raised => d
  end.

(** ** decimal.Decimal

    A finite decimal [coef * 10 ^ expo].  The sign is carried by the
    coefficient, so that a negative zero is identified with zero; NaN and the
    infinities are not represented.  The exponent limits of the context
    (Emax = 999999) are never reached by the code and are not modelled. *)

Record Decimal := mkDec { coef : Z; expo : Z }.

Global Instance Decimal_eq_dec : EqDecision Decimal.
Proof. solve_decision. Defined.

(** Context precision (getcontext().prec). *)
Definition ctx_prec : Z := 28.

Fixpoint ndigits_aux (fuel : nat) (n : Z) : Z :=
  match fuel with
  | O => 1
  | S f => if n <? 10 then 1 else 1 + ndigits_aux f (n / 10)
  end.

(** [len(str(n))] for [n >= 0]. *)
Definition ndigits (n : Z) : Z :=
  ndigits_aux (Z.to_nat (Z.log2 n)) n.

Definition pow10 (k : Z) : Z := 10 ^ k.

(** Division of a magnitude by [10^s] (s > 0), rounding half up. *)
Definition div_half_up (n s : Z) : Z :=
  let q := n / pow10 s in
  let r := n mod pow10 s in
  if pow10 s <=? 2 * r then q + 1 else q.

(** Division of a magnitude by [10^s] (s > 0), rounding half to even. *)
Definition div_half_even (n s : Z) : Z :=
  let q := n / pow10 s in
  let r := n mod pow10 s in
  if pow10 s <? 2 * r then q + 1
  else if (pow10 s =? 2 * r) && Z.odd q then q + 1
  else q.

(** [Decimal._fix]: round to the context precision. *)
Definition fix_ctx (d : Decimal) : Decimal :=
  let n := ndigits (Z.abs (coef d)) in
  if n <=? ctx_prec then d
  else
    let s := n - ctx_prec in
    let q := div_half_even (Z.abs (coef d)) s in
    if q =? pow10 ctx_prec
    then mkDec (Z.sgn (coef d) * pow10 (ctx_prec - 1)) (expo d + s + 1)
    else mkDec (Z.sgn (coef d) * q) (expo d + s).

Definition is_zero (d : Decimal) : bool := coef d =? 0.

(** The exact sum, before the context is applied. *)
Definition dadd_exact (a b : Decimal) : Decimal :=
  let e := Z.min (expo a) (expo b) in
  mkDec (coef a * pow10 (expo a - e) + coef b * pow10 (expo b - e)) e.

Definition dneg (a : Decimal) : Decimal := mkDec (- coef a) (expo a).

Definition dadd (a b : Decimal) : Decimal := fix_ctx (dadd_exact a b).
Definition dsub (a b : Decimal) : Decimal := dadd a (dneg b).

Definition dmul_exact (a b : Decimal) : Decimal :=
  mkDec (coef a * coef b) (expo a + expo b).

Definition dmul (a b : Decimal) : Decimal := fix_ctx (dmul_exact a b).

(** Numeric comparison (never rounded). *)
Definition dcompare (a b : Decimal) : comparison :=
  let e := Z.min (expo a) (expo b) in
  (coef a * pow10 (expo a - e)) ?= (coef b * pow10 (expo b - e)).

Definition dle (a b : Decimal) : bool :=
  match dcompare a b with Gt => false | _ => true end.
Definition dlt (a b : Decimal) : bool :=
  match dcompare a b with Lt => true | _ => false end.
Definition dge (a b : Decimal) : bool := dle b a.
Definition dgt (a b : Decimal) : bool := dlt b a.

(** The loop of [__truediv__] that brings an exact quotient as close to
    the ideal exponent as possible. *)
Fixpoint strip_zeros (fuel : nat) (c e : Z) : Z * Z :=
  match fuel with
  | O => (c, e)
  | S f => if c mod 10 =? 0 then strip_zeros f (c / 10) (e + 1) else (c, e)
  end.

(** [a / b]; [Raised] is DivisionByZero (or InvalidOperation for 0/0). *)
Definition ddiv (a b : Decimal) : result Decimal :=
  if is_zero b then Raised
  else if is_zero a then Returned (mkDec 0 (expo a - expo b))
  else
    let sign := Z.sgn (coef a) * Z.sgn (coef b) in
    let n1 := Z.abs (coef a) in
    let n2 := Z.abs (coef b) in
    let shift := ndigits n2 - ndigits n1 + ctx_prec + 1 in
    let e := expo a - expo b - shift in
    let '(q, r) :=
      if 0 <=? shift
      then (n1 * pow10 shift / n2, (n1 * pow10 shift) mod n2)
      else (n1 / (n2 * pow10 (- shift)), n1 mod (n2 * pow10 (- shift))) in
    let '(c, e') :=
      if r =? 0
      then strip_zeros (Z.to_nat (expo a - expo b - e)) q e
      else (if q mod 5 =? 0 then q + 1 else q, e) in
    Returned (fix_ctx (mkDec (sign * c) e')).

(** [d.quantize(Decimal("0.01"), rounding=ROUND_HALF_UP)]; [Raised] is the
    InvalidOperation signalled when the result would not fit the context
    precision. *)
Definition quantize (d : Decimal) : result Decimal :=
  if is_zero d then Returned (mkDec 0 (-2))
  else
    let n := Z.abs (coef d) in
    if ctx_prec <? (expo d + ndigits n - 1) - (-2) + 1 then Raised
    else
      let c := if -2 <=? expo d
               then n * pow10 (expo d + 2)
               else div_half_up n (-2 - expo d) in
      if ctx_prec <? ndigits c then Raised
      else Returned (mkDec (Z.sgn (coef d) * c) (-2)).

(** Truthiness of an optional decimal: [None] and zero are falsy. *)
Definition dec_truthy (o : option Decimal) : bool :=
  match o with
  | Some d => negb (is_zero d)
  | None => false
  end.

(** ** binary64 floats *)

Definition prec : Z := 53.
Definition emax : Z := 1024.

Definition fadd : spec_float -> spec_float -> spec_float := SFadd prec emax.
Definition fmul : spec_float -> spec_float -> spec_float := SFmul prec emax.
Definition fdiv : spec_float -> spec_float -> spec_float := SFdiv prec emax.
Definition fltb : spec_float -> spec_float -> bool := SFltb.
Definition fleb : spec_float -> spec_float -> bool := SFleb.

(** The float literal [n/d] written in decimal notation: the double nearest
    to the quotient. *)
Definition float_lit (n d : positive) : spec_float :=
  fdiv (S754_finite false n 0) (S754_finite false d 0).

Definition f0_0 : spec_float := S754_zero false.
Definition f1_0 : spec_float := Eval vm_compute in float_lit 1 1.
Definition f0_35 : spec_float := Eval vm_compute in float_lit 35 100.
Definition f0_30 : spec_float := Eval vm_compute in float_lit 30 100.
Definition f0_25 : spec_float := Eval vm_compute in float_lit 25 100.
Definition f0_20 : spec_float := Eval vm_compute in float_lit 20 100.
Definition f0_10 : spec_float := Eval vm_compute in float_lit 10 100.
Definition f0_08 : spec_float := Eval vm_compute in float_lit 8 100.
Definition f0_05 : spec_float := Eval vm_compute in float_lit 5 100.

(** [a / b] on two non-negative [int]s: the correctly rounded quotient.
    Python raises ZeroDivisionError for [b = 0]; both call sites test the
    divisor first, which is why it is a [positive] here. *)
Definition int_truediv (a : N) (b : positive) : spec_float :=
  match a with
  | N0 => S754_zero false
  | Npos a' => fdiv (S754_finite false a' 0) (S754_finite false b 0)
  end.

(** The builtins [max(a, b)] and [min(a, b)] on floats. *)
Definition py_max (a b : spec_float) : spec_float := if fltb a b then b else a.
Definition py_min (a b : spec_float) : spec_float := if fltb b a then b else a.

(** ** The data model of [src/shops/base.py] *)

Inductive ShopRegion := SE | EU | NON_EU.

Global Instance ShopRegion_eq_dec : EqDecision ShopRegion.
Proof. solve_decision. Defined.

Record ShopConfig := {
  c_id : str;
  c_name : str;
  display_name : str;
  c_url : str;
  region : ShopRegion;
  currency : str;
  trust_score : spec_float;
  feed_url : option str;
  feed_type : option str;
  feed_mapping : gmap str str;
  affiliate_network : option str;
  affiliate_id : option str;
  affiliate_url_template : option str;
  free_shipping_threshold : option Decimal;
  base_shipping_cost : option Decimal;
  ships_to_sweden : bool
}.

Record ProductResult := {
  shop_id : str;
  external_id : str;
  p_name : str;
  brand : option str;
  price : Decimal;
  p_currency : str;
  original_price : option Decimal;
  category : option str;
  color : option str;
  sizes : list str;
  material : option str;
  gender : option str;
  description : option str;
  product_url : str;
  affiliate_url : option str;
  image_url : option str;
  shipping_cost : option Decimal;
  customs_cost : option Decimal;
  vat_cost : option Decimal;
  total_cost : option Decimal;
  total_cost_sek : option Decimal;
  in_stock : bool;
  relevance_score : spec_float
}.

Record SearchQuery := {
  query : str;
  q_category : option str;
  q_brand : option str;
  q_color : option str;
  min_price : option Decimal;
  max_price : option Decimal;
  q_size : option str;
  q_gender : option str;
  style_tags : list str;
  limit : Z
}.

(** ** [src/core/cost_calculator.py] *)

Definition DEFAULT_EXCHANGE_RATES : gmap str Decimal :=
  list_to_map [ (lit "EUR", mkDec 1150 (-2));
                (lit "USD", mkDec 1050 (-2));
                (lit "GBP", mkDec 1350 (-2));
                (lit "SEK", mkDec 10 (-1)) ].

Definition SWEDISH_VAT_RATE : Decimal := mkDec 25 (-2).
Definition CUSTOMS_THRESHOLD_EUR : Decimal := mkDec 150 0.

Definition CUSTOMS_RATES_clothing : Decimal := mkDec 12 (-2).
Definition CUSTOMS_RATES_footwear : Decimal := mkDec 8 (-2).
Definition CUSTOMS_RATES_accessories : Decimal := mkDec 4 (-2).
Definition CUSTOMS_RATES_default : Decimal := mkDec 5 (-2).

Record CostCalculator := {
  api_key : option str;
  _cached_rates : gmap str Decimal
}.

(** [any(c in cat_lower for c in keywords)]. *)
Definition any_in (keywords : list str) (text : str) : bool :=
  existsb (fun c => contains c text) keywords.

Section CostCalculator.

Context `{StrOps}.

(** The response of the rate provider to [_fetch_live_rate]: the rate it
    quotes, or [Raised] for a network error, an HTTP error status or a
    missing target currency. *)
Variable _fetch_live_rate : str -> str -> result Decimal.

Definition get_exchange_rate (self : CostCalculator)
    (from_currency to_currency : str) : result (Decimal * CostCalculator) :=
  if bool_decide (from_currency = to_currency) then
    Returned (mkDec 10 (-1), self)
  else
    let cache_key := from_currency ++ lit "_" ++ to_currency in
    match _cached_rates self !! cache_key with
    | Some rate => Returned (rate, self)
    | None =>
        let live :=
          if str_truthy (api_key self)
          then _fetch_live_rate from_currency to_currency
          else Raised in
        match live with
        | Returned rate =>
            Returned (rate, {| api_key := api_key self;
                               _cached_rates := <[cache_key := rate]> (_cached_rates self) |})
        | Raised =>
            match bool_decide (to_currency = lit "SEK"),
                  DEFAULT_EXCHANGE_RATES !! from_currency with
            | true, Some rate => Returned (rate, self)
            | true, None => Returned (mkDec 10 (-1), self)
            | false, _ =>
                let from_to_sek :=
                  default (mkDec 10 (-1)) (DEFAULT_EXCHANGE_RATES !! from_currency) in
                let to_to_sek :=
                  default (mkDec 10 (-1)) (DEFAULT_EXCHANGE_RATES !! to_currency) in
                rate ← ddiv from_to_sek to_to_sek;
                Returned (rate, self)
            end
        end
    end.

Definition convert_to_sek (amount : Decimal) (from_currency : str)
    (rate : Decimal) : result Decimal :=
  if bool_decide (from_currency = lit "SEK") then Returned amount
  else quantize (dmul amount rate).

(** [config.base_shipping_cost or Decimal("0")]. *)
Definition base_cost_or_zero (config : ShopConfig) : Decimal :=
  if dec_truthy (base_shipping_cost config)
  then default (mkDec 0 0) (base_shipping_cost config)
  else mkDec 0 0.

Definition calculate_shipping (price : Decimal) (config : ShopConfig) : Decimal :=
  if negb (ships_to_sweden config) then mkDec 0 0
  else if dec_truthy (free_shipping_threshold config)
          && dge price (default (mkDec 0 0) (free_shipping_threshold config))
  then mkDec 0 0
  else base_cost_or_zero config.

(** The rate chosen by the [if]/[elif] chain of [calculate_customs]. *)
Definition customs_rate (category : option str) : Decimal :=
  if str_truthy category then
    let cat_lower := lower (or_empty category) in
    if any_in [lit "shirt"; lit "pants"; lit "jacket"; lit "dress"; lit "coat"] cat_lower
    then CUSTOMS_RATES_clothing
    else if any_in [lit "shoe"; lit "boot"; lit "sneaker"; lit "sandal"] cat_lower
    then CUSTOMS_RATES_footwear
    else if any_in [lit "bag"; lit "belt"; lit "watch"; lit "jewelry"] cat_lower
    then CUSTOMS_RATES_accessories
    else CUSTOMS_RATES_default
  else CUSTOMS_RATES_default.

Definition calculate_customs (price_eur shipping_eur : Decimal)
    (region : ShopRegion) (category : option str) : result (Decimal * Decimal) :=
  match region with
  | SE | EU => Returned (mkDec 0 0, mkDec 0 0)
  | NON_EU =>
      let total_value := dadd price_eur shipping_eur in
      customs_duty ←
        (if dle total_value CUSTOMS_THRESHOLD_EUR
         then Returned (mkDec 0 0)
         else quantize (dmul price_eur (customs_rate category)));
      let vat_base := dadd total_value customs_duty in
      import_vat ← quantize (dmul vat_base SWEDISH_VAT_RATE);
      Returned (customs_duty, import_vat)
  end.

(** The local variables of [calculate_total_cost] just before the product
    is updated. *)
Record CostLocals := {
  l_rate : Decimal;
  l_shipping : Decimal;
  l_price_eur : Decimal;
  l_shipping_eur : Decimal;
  l_customs_eur : Decimal;
  l_vat_eur : Decimal;
  l_customs : Decimal;
  l_vat : Decimal;
  l_total : Decimal;
  l_total_sek : Decimal
}.

Definition cost_locals (self : CostCalculator) (product : ProductResult)
    (config : ShopConfig) : result (CostLocals * CostCalculator) :=
  '(rate, self) ← get_exchange_rate self (p_currency product) (lit "SEK");
  let shipping := calculate_shipping (price product) config in
  '(price_eur, shipping_eur, self) ←
    (if bool_decide (p_currency product = lit "EUR")
     then Returned (price product, shipping, self)
     else
       '(eur_rate, self) ← get_exchange_rate self (p_currency product) (lit "EUR");
       Returned (dmul (price product) eur_rate, dmul shipping eur_rate, self));
  '(customs_eur, vat_eur) ←
    calculate_customs price_eur shipping_eur (region config) (category product);
  '(customs, vat, self) ←
    (if bool_decide (p_currency product = lit "EUR")
     then Returned (customs_eur, vat_eur, self)
     else
       '(sek_to_eur, self) ← get_exchange_rate self (lit "SEK") (lit "EUR");
       '(eur_to_orig, self) ← get_exchange_rate self (lit "EUR") (p_currency product);
       Returned (dmul customs_eur eur_to_orig, dmul vat_eur eur_to_orig, self));
  let total := dadd (dadd (dadd (price product) shipping) customs) vat in
  total_sek ← convert_to_sek total (p_currency product) rate;
  Returned ({| l_rate := rate; l_shipping := shipping;
               l_price_eur := price_eur; l_shipping_eur := shipping_eur;
               l_customs_eur := customs_eur; l_vat_eur := vat_eur;
               l_customs := customs; l_vat := vat;
               l_total := total; l_total_sek := total_sek |}, self).

Definition with_costs (product : ProductResult)
    (shipping customs vat total total_sek : Decimal) : ProductResult :=
  {| shop_id := shop_id product; external_id := external_id product;
     p_name := p_name product; brand := brand product;
     price := price product; p_currency := p_currency product;
     original_price := original_price product;
     category := category product; color := color product;
     sizes := sizes product; material := material product;
     gender := gender product; description := description product;
     product_url := product_url product;
     affiliate_url := affiliate_url product;
     image_url := image_url product;
     shipping_cost := Some shipping;
     customs_cost := Some customs;
     vat_cost := Some vat;
     total_cost := Some total;
     total_cost_sek := Some total_sek;
     in_stock := in_stock product;
     relevance_score := relevance_score product |}.

Definition calculate_total_cost (self : CostCalculator) (product : ProductResult)
    (config : ShopConfig) : result (ProductResult * CostCalculator) :=
  '(l, self) ← cost_locals self product config;
  shipping_cost ← quantize (l_shipping l);
  customs_cost ← quantize (l_customs l);
  vat_cost ← quantize (l_vat l);
  total_cost ← quantize (l_total l);
  Returned (with_costs product shipping_cost customs_cost vat_cost total_cost
              (l_total_sek l), self).

End CostCalculator.

(** ** [ShopAdapter.calculate_relevance] ([src/shops/base.py]) *)

Definition category_synonyms : gmap str (list str) :=
  list_to_map [
    (lit "hoodie", [lit "hoodie"; lit "hooded"; lit "pullover"; lit "sweatshirt"]);
    (lit "jacket", [lit "jacket"; lit "coat"; lit "blazer"; lit "parka"; lit "bomber"]);
    (lit "pants", [lit "pants"; lit "trousers"; lit "jeans"; lit "chinos"]);
    (lit "shirt", [lit "shirt"; lit "blouse"; lit "top"; lit "tee"; lit "t-shirt"]);
    (lit "shoes", [lit "shoes"; lit "sneakers"; lit "boots"; lit "trainers"; lit "footwear"]);
    (lit "sweater", [lit "sweater"; lit "jumper"; lit "knit"; lit "cardigan"; lit "pullover"]);
    (lit "dress", [lit "dress"; lit "gown"]);
    (lit "skirt", [lit "skirt"]);
    (lit "shorts", [lit "shorts"]) ].

(** The Swedish colour names are spelled with their code points
    (229 is a-ring, 246 is o-diaeresis). *)
Definition color_synonyms : gmap str (list str) :=
  list_to_map [
    (lit "black", [lit "black"; lit "noir"; lit "svart"]);
    (lit "white", [lit "white"; lit "cream"; lit "ivory"; lit "vit"]);
    (lit "blue", [lit "blue"; lit "navy"; lit "cobalt"; lit "bl" ++ [229%N]]);
    (lit "red", [lit "red"; lit "crimson"; lit "r" ++ [246%N] ++ lit "d"]);
    (lit "green", [lit "green"; lit "olive"; lit "gr" ++ [246%N] ++ lit "n"]);
    (lit "gray", [lit "gray"; lit "grey"; lit "charcoal"; lit "gr" ++ [229%N]]);
    (lit "brown", [lit "brown"; lit "tan"; lit "camel"; lit "brun"]);
    (lit "pink", [lit "pink"; lit "rose"; lit "rosa"]);
    (lit "beige", [lit "beige"; lit "sand"; lit "khaki"]) ].

(** [sum(1 for x in xs if p(x))]. *)
Definition count_if {A} (p : A -> bool) (xs : list A) : N :=
  N.of_nat (length (List.filter p xs)).

(** [len(xs)] of a non-empty list, as the divisor of a true division. *)
Definition len_pos {A} (x : A) (xs : list A) : positive :=
  Pos.of_succ_nat (length xs).

Section Relevance.

Context `{StrOps}.

Definition query_terms_of (q : SearchQuery) : list str :=
  let query_lower := lower (query q) in
  map strip
    (List.filter (fun t => (1 <? length (strip t))%nat) (split query_lower)).

Definition product_text_of (product : ProductResult) : str :=
  lower (p_name product) ++ lit " " ++ lower (or_empty (brand product))
    ++ lit " " ++ lower (or_empty (description product))
    ++ lit " " ++ lower (or_empty (category product)).

Definition brand_score_of (product : ProductResult) (q : SearchQuery) : spec_float :=
  let query_terms := query_terms_of q in
  let product_brand_lower := lower (or_empty (brand product)) in
  let product_text := product_text_of product in
  if str_truthy (q_brand q) then
    let query_brand_lower := lower (or_empty (q_brand q)) in
    match product_brand_lower with
    | [] => f0_0
    | _ :: _ =>
        if str_eqb query_brand_lower product_brand_lower then f0_35
        else if contains query_brand_lower product_brand_lower
                || contains product_brand_lower query_brand_lower
        then f0_25
        else f0_0
    end
  else
    fold_left
      (fun brand_score term =>
         if contains term product_brand_lower then py_max brand_score f0_30
         else if negb (bool_decide (product_brand_lower = []))
                 && contains term product_text
         then py_max brand_score f0_10
         else brand_score)
      query_terms f0_0.

(** [any(syn in a or syn in b for syn in synonyms)]. *)
Definition any_syn_in (synonyms : list str) (a b : str) : bool :=
  existsb (fun syn => contains syn a || contains syn b) synonyms.

Definition category_score_of (product : ProductResult) (q : SearchQuery) : spec_float :=
  let query_terms := query_terms_of q in
  let product_name_lower := lower (p_name product) in
  let product_category_lower := lower (or_empty (category product)) in
  if str_truthy (q_category q) then
    let query_cat := lower (or_empty (q_category q)) in
    let synonyms := default [query_cat] (category_synonyms !! query_cat) in
    if any_syn_in synonyms product_name_lower product_category_lower
    then f0_25 else f0_0
  else
    fold_left
      (fun category_score term =>
         let synonyms := default [term] (category_synonyms !! term) in
         if any_syn_in synonyms product_name_lower product_category_lower
         then py_max category_score f0_20
         else category_score)
      query_terms f0_0.

Definition color_score_of (product : ProductResult) (q : SearchQuery) : spec_float :=
  let query_terms := query_terms_of q in
  let product_name_lower := lower (p_name product) in
  let product_color_lower := lower (or_empty (color product)) in
  if str_truthy (q_color q) then
    let query_color := lower (or_empty (q_color q)) in
    let synonyms := default [query_color] (color_synonyms !! query_color) in
    if any_syn_in synonyms product_color_lower product_name_lower
    then f0_10 else f0_0
  else
    fold_left
      (fun color_score term =>
         if contains term product_color_lower then py_max color_score f0_08
         else color_score)
      query_terms f0_0.

Definition calculate_relevance (product : ProductResult) (q : SearchQuery) : spec_float :=
  let score := f0_0 in
  let query_terms := query_terms_of q in
  let product_text := product_text_of product in
  (* 1. Brand matching (0.35 max) *)
  let score := fadd score (brand_score_of product q) in
  (* 2. Category/type matching (0.25 max) *)
  let score := fadd score (category_score_of product q) in
  (* 3. Query term matching (0.20 max) *)
  let score :=
    match query_terms with
    | [] => score
    | t :: ts =>
        let matched_terms := count_if (fun term => contains term product_text) query_terms in
        let term_score := fmul (int_truediv matched_terms (len_pos t ts)) f0_20 in
        fadd score term_score
    end in
  (* 4. Color matching (0.10 max) *)
  let score := fadd score (color_score_of product q) in
  (* 5. Style tags matching (0.05 max) *)
  let score :=
    match style_tags q with
    | [] => score
    | t :: ts =>
        let matching_tags :=
          count_if (fun tag => contains (lower tag) product_text) (style_tags q) in
        fadd score (fmul (int_truediv matching_tags (len_pos t ts)) f0_05)
    end in
  (* 6. Size availability (0.05 max) *)
  let score :=
    if str_truthy (q_size q) && negb (bool_decide (sizes product = []))
    then if str_in_list (upper (or_empty (q_size q))) (map upper (sizes product))
         then fadd score f0_05
         else score
    else score in
  py_min score f1_0.

End Relevance.

(** ** Python values held in dictionaries *)

(** The values met in a watchlist item.  [VNum d] is an [int], a [float] or
    a [Decimal] whose [str()] is the decimal numeral [d]. *)
Inductive pyval :=
  | VNone
  | VBool (b : bool)
  | VNum (d : Decimal)
  | VStr (s : str).

Definition truthy (v : pyval) : bool :=
  match v with
  | VNone => false
  | VBool b => b
  | VNum d => negb (is_zero d)
  | VStr s => negb (bool_decide (s = []))
  end.

(** ** Shop adapters and the registry

    An adapter is modelled by what its awaited methods produce: a value, or
    [Raised] when the call raises (network error, timeout, malformed
    document). *)

Record ShopAdapter := {
  config : ShopConfig;
  search : SearchQuery -> result (list ProductResult);
  get_product : pyval -> result (option ProductResult)
}.

(** [ShopAdapter.check_availability], derived from [get_product]. *)
Definition check_availability (adapter : ShopAdapter) (external_id : pyval)
    : result (bool * option Decimal) :=
  product ← get_product adapter external_id;
  match product with
  | Some p => Returned (in_stock p, Some (price p))
  | None => Returned (false, None)
  end.

(** The registry as its lookups see it: [adapter_for] holds, for each shop
    id, the adapter that [ShopRegistry.get_adapter] returns (the cached
    instance, or the one it constructs on first use). *)
Record ShopRegistry := {
  adapter_for : gmap str ShopAdapter;
  _configs : gmap str ShopConfig
}.

(** ** The fan-out of [search_products] ([src/api/routes/search.py]) *)

(** [await asyncio.gather] over the tasks: the results in task order; the first
    exception raised by a task is raised by the [gather]. *)
Fixpoint gather {A} (tasks : list (result A)) : result (list A) :=
  match tasks with
  | [] => Returned []
  | t :: ts => a ← t; rest ← gather ts; Returned (a :: rest)
  end.

Definition search_shop (search_query : SearchQuery) (adapter : ShopAdapter)
    : result (list ProductResult) :=
  Returned (try_except (search adapter search_query) []).

(** Lines 104-117: search all shops and flatten the results. *)
Definition search_all_shops (search_query : SearchQuery)
    (adapters : list ShopAdapter) : result (list ProductResult) :=
  results_lists ← gather (map (search_shop search_query) adapters);
  Returned (fold_left (fun all_results results => all_results ++ results)
                      results_lists []).

(** ** Watchlist items *)

(** [d.get(key)] and [d.get(key, dflt)]. *)
Definition dict_get (d : gmap str pyval) (key : string) : pyval :=
  default VNone (d !! lit key).
Definition dict_get_default (d : gmap str pyval) (key : string) (dflt : pyval) : pyval :=
  default dflt (d !! lit key).

(** [float(d)] for a decimal: the double nearest to it. *)
Definition float_of_decimal (d : Decimal) : spec_float :=
  match coef d with
  | Z0 => S754_zero false
  | Zpos c =>
      if 0 <=? expo d
      then binary_normalize prec emax (Zpos c * pow10 (expo d)) 0 false
      else fdiv (S754_finite false c 0)
                (S754_finite false (Z.to_pos (pow10 (- expo d))) 0)
  | Zneg c =>
      if 0 <=? expo d
      then binary_normalize prec emax (Zneg c * pow10 (expo d)) 0 false
      else fdiv (S754_finite true c 0)
                (S754_finite false (Z.to_pos (pow10 (- expo d))) 0)
  end.

(** An [int] or a [float]. *)
Inductive pynumber :=
  | PyInt (n : Z)
  | PyFloat (f : spec_float).

(** ** [src/monitor/price_checker.py] *)

Record PriceCheck := {
  watchlist_id : pyval;
  product_id : pyval;
  pc_shop_id : pyval;
  old_price : Decimal;
  new_price : Decimal;
  pc_currency : pyval;
  price_dropped : bool;
  drop_amount : Decimal;
  drop_percent : pynumber;
  target_price_reached : bool;
  checked_at : Z
}.

(** ** [src/monitor/notifier.py] *)

Record NotificationResult := {
  success : bool;
  message_id : option str;
  error : option str
}.

(** A call to [EmailNotifier.send_target_price_alert] or to
    [EmailNotifier.send_price_drop_alert], with its keyword arguments. *)
Inductive Notification :=
  | send_target_price_alert
      (to_email product_name : pyval) (shop_name : pyval)
      (target_price current_price : spec_float) (currency : pyval)
      (product_url : pyval)
  | send_price_drop_alert
      (to_email product_name : pyval) (shop_name : pyval)
      (old_price new_price : spec_float) (currency : pyval)
      (product_url : pyval) (drop_percent : pynumber).

Inductive notification_type := target | drop.


Section Monitor.

(** The parser behind [Decimal(str)] on the text of a string value, for the
    numerals that denote a finite decimal; [Raised] is InvalidOperation. *)
Variable decimal_of_str : str -> result Decimal.

(** [datetime.utcnow()]. *)
Variable utcnow : Z.

(** The notifier, by its answers. *)
Variable notifier : Notification -> NotificationResult.

(** [Decimal(str(v))]. *)
Definition to_decimal (v : pyval) : result Decimal :=
  match v with
  | VNum d => Returned d
  | VStr s => decimal_of_str s
  | VNone | VBool _ => Raised
  end.

(** [float(v)]. *)
Definition to_float (v : pyval) : result spec_float :=
  match v with
  | VNum d => Returned (float_of_decimal d)
  | VBool b => Returned (if b then f1_0 else f0_0)
  | VStr s => d ← decimal_of_str s; Returned (float_of_decimal d)
  | VNone => Raised
  end.

(** [ShopRegistry.get_adapter] and [ShopRegistry.get_config]. *)
Definition get_adapter (registry : ShopRegistry) (shop_id : pyval)
    : option ShopAdapter :=
  match shop_id with
  | VStr s => adapter_for registry !! s
  | _ => None
  end.

Definition get_config (registry : ShopRegistry) (shop_id : pyval)
    : option ShopConfig :=
  match shop_id with
  | VStr s => _configs registry !! s
  | _ => None
  end.

(** [float(drop_amount / old_price * 100) if old_price > 0 else 0]. *)
Definition drop_percent_of (drop_amount old_price : Decimal) : result pynumber :=
  if dgt old_price (mkDec 0 0)
  then q ← ddiv drop_amount old_price;
       Returned (PyFloat (float_of_decimal (dmul q (mkDec 100 0))))
  else Returned (PyInt 0).

(** The body of the [try] block of [check_price]. *)
Definition check_price_body (adapter : ShopAdapter) (item : gmap str pyval)
    (shop_id product_id : pyval) : result (option PriceCheck) :=
  '(in_stock, current_price) ← check_availability adapter product_id;
  match current_price with
  | None => Returned None
  | Some current_price =>
      old_price ← to_decimal (dict_get_default item "current_price" (VNum (mkDec 0 0)));
      let new_price := current_price in
      let drop_amount := dsub old_price new_price in
      drop_percent ← drop_percent_of drop_amount old_price;
      let target_price := dict_get item "target_price" in
      target_reached ←
        (match target_price with
         | VNone => Returned false
         | _ => t ← to_decimal target_price; Returned (dle new_price t)
         end);
      Returned (Some {|
        watchlist_id := dict_get_default item "id" (VStr []);
        product_id := product_id;
        pc_shop_id := shop_id;
        old_price := old_price;
        new_price := new_price;
        pc_currency := dict_get_default item "currency" (VStr (lit "SEK"));
        price_dropped := dlt new_price old_price;
        drop_amount := drop_amount;
        drop_percent := drop_percent;
        target_price_reached := target_reached;
        checked_at := utcnow |})
  end.

Definition check_price (registry : ShopRegistry) (item : gmap str pyval)
    : result (option PriceCheck) :=
  let shop_id := dict_get item "shop_id" in
  let product_id := dict_get item "product_id" in
  match get_adapter registry shop_id with
  | None => Returned None
  | Some adapter =>
      Returned (try_except (check_price_body adapter item shop_id product_id) None)
  end.

(** [watchlist_items.get(check.watchlist_id)] on a [dict[str, dict]]. *)
Definition lookup_item (watchlist_items : gmap str (gmap str pyval))
    (key : pyval) : option (gmap str pyval) :=
  match key with
  | VStr s => watchlist_items !! s
  | _ => None
  end.

(** The decision taken for one check (lines 416-427). *)
Definition notification_for (check : PriceCheck) (item : gmap str pyval)
    : option notification_type :=
  if target_price_reached check then Some target
  else if price_dropped check
          && truthy (dict_get_default item "notify_any_drop" (VBool true))
  then Some drop
  else None.

(** One iteration of the loop of [process_price_checks]: the notification
    sent for [check], if any. *)
Definition process_one (registry : ShopRegistry)
    (watchlist_items : gmap str (gmap str pyval)) (check : PriceCheck)
    : result (option Notification) :=
  match lookup_item watchlist_items (watchlist_id check) with
  | None => Returned None
  | Some item =>
      if bool_decide (item = ∅) then Returned None
      else
        let user_email := dict_get item "user_email" in
        if negb (truthy user_email) then Returned None
        else
          match notification_for check item with
          | None => Returned None
          | Some notification_type =>
              let shop_name :=
                match get_config registry (pc_shop_id check) with
                | Some shop_config => VStr (display_name shop_config)
                | None => pc_shop_id check
                end in
              match notification_type with
              | target =>
                  target_price ←
                    to_float (dict_get_default item "target_price" (VNum (mkDec 0 0)));
                  Returned (Some (send_target_price_alert
                    user_email
                    (dict_get_default item "product_name" (VStr (lit "Product")))
                    shop_name target_price
                    (float_of_decimal (new_price check))
                    (pc_currency check)
                    (dict_get_default item "product_url" (VStr []))))
              | drop =>
                  Returned (Some (send_price_drop_alert
                    user_email
                    (dict_get_default item "product_name" (VStr (lit "Product")))
                    shop_name
                    (float_of_decimal (old_price check))
                    (float_of_decimal (new_price check))
                    (pc_currency check)
                    (dict_get_default item "product_url" (VStr []))
                    (drop_percent check)))
              end
          end
  end.

(** [process_price_checks]: the notifications handed to the notifier, in
    order, and the results it answered. *)
Fixpoint process_price_checks (registry : ShopRegistry)
    (checks : list PriceCheck) (watchlist_items : gmap str (gmap str pyval))
    : result (list Notification * list NotificationResult) :=
  match checks with
  | [] => Returned ([], [])
  | check :: rest =>
      sent ← process_one registry watchlist_items check;
      '(sents, results) ← process_price_checks registry rest watchlist_items;
      match sent with
      | None => Returned (sents, results)
      | Some n => Returned (n :: sents, notifier n :: results)
      end
  end.

End Monitor.

(** ** Sample data *)

Definition sample_config (r : ShopRegion) (cur : str)
    (threshold base : option Decimal) (ships : bool) : ShopConfig :=
  {| c_id := lit "shop"; c_name := lit "shop"; display_name := lit "Shop";
     c_url := lit "https://shop.example"; region := r; currency := cur;
     trust_score := float_lit 8 10;
     feed_url := None; feed_type := None; feed_mapping := ∅;
     affiliate_network := None; affiliate_id := None;
     affiliate_url_template := None;
     free_shipping_threshold := threshold; base_shipping_cost := base;
     ships_to_sweden := ships |}.

Definition sample_product (nm : str) (br : option str) (pr : Decimal)
    (cur : str) (cat col : option str) (szs : list str) : ProductResult :=
  {| shop_id := lit "shop"; external_id := lit "1"; p_name := nm; brand := br;
     price := pr; p_currency := cur; original_price := None;
     category := cat; color := col; sizes := szs; material := None;
     gender := None; description := None; product_url := [];
     affiliate_url := None; image_url := None;
     shipping_cost := None; customs_cost := None; vat_cost := None;
     total_cost := None; total_cost_sek := None;
     in_stock := true; relevance_score := f0_0 |}.

Definition sample_query (q : str) (cat br col sz : option str)
    (tags : list str) : SearchQuery :=
  {| query := q; q_category := cat; q_brand := br; q_color := col;
     min_price := None; max_price := None; q_size := sz; q_gender := None;
     style_tags := tags; limit := 20 |}.

(** A Swedish shop with free shipping from 499 and a flat cost of 49, and
    one without a free-shipping threshold. *)
Definition shop_with_threshold (ships : bool) : ShopConfig :=
  sample_config SE (lit "SEK") (Some (mkDec 499 0)) (Some (mkDec 49 0)) ships.
Definition shop_without_threshold : ShopConfig :=
  sample_config SE (lit "SEK") None (Some (mkDec 49 0)) true.

(** A calculator without a rate-provider credential and with an empty
    memo, and a rate provider that is never reached. *)
Definition offline_calculator : CostCalculator :=
  {| api_key := None; _cached_rates := ∅ |}.
Definition no_provider : str -> str -> result Decimal := fun _ _ => Raised.

(** Two shops that answer a search and one whose search raises. *)
Definition answering_adapter (found : list ProductResult) : ShopAdapter :=
  {| config := shop_without_threshold;
     search := fun _ => Returned found;
     get_product := fun _ => Returned (hd_error found) |}.
Definition failing_adapter : ShopAdapter :=
  {| config := shop_without_threshold;
     search := fun _ => Raised;
     get_product := fun _ => Raised |}.

Definition hoodie : ProductResult :=
  sample_product (lit "Nike Sportswear Tech Fleece Hoodie Black")
    (Some (lit "Nike")) (mkDec 89900 (-2)) (lit "SEK") None None [].
Definition sneaker : ProductResult :=
  sample_product (lit "Court Sneaker") (Some (lit "Acme"))
    (mkDec 59900 (-2)) (lit "SEK") (Some (lit "shoes")) None [].
Definition hoodie_query : SearchQuery :=
  sample_query (lit "Nike hoodie black") (Some (lit "hoodie"))
    (Some (lit "Nike")) None None [].

(** A registry with one shop, which sells [hoodie] at 899.00. *)
Definition one_shop_registry : ShopRegistry :=
  {| adapter_for := {[ lit "shop" := answering_adapter [hoodie] ]};
     _configs := {[ lit "shop" := shop_without_threshold ]} |}.

(** A watchlist item for that hoodie, by its stored price, its target price
    and its opt-in to notifications on any drop. *)
Definition watch_item (current_price target_price notify_any_drop : pyval)
    : gmap str pyval :=
  list_to_map [ (lit "id", VStr (lit "7"));
                (lit "user_email", VStr (lit "anna@example.se"));
                (lit "shop_id", VStr (lit "shop"));
                (lit "product_id", VStr (lit "1"));
                (lit "current_price", current_price);
                (lit "target_price", target_price);
                (lit "notify_any_drop", notify_any_drop) ].

Definition no_numerals : str -> result Decimal := fun _ => Raised.

Definition blank_check : PriceCheck :=
  {| watchlist_id := VNone; product_id := VNone; pc_shop_id := VNone;
     old_price := mkDec 0 0; new_price := mkDec 0 0; pc_currency := VNone;
     price_dropped := false; drop_amount := mkDec 0 0;
     drop_percent := PyInt 0; target_price_reached := false;
     checked_at := 0 |}.

Definition outcome_or_blank (r : result (option PriceCheck)) : PriceCheck :=
  match r with
  | Returned (Some check) => check
  | _ => blank_check
  end.

(** An entry stored at 999.00 with a target of 900 that opted out of
    any-drop notifications; the shop now asks 899.00. *)
Definition opted_out_item : gmap str pyval :=
  watch_item (VNum (mkDec 99900 (-2))) (VNum (mkDec 900 0)) (VBool false).
Definition opted_out_check : PriceCheck :=
  Eval vm_compute in
    outcome_or_blank (check_price no_numerals 0 one_shop_registry opted_out_item).
Definition sample_watchlist : gmap str (gmap str pyval) :=
  {[ lit "7" := opted_out_item ]}.
Definition accepting_notifier : Notification -> NotificationResult :=
  fun _ => {| success := true; message_id := Some (lit "m1"); error := None |}.

(** The three keyword buckets of the customs tariff in the order in which
    they are tried, each with its rate; the fourth, default bucket applies
    when none matches. *)
Definition customs_buckets : list (list str * Decimal) :=
  [ ([lit "shirt"; lit "pants"; lit "jacket"; lit "dress"; lit "coat"],
     CUSTOMS_RATES_clothing);
    ([lit "shoe"; lit "boot"; lit "sneaker"; lit "sandal"],
     CUSTOMS_RATES_footwear);
    ([lit "bag"; lit "belt"; lit "watch"; lit "jewelry"],
     CUSTOMS_RATES_accessories) ].

(** "First matching bucket wins, default otherwise", as the specification
    words the choice made by [customs_rate]. *)
Definition first_matching_rate `{StrOps} (category : option str) : Decimal :=
  match category with
  | Some (c :: cs) =>
      match List.find (fun bucket => any_in (fst bucket) (lower (c :: cs)))
                      customs_buckets with
      | Some bucket => snd bucket
      | None => CUSTOMS_RATES_default
      end
  | _ => CUSTOMS_RATES_default
  end.


(** The monetary output fields of a product. *)
Definition cost_fields (p : ProductResult)
    : option Decimal * option Decimal * option Decimal * option Decimal
      * option Decimal :=
  (shipping_cost p, customs_cost p, vat_cost p, total_cost p, total_cost_sek p).

Definition cost_outputs (r : result (ProductResult * CostCalculator)) :=
  match r with
  | Returned (p, calc) => Returned (cost_fields p, calc)
  | Raised => Raised
  end.

(** Shops outside the customs union, selling in euro and in US dollars with
    a flat shipping cost of 20, and a Swedish shop that ships for free. *)
Definition non_eu_shop (cur : str) : ShopConfig :=
  sample_config NON_EU cur None (Some (mkDec 20 0)) true.
Definition swedish_shop : ShopConfig :=
  sample_config SE (lit "SEK") None None true.

Definition jacket (pr : Decimal) (cur : str) : ProductResult :=
  sample_product (lit "Field Jacket") (Some (lit "Acme")) pr cur
    (Some (lit "Jackets")) None [].

(** [d] written with [j] more trailing zeros: the same number. *)
Definition pad (d : Decimal) (j : Z) : Decimal :=
  mkDec (coef d * pow10 j) (expo d - j).

(** What one run of the calculator delivers: the five monetary fields, or
    the exception. *)
Definition monetary_outputs (r : result (ProductResult * CostCalculator)) :=
  match r with
  | Returned (p, _) => Returned (cost_fields p)
  | Raised => Raised
  end.

(** A Swedish item priced with three decimals. *)
Definition three_decimals_item : ProductResult :=
  sample_product (lit "Wool Socks") (Some (lit "Acme")) (mkDec 100005 (-3))
    (lit "SEK") (Some (lit "socks")) None [].

(** The product a run hands back, or the product itself when it raises. *)
Definition costed (r : result (ProductResult * CostCalculator))
    (p : ProductResult) : ProductResult :=
  match r with
  | Returned (p', _) => p'
  | Raised => p
  end.

Definition three_decimals_costed : ProductResult :=
  Eval vm_compute in
    costed (calculate_total_cost (H:=ascii_ops) no_provider offline_calculator
              three_decimals_item swedish_shop) three_decimals_item.



(** A jacket at 100.00 US dollars from a shop outside the customs union. *)
Definition usd_jacket : ProductResult := jacket (mkDec 10000 (-2)) (lit "USD").
Definition usd_jacket_costed : ProductResult :=
  Eval vm_compute in
    costed (calculate_total_cost (H:=ascii_ops) no_provider offline_calculator
              usd_jacket (non_eu_shop (lit "USD"))) usd_jacket.

(** The same jacket under another name, and the same shipping policy under
    another shop name. *)
Definition renamed_jacket : ProductResult :=
  sample_product (lit "Parka") None (mkDec 10000 (-2)) (lit "USD")
    (Some (lit "Jackets")) (Some (lit "olive")) [lit "M"].
Definition renamed_shop : ShopConfig :=
  {| c_id := lit "other"; c_name := lit "other"; display_name := lit "Other";
     c_url := lit "https://other.example"; region := NON_EU;
     currency := lit "USD"; trust_score := float_lit 5 10;
     feed_url := Some (lit "https://other.example/feed"); feed_type := None;
     feed_mapping := ∅; affiliate_network := None; affiliate_id := None;
     affiliate_url_template := None;
     free_shipping_threshold := None; base_shipping_cost := Some (mkDec 20 0);
     ships_to_sweden := true |}.

(** A value that is not NaN and whose sign bit, unless it is a zero, is
    [s]. *)
Definition has_sign (s : bool) (x : spec_float) : Prop :=
  match x with
  | S754_nan => False
  | S754_zero _ => True
  | S754_infinity s' | S754_finite s' _ _ => s' = s
  end.

(** The hoodie after a first scoring and costing pass. *)
Definition costed_hoodie : ProductResult :=
  {| shop_id := shop_id hoodie; external_id := external_id hoodie;
     p_name := p_name hoodie; brand := brand hoodie; price := price hoodie;
     p_currency := p_currency hoodie; original_price := Some (mkDec 99900 (-2));
     category := category hoodie; color := color hoodie; sizes := sizes hoodie;
     material := material hoodie; gender := gender hoodie;
     description := description hoodie; product_url := product_url hoodie;
     affiliate_url := affiliate_url hoodie; image_url := image_url hoodie;
     shipping_cost := Some (mkDec 4900 (-2));
     customs_cost := Some (mkDec 0 (-2)); vat_cost := Some (mkDec 0 (-2));
     total_cost := Some (mkDec 94800 (-2));
     total_cost_sek := Some (mkDec 94800 (-2));
     in_stock := false; relevance_score := float_lit 8 10 |}.

(** ** Full matches

    The conditions under which [calculate_relevance] gives the full weight
    to the brand (0.35), the category (0.25) and the query terms (0.20), as
    the code tests them. *)

Definition f0_80 : spec_float := Eval vm_compute in float_lit 80 100.
Definition f0_90 : spec_float := Eval vm_compute in float_lit 90 100.

Section Conditions.
Context `{StrOps}.

(** The query names a brand and the product's brand equals it (case
    insensitively). *)
Definition exact_brand_match (p : ProductResult) (q : SearchQuery) : bool :=
  str_truthy (q_brand q)
  && negb (bool_decide (lower (or_empty (brand p)) = []))
  && str_eqb (lower (or_empty (q_brand q))) (lower (or_empty (brand p))).

(** The query names a category and one of its synonyms occurs in the
    product's name or category. *)
Definition category_match (p : ProductResult) (q : SearchQuery) : bool :=
  str_truthy (q_category q)
  && any_syn_in
       (default [lower (or_empty (q_category q))]
          (category_synonyms !! lower (or_empty (q_category q))))
       (lower (p_name p)) (lower (or_empty (category p))).

(** The query has terms and each of them occurs in the product's text. *)
Definition full_term_coverage (p : ProductResult) (q : SearchQuery) : bool :=
  negb (bool_decide (query_terms_of q = []))
  && forallb (fun term => contains term (product_text_of p)) (query_terms_of q).
End Conditions.

(** The hoodie, filed under the category the query asks for. *)
Definition categorised_hoodie : ProductResult :=
  sample_product (lit "Nike Sportswear Tech Fleece Hoodie Black")
    (Some (lit "Nike")) (mkDec 89900 (-2)) (lit "SEK") (Some (lit "hoodie"))
    None [].

(** A binary64 value in the normal range that is at least the normal value
    [ma * 2 ^ ea] (positive infinity included). *)
Definition normal_geb (ma : positive) (ea : Z) (x : spec_float) : bool :=
  match x with
  | S754_infinity false => true
  | S754_finite false m e =>
      (Zpos (digits2_pos m) =? 53)
      && ((ea <? e) || ((e =? ea) && (Zpos ma <=? Zpos m)))
  | _ => false
  end.

(** A calculator with a credential and an empty memo, a provider that
    quotes one rate, and the calculator after it memoised EUR to SEK. *)
Definition keyed_calculator : CostCalculator :=
  {| api_key := Some (lit "key"); _cached_rates := ∅ |}.
Definition quoting_provider (quote : Decimal) : str -> str -> result Decimal :=
  fun _ _ => Returned quote.
Definition keyed_calculator_after : CostCalculator :=
  {| api_key := Some (lit "key");
     _cached_rates := {[ lit "EUR_SEK" := mkDec 1132 (-2) ]} |}.

(** ** [PriceChecker.check_all_items] *)

(** [range(0, stop, step)] for a positive [step]. *)
Definition range_step (stop step : nat) : list nat :=
  map (fun k => (k * step)%nat) (seq 0 ((stop + step - 1) / step)).

(** [xs[i:j]] for [0 <= i <= j]. *)
Definition slice {A} (xs : list A) (i j : nat) : list A :=
  firstn (j - i) (skipn i xs).

Definition batch_size : nat := 10.

Section CheckAll.

Variable decimal_of_str : str -> result Decimal.
Variable utcnow : Z.

(** The loop body for the batch starting at [i]: the checks of the batch are
    gathered with [return_exceptions=True], so that the outcomes are kept as
    they are; the [PriceCheck] instances among them are appended, and a sleep
    of one second follows unless the batch is the last. *)
Definition check_batch (registry : ShopRegistry)
    (items : list (gmap str pyval)) (acc : list PriceCheck * nat) (i : nat)
    : list PriceCheck * nat :=
  let '(results, sleeps) := acc in
  let batch := slice items i (i + batch_size) in
  let checks := map (check_price decimal_of_str utcnow registry) batch in
  let results :=
    fold_left
      (fun results check =>
         match check with
         | Returned (Some c) => results ++ [c]
         | _ => results
         end)
      checks results in
  let sleeps :=
    if (i + batch_size <? length items)%nat then S sleeps else sleeps in
  (results, sleeps).

(** [check_all_items]: the results, and the number of one-second sleeps. *)
Definition check_all_items (registry : ShopRegistry)
    (items : list (gmap str pyval)) : list PriceCheck * nat :=
  fold_left (check_batch registry items)
            (range_step (length items) batch_size) ([], 0%nat).

End CheckAll.

(** The [PriceCheck] of an outcome, if it is one. *)
Definition price_check_of (outcome : result (option PriceCheck))
    : option PriceCheck :=
  match outcome with
  | Returned (Some c) => Some c
  | _ => None
  end.

(** A registry whose only shop lists nothing. *)
Definition sold_out_registry : ShopRegistry :=
  {| adapter_for := {[ lit "shop" := answering_adapter [] ]};
     _configs := {[ lit "shop" := shop_without_threshold ]} |}.

(** ** The watchlist store of [src/api/routes/watchlist.py] *)

(** The outcome of an endpoint: its response, or the [HTTPException] it
    raises. *)
Inductive http (A : Type) : Type :=
  | Ok (a : A)
  | HTTPException (status_code : Z) (detail : str).
Arguments Ok {A} a.
Arguments HTTPException {A} status_code detail.

(** [str(n)] for a non-negative [int]: its decimal numeral. *)
Definition str_of_N (n : N) : str :=
  lit (DecimalString.NilZero.string_of_uint (N.to_uint n)).

(** A [dict] with string keys in insertion order: [d.get(k)], [d[k] = v]
    (an existing key keeps its place) and [d.values()]. *)
Fixpoint odict_get {V} (d : list (str * V)) (k : str) : option V :=
  match d with
  | [] => None
  | (k', v) :: d' => if str_eqb k' k then Some v else odict_get d' k
  end.

Fixpoint odict_set {V} (d : list (str * V)) (k : str) (v : V)
    : list (str * V) :=
  match d with
  | [] => [(k, v)]
  | (k', v') :: d' =>
      if str_eqb k' k then (k', v) :: d' else (k', v') :: odict_set d' k v
  end.

Definition odict_values {V} (d : list (str * V)) : list V := map snd d.

(** An item of the store.  Every item is created by [add_to_watchlist] with
    these fifteen keys, and no endpoint adds or removes a key. *)
Record WatchlistEntry := {
  w_id : str;
  user_email : str;
  w_product_id : str;
  w_shop_id : str;
  product_name : str;
  w_product_url : str;
  w_image_url : option str;
  price_at_add : spec_float;
  current_price : spec_float;
  lowest_price_seen : spec_float;
  w_currency : str;
  target_price : option spec_float;
  notify_any_drop : bool;
  created_at : str;
  is_active : bool
}.

(** The module state: [_watchlist] and [_watchlist_counter]. *)
Record WatchlistStore := {
  _watchlist : list (str * WatchlistEntry);
  _watchlist_counter : N
}.

Definition empty_store : WatchlistStore :=
  {| _watchlist := []; _watchlist_counter := 0 |}.

Record WatchlistAddRequest := {
  r_user_email : str;
  r_product_id : str;
  r_shop_id : str;
  r_product_name : str;
  r_product_url : str;
  r_image_url : option str;
  r_current_price : spec_float;
  r_currency : str;
  r_target_price : option spec_float;
  r_notify_any_drop : bool
}.

(** The response model [WatchlistItem]: the item and its price change. *)
Record WatchlistItem := {
  wi_item : WatchlistEntry;
  price_change_percent : spec_float
}.

(** The response of [update_item_price]. *)
Record PriceUpdate := {
  u_old_price : spec_float;
  u_new_price : spec_float;
  u_price_dropped : bool;
  u_lowest_price_seen : spec_float
}.

Definition fsub : spec_float -> spec_float -> spec_float := SFsub prec emax.
Definition f100_0 : spec_float := Eval vm_compute in float_lit 100 1.

(** [item[key] = value] for the keys that the endpoints assign. *)
Definition set_target_price (item : WatchlistEntry) (v : option spec_float)
    : WatchlistEntry :=
  {| w_id := w_id item; user_email := user_email item;
     w_product_id := w_product_id item; w_shop_id := w_shop_id item;
     product_name := product_name item; w_product_url := w_product_url item;
     w_image_url := w_image_url item; price_at_add := price_at_add item;
     current_price := current_price item;
     lowest_price_seen := lowest_price_seen item;
     w_currency := w_currency item; target_price := v;
     notify_any_drop := notify_any_drop item;
     created_at := created_at item; is_active := is_active item |}.

Definition set_notify_any_drop (item : WatchlistEntry) (v : bool)
    : WatchlistEntry :=
  {| w_id := w_id item; user_email := user_email item;
     w_product_id := w_product_id item; w_shop_id := w_shop_id item;
     product_name := product_name item; w_product_url := w_product_url item;
     w_image_url := w_image_url item; price_at_add := price_at_add item;
     current_price := current_price item;
     lowest_price_seen := lowest_price_seen item;
     w_currency := w_currency item; target_price := target_price item;
     notify_any_drop := v;
     created_at := created_at item; is_active := is_active item |}.

Definition set_is_active (item : WatchlistEntry) (v : bool) : WatchlistEntry :=
  {| w_id := w_id item; user_email := user_email item;
     w_product_id := w_product_id item; w_shop_id := w_shop_id item;
     product_name := product_name item; w_product_url := w_product_url item;
     w_image_url := w_image_url item; price_at_add := price_at_add item;
     current_price := current_price item;
     lowest_price_seen := lowest_price_seen item;
     w_currency := w_currency item; target_price := target_price item;
     notify_any_drop := notify_any_drop item;
     created_at := created_at item; is_active := v |}.

Definition set_current_price (item : WatchlistEntry) (v : spec_float)
    : WatchlistEntry :=
  {| w_id := w_id item; user_email := user_email item;
     w_product_id := w_product_id item; w_shop_id := w_shop_id item;
     product_name := product_name item; w_product_url := w_product_url item;
     w_image_url := w_image_url item; price_at_add := price_at_add item;
     current_price := v;
     lowest_price_seen := lowest_price_seen item;
     w_currency := w_currency item; target_price := target_price item;
     notify_any_drop := notify_any_drop item;
     created_at := created_at item; is_active := is_active item |}.

Definition set_lowest_price_seen (item : WatchlistEntry) (v : spec_float)
    : WatchlistEntry :=
  {| w_id := w_id item; user_email := user_email item;
     w_product_id := w_product_id item; w_shop_id := w_shop_id item;
     product_name := product_name item; w_product_url := w_product_url item;
     w_image_url := w_image_url item; price_at_add := price_at_add item;
     current_price := current_price item;
     lowest_price_seen := v;
     w_currency := w_currency item; target_price := target_price item;
     notify_any_drop := notify_any_drop item;
     created_at := created_at item; is_active := is_active item |}.

(** The store after an item, found under [item_id], was mutated in place. *)
Definition store_item (store : WatchlistStore) (item_id : str)
    (item : WatchlistEntry) : WatchlistStore :=
  {| _watchlist := odict_set (_watchlist store) item_id item;
     _watchlist_counter := _watchlist_counter store |}.

Definition not_found {A} : http A := HTTPException 404 (lit "Item not found").

Section Watchlist.

(** The builtin [round(x, 2)] on a float. *)
Variable round_2 : spec_float -> spec_float.

(** The duplicate test of [add_to_watchlist]. *)
Definition same_watch (request : WatchlistAddRequest) (item : WatchlistEntry)
    : bool :=
  str_eqb (user_email item) (r_user_email request)
  && str_eqb (w_product_id item) (r_product_id request)
  && str_eqb (w_shop_id item) (r_shop_id request).

(** [add_to_watchlist]; [now] is [datetime.utcnow().isoformat()]. *)
Definition add_to_watchlist (store : WatchlistStore)
    (request : WatchlistAddRequest) (now : str)
    : http WatchlistItem * WatchlistStore :=
  if existsb (same_watch request) (odict_values (_watchlist store))
  then (HTTPException 400 (lit "Item already in watchlist"), store)
  else
    let counter := (_watchlist_counter store + 1)%N in
    let item_id := str_of_N counter in
    let item :=
      {| w_id := item_id;
         user_email := r_user_email request;
         w_product_id := r_product_id request;
         w_shop_id := r_shop_id request;
         product_name := r_product_name request;
         w_product_url := r_product_url request;
         w_image_url := r_image_url request;
         price_at_add := r_current_price request;
         current_price := r_current_price request;
         lowest_price_seen := r_current_price request;
         w_currency := r_currency request;
         target_price := r_target_price request;
         notify_any_drop := r_notify_any_drop request;
         created_at := now;
         is_active := true |} in
    (Ok {| wi_item := item; price_change_percent := f0_0 |},
     {| _watchlist := odict_set (_watchlist store) item_id item;
        _watchlist_counter := counter |}).

(** The price change reported with an item: the rounded percentage, or 0
    when the price at add is not positive. *)
Definition rounded_price_change (item : WatchlistEntry) : spec_float :=
  if fltb f0_0 (price_at_add item)
  then round_2
         (fmul (fdiv (fsub (current_price item) (price_at_add item))
                     (price_at_add item))
               f100_0)
  else f0_0.

Definition to_response (item : WatchlistEntry) : WatchlistItem :=
  {| wi_item := item; price_change_percent := rounded_price_change item |}.

(** [get_watchlist]: the items and their number. *)
Definition get_watchlist (store : WatchlistStore) (email : str)
    : list WatchlistItem * nat :=
  let items :=
    List.filter (fun item => str_eqb (user_email item) email && is_active item)
                (odict_values (_watchlist store)) in
  let response_items := map to_response items in
  (response_items, length response_items).

Definition get_watchlist_item (store : WatchlistStore) (item_id : str)
    : http WatchlistItem :=
  match odict_get (_watchlist store) item_id with
  | None => not_found
  | Some item => Ok (to_response item)
  end.

Definition update_watchlist_item (store : WatchlistStore) (item_id : str)
    (new_target_price : option spec_float) (new_notify_any_drop : option bool)
    : http WatchlistItem * WatchlistStore :=
  match odict_get (_watchlist store) item_id with
  | None => (not_found, store)
  | Some item =>
      let item :=
        match new_target_price with
        | Some t => set_target_price item (Some t)
        | None => item
        end in
      let item :=
        match new_notify_any_drop with
        | Some b => set_notify_any_drop item b
        | None => item
        end in
      (Ok (to_response item), store_item store item_id item)
  end.

(** [remove_from_watchlist]: a soft delete. *)
Definition remove_from_watchlist (store : WatchlistStore) (item_id : str)
    : http str * WatchlistStore :=
  match odict_get (_watchlist store) item_id with
  | None => (not_found, store)
  | Some item =>
      (Ok (lit "Item removed from watchlist"),
       store_item store item_id (set_is_active item false))
  end.

Definition update_item_price (store : WatchlistStore) (item_id : str)
    (new_price : spec_float) : http PriceUpdate * WatchlistStore :=
  match odict_get (_watchlist store) item_id with
  | None => (not_found, store)
  | Some item =>
      let old_price := current_price item in
      let item := set_current_price item new_price in
      let item :=
        if fltb new_price (lowest_price_seen item)
        then set_lowest_price_seen item new_price
        else item in
      (Ok {| u_old_price := old_price;
             u_new_price := new_price;
             u_price_dropped := fltb new_price old_price;
             u_lowest_price_seen := lowest_price_seen item |},
       store_item store item_id item)
  end.

(** A call of one of the endpoints that write to the store. *)
Inductive WatchlistCall :=
  | call_add (request : WatchlistAddRequest) (now : str)
  | call_update (item_id : str) (new_target_price : option spec_float)
      (new_notify_any_drop : option bool)
  | call_remove (item_id : str)
  | call_update_price (item_id : str) (new_price : spec_float).

(** The store after a call, and after a sequence of calls. *)
Definition after_call (store : WatchlistStore) (call : WatchlistCall)
    : WatchlistStore :=
  match call with
  | call_add request now => snd (add_to_watchlist store request now)
  | call_update item_id t n => snd (update_watchlist_item store item_id t n)
  | call_remove item_id => snd (remove_from_watchlist store item_id)
  | call_update_price item_id p => snd (update_item_price store item_id p)
  end.

Definition after_calls (store : WatchlistStore) (calls : list WatchlistCall)
    : WatchlistStore :=
  fold_left after_call calls store.

End Watchlist.

(** A float that is not NaN. *)
Definition is_number (x : spec_float) : bool :=
  match x with
  | S754_nan => false
  | _ => true
  end.

(** The prices that a call brings in. *)
Definition call_prices (call : WatchlistCall) : list spec_float :=
  match call with
  | call_add request _ => [r_current_price request]
  | call_update_price _ p => [p]
  | _ => []
  end.

(** The ids handed out by the first [n] accepted additions. *)
Definition first_ids (n : N) : list str :=
  map (fun k => str_of_N (N.of_nat k)) (seq 1 (N.to_nat n)).

(** The keys of the store are the ids handed out so far, in order, and
    every item is stored under its own id. *)
Definition well_keyed (store : WatchlistStore) : Prop :=
  map fst (_watchlist store) = first_ids (_watchlist_counter store) /\
  Forall (fun kv => w_id (snd kv) = fst kv) (_watchlist store).

(** The lowest price seen is neither above the current price nor above
    the price at add. *)
Definition lowest_is_lowest (item : WatchlistEntry) : Prop :=
  fleb (lowest_price_seen item) (current_price item) = true /\
  fleb (lowest_price_seen item) (price_at_add item) = true.

(** A request to watch the hoodie at 899.0 with a target of 800.0, and the
    identity standing in for [round]. *)
Definition f899_0 : spec_float := Eval vm_compute in float_lit 899 1.
Definition f849_0 : spec_float := Eval vm_compute in float_lit 849 1.
Definition f799_0 : spec_float := Eval vm_compute in float_lit 799 1.
Definition f800_0 : spec_float := Eval vm_compute in float_lit 800 1.

Definition hoodie_request : WatchlistAddRequest :=
  {| r_user_email := lit "anna@example.se";
     r_product_id := lit "1"; r_shop_id := lit "shop";
     r_product_name := lit "Nike Sportswear Tech Fleece Hoodie Black";
     r_product_url := lit "https://shop.example/1"; r_image_url := None;
     r_current_price := f899_0; r_currency := lit "SEK";
     r_target_price := Some f800_0; r_notify_any_drop := true |}.

Definition unrounded : spec_float -> spec_float := fun x => x.

(** The hoodie is added, its price falls to 799.0 and rises to 849.0. *)
Definition hoodie_calls : list WatchlistCall :=
  [ call_add hoodie_request (lit "2024-01-01T00:00:00");
    call_update_price (lit "1") f799_0;
    call_update_price (lit "1") f849_0 ].

(** The item that [add_to_watchlist] creates when it accepts [request]. *)
Definition new_item (store : WatchlistStore) (request : WatchlistAddRequest)
    (now : str) : WatchlistEntry :=
  {| w_id := str_of_N (_watchlist_counter store + 1);
     user_email := r_user_email request;
     w_product_id := r_product_id request;
     w_shop_id := r_shop_id request;
     product_name := r_product_name request;
     w_product_url := r_product_url request;
     w_image_url := r_image_url request;
     price_at_add := r_current_price request;
     current_price := r_current_price request;
     lowest_price_seen := r_current_price request;
     w_currency := r_currency request;
     target_price := r_target_price request;
     notify_any_drop := r_notify_any_drop request;
     created_at := now;
     is_active := true |}.

(** ** [FeedAdapter] ([src/shops/adapters/feed_adapter.py]) *)

(** The adapter: its configuration and the products it holds, keyed by
    external id in the order of the feed. *)
Record FeedAdapter := {
  fa_config : ShopConfig;
  _products : list (str * ProductResult)
}.

(** [product.relevance_score = score]. *)
Definition set_relevance_score (product : ProductResult) (score : spec_float)
    : ProductResult :=
  {| shop_id := shop_id product; external_id := external_id product;
     p_name := p_name product; brand := brand product;
     price := price product; p_currency := p_currency product;
     original_price := original_price product;
     category := category product; color := color product;
     sizes := sizes product; material := material product;
     gender := gender product; description := description product;
     product_url := product_url product;
     affiliate_url := affiliate_url product;
     image_url := image_url product;
     shipping_cost := shipping_cost product;
     customs_cost := customs_cost product;
     vat_cost := vat_cost product;
     total_cost := total_cost product;
     total_cost_sek := total_cost_sek product;
     in_stock := in_stock product;
     relevance_score := score |}.

(** [results.sort(key=key, reverse=True)]: the stable sort by decreasing
    key.  Each element goes behind the elements whose key is not below
    its own. *)
Fixpoint insert_by_key {A} (key : A -> spec_float) (x : A) (sorted : list A)
    : list A :=
  match sorted with
  | [] => [x]
  | y :: rest =>
      if fltb (key y) (key x) then x :: y :: rest
      else y :: insert_by_key key x rest
  end.

Definition sort_reverse {A} (key : A -> spec_float) (xs : list A) : list A :=
  fold_left (fun sorted x => insert_by_key key x sorted) xs [].

(** [xs[:n]] for an [int] n of either sign. *)
Definition slice_to {A} (xs : list A) (n : Z) : list A :=
  if 0 <=? n then firstn (Z.to_nat n) xs
  else firstn (length xs - Z.to_nat (- n)) xs.

(** [{p.external_id: p for p in products}]. *)
Definition products_by_id (products : list ProductResult)
    : list (str * ProductResult) :=
  fold_left (fun d p => odict_set d (external_id p) p) products [].

Section FeedAdapter.

Context `{StrOps}.

(** Lines 83-95 of [import_feed]: the products that the feed holds when it
    is fetched and parsed; [Raised] for a failed request or a document
    that does not parse. *)
Variable fetch_and_parse : ShopConfig -> result (list ProductResult).

Definition FeedAdapter_import_feed (self : FeedAdapter)
    : result (list ProductResult * FeedAdapter) :=
  if negb (str_truthy (feed_url (fa_config self))) then Returned ([], self)
  else
    products ← fetch_and_parse (fa_config self);
    Returned (products, {| fa_config := fa_config self;
                           _products := products_by_id products |}).

(** [if not self._products: await self.import_feed()]. *)
Definition ensure_products (self : FeedAdapter) : result FeedAdapter :=
  match _products self with
  | [] => '(_, self) ← FeedAdapter_import_feed self; Returned self
  | _ :: _ => Returned self
  end.

(** The filters of [search], each of which skips the product ([continue])
    when it fails. *)
Definition gender_filter (q : SearchQuery) (product : ProductResult) : bool :=
  if str_truthy (q_gender q) && str_truthy (gender product)
  then str_eqb (lower (or_empty (q_gender q))) (lower (or_empty (gender product)))
  else true.

Definition category_filter (q : SearchQuery) (product : ProductResult) : bool :=
  if str_truthy (q_category q) && str_truthy (category product)
  then contains (lower (or_empty (q_category q)))
                (lower (or_empty (category product)))
  else true.

Definition brand_filter (q : SearchQuery) (product : ProductResult) : bool :=
  if str_truthy (q_brand q) && str_truthy (brand product)
  then contains (lower (or_empty (q_brand q))) (lower (or_empty (brand product)))
  else true.

Definition color_filter (q : SearchQuery) (product : ProductResult) : bool :=
  if str_truthy (q_color q) && str_truthy (color product)
  then contains (lower (or_empty (q_color q))) (lower (or_empty (color product)))
  else true.

Definition min_price_filter (q : SearchQuery) (product : ProductResult) : bool :=
  negb (dec_truthy (min_price q)
        && dlt (price product) (default (mkDec 0 0) (min_price q))).

Definition max_price_filter (q : SearchQuery) (product : ProductResult) : bool :=
  negb (dec_truthy (max_price q)
        && dgt (price product) (default (mkDec 0 0) (max_price q))).

Definition size_filter (q : SearchQuery) (product : ProductResult) : bool :=
  if str_truthy (q_size q) && negb (bool_decide (sizes product = []))
  then str_in_list (upper (or_empty (q_size q))) (map upper (sizes product))
  else true.

Definition search_text_of (product : ProductResult) : str :=
  lower (p_name product ++ lit " " ++ or_empty (brand product)
         ++ lit " " ++ or_empty (description product)
         ++ lit " " ++ or_empty (category product)).

Definition text_filter (q : SearchQuery) (product : ProductResult) : bool :=
  existsb (fun term => contains term (search_text_of product))
          (split (lower (query q))).

Definition found_by (q : SearchQuery) (product : ProductResult) : bool :=
  gender_filter q product && category_filter q product
  && brand_filter q product && color_filter q product
  && min_price_filter q product && max_price_filter q product
  && size_filter q product && text_filter q product.

(** The loop of [search] over the stored products: a product that is found
    gets its relevance score assigned (the stored object is the one that is
    returned) and is appended to the results. *)
Definition search_loop (q : SearchQuery) (products : list (str * ProductResult))
    : list ProductResult * list (str * ProductResult) :=
  fold_left
    (fun '(results, stored) '(external_id, product) =>
       if found_by q product
       then let product :=
              set_relevance_score product (calculate_relevance product q) in
            (results ++ [product], stored ++ [(external_id, product)])
       else (results, stored ++ [(external_id, product)]))
    products ([], []).

Definition FeedAdapter_search (self : FeedAdapter) (q : SearchQuery)
    : result (list ProductResult * FeedAdapter) :=
  self ← ensure_products self;
  let '(results, stored) := search_loop q (_products self) in
  let results := sort_reverse relevance_score results in
  Returned (slice_to results (limit q),
            {| fa_config := fa_config self; _products := stored |}).

Definition FeedAdapter_get_product (self : FeedAdapter) (external_id : pyval)
    : result (option ProductResult * FeedAdapter) :=
  self ← ensure_products self;
  Returned (match external_id with
            | VStr s => odict_get (_products self) s
            | _ => None
            end, self).

(** The adapter as the orchestrator and the price checker see it in a given
    state. *)
Definition feed_adapter (self : FeedAdapter) : ShopAdapter :=
  {| config := fa_config self;
     search := fun q =>
       '(results, _) ← FeedAdapter_search self q; Returned results;
     get_product := fun external_id =>
       '(product, _) ← FeedAdapter_get_product self external_id;
       Returned product |}.

End FeedAdapter.

(** The keys of consecutive elements never increase. *)
Fixpoint decreasing {A} (key : A -> spec_float) (xs : list A) : Prop :=
  match xs with
  | [] => True
  | a :: rest =>
      match rest with
      | [] => True
      | b :: _ => fleb (key b) (key a) = true
      end /\ decreasing key rest
  end.

(** The last product of a feed with a given external id. *)
Definition last_with_id (products : list ProductResult) (external_id' : str)
    : option ProductResult :=
  find (fun p => str_eqb (external_id p) external_id') (rev products).

(** A feed adapter that holds the hoodie and the sneaker. *)
Definition feed_config : ShopConfig :=
  {| c_id := lit "shop"; c_name := lit "shop"; display_name := lit "Shop";
     c_url := lit "https://shop.example"; region := SE; currency := lit "SEK";
     trust_score := float_lit 8 10;
     feed_url := Some (lit "https://shop.example/feed.csv");
     feed_type := Some (lit "csv"); feed_mapping := ∅;
     affiliate_network := None; affiliate_id := None;
     affiliate_url_template := None;
     free_shipping_threshold := None; base_shipping_cost := None;
     ships_to_sweden := true |}.
Definition unloaded_feed : FeedAdapter :=
  {| fa_config := feed_config; _products := [] |}.

(** A row of the feed: a product under its external id. *)
Definition feed_item (id : str) (p : ProductResult) : ProductResult :=
  {| shop_id := shop_id p; external_id := id;
     p_name := p_name p; brand := brand p;
     price := price p; p_currency := p_currency p;
     original_price := original_price p;
     category := category p; color := color p;
     sizes := sizes p; material := material p;
     gender := gender p; description := description p;
     product_url := product_url p; affiliate_url := affiliate_url p;
     image_url := image_url p;
     shipping_cost := shipping_cost p; customs_cost := customs_cost p;
     vat_cost := vat_cost p; total_cost := total_cost p;
     total_cost_sek := total_cost_sek p;
     in_stock := in_stock p; relevance_score := relevance_score p |}.

(** A feed of four rows, the last of which replaces the second, and a
    free-text query. *)
Definition plain_hoodie : ProductResult :=
  sample_product (lit "Adidas Essentials Hoodie") (Some (lit "Adidas"))
    (mkDec 49900 (-2)) (lit "SEK") None None [].
Definition feed_rows : list ProductResult :=
  [ feed_item (lit "a1") plain_hoodie; feed_item (lit "s1") sneaker;
    feed_item (lit "h1") hoodie; feed_item (lit "s1") costed_hoodie ].
Definition four_rows_feed : ShopConfig -> result (list ProductResult) :=
  fun _ => Returned feed_rows.
Definition loaded_feed : FeedAdapter :=
  {| fa_config := feed_config; _products := products_by_id feed_rows |}.
Definition nike_hoodie_query : SearchQuery :=
  sample_query (lit "nike hoodie") None None None None [].
Definition broken_feed : ShopConfig -> result (list ProductResult) :=
  fun _ => Raised.

(** The rates that the provider quotes and those that the memo holds are
    not negative. *)
Definition quotes_nonnegative (fetch : str -> str -> result Decimal) : Prop :=
  forall from_currency to_currency rate,
    fetch from_currency to_currency = Returned rate ->
    dge rate (mkDec 0 0) = true.

Definition memo_nonnegative (calc : CostCalculator) : Prop :=
  forall key rate,
    _cached_rates calc !! key = Some rate -> dge rate (mkDec 0 0) = true.

(** ** The store of [ShopRegistry] ([src/shops/registry.py]) *)

Module Registry.

(** The three class attributes, dictionaries in insertion order.  An adapter
    class is held as its constructor. *)
Record t := {
  _adapters : list (str * ShopAdapter);
  _configs : list (str * ShopConfig);
  _adapter_classes : list (str * (ShopConfig -> ShopAdapter))
}.

(** The class as it is defined, before the module loads anything. *)
Definition initial : t :=
  {| _adapters := []; _configs := []; _adapter_classes := [] |}.

Definition set_adapter (cls : t) (shop_id : str) (adapter : ShopAdapter) : t :=
  {| _adapters := odict_set (_adapters cls) shop_id adapter;
     _configs := _configs cls;
     _adapter_classes := _adapter_classes cls |}.

Definition set_config (cls : t) (shop_id : str) (config : ShopConfig) : t :=
  {| _adapters := _adapters cls;
     _configs := odict_set (_configs cls) shop_id config;
     _adapter_classes := _adapter_classes cls |}.

Definition register_adapter_class (cls : t) (adapter_type : str)
    (adapter_class : ShopConfig -> ShopAdapter) : t :=
  {| _adapters := _adapters cls;
     _configs := _configs cls;
     _adapter_classes :=
       odict_set (_adapter_classes cls) adapter_type adapter_class |}.

(** One pass of the loop of [load_configs].  [file] is what reading a YAML
    file gives: [Raised] when opening it, [yaml.safe_load] or [_parse_config]
    raises, [Returned None] for a document without data, and the parsed
    configuration otherwise. *)
Definition load_file (state : list (str * ShopConfig) * t)
    (file : result (option ShopConfig)) : list (str * ShopConfig) * t :=
  let '(configs, cls) := state in
  match file with
  | Returned (Some config) =>
      (odict_set configs (c_id config) config,
       set_config cls (c_id config) config)
  | Returned None => (configs, cls)
  | Raised => (configs, cls)
  end.

(** [load_configs]: [files] is [None] when the directory does not exist, and
    otherwise the files matching [*.yaml] in the order of the listing. *)
Definition load_configs (cls : t)
    (files : option (list (result (option ShopConfig))))
    : list (str * ShopConfig) * t :=
  match files with
  | None => ([], cls)
  | Some files => fold_left load_file files ([], cls)
  end.

Definition get_config (cls : t) (shop_id : str) : option ShopConfig :=
  odict_get (_configs cls) shop_id.

Definition get_all_configs (cls : t) : list ShopConfig :=
  odict_values (_configs cls).

Definition clear (cls : t) : t :=
  {| _adapters := []; _configs := [];
     _adapter_classes := _adapter_classes cls |}.

(** The adapter classes that [get_adapter] imports, each as its
    constructor. *)
Class Imports := {
  ZalandoAdapter : ShopConfig -> ShopAdapter;
  KidsbrandstorePlaywright : ShopConfig -> ShopAdapter;
  FeedAdapter : ShopConfig -> ShopAdapter
}.

Section Adapters.

Context `{Imports}.

(** Lines 111-129: the adapter built for a shop that has none yet. *)
Definition new_adapter (cls : t) (shop_id : str) (config : ShopConfig)
    : ShopAdapter :=
  if str_eqb shop_id (lit "zalando_se") then ZalandoAdapter config
  else if str_eqb shop_id (lit "kidsbrandstore_se")
  then KidsbrandstorePlaywright config
  else
    let adapter_type :=
      if str_truthy (feed_type config) then or_empty (feed_type config)
      else lit "feed" in
    match odict_get (_adapter_classes cls) adapter_type with
    | Some adapter_class => adapter_class config
    | None => FeedAdapter config
    end.

Definition get_adapter (cls : t) (shop_id : str) : option ShopAdapter * t :=
  match odict_get (_adapters cls) shop_id with
  | Some adapter => (Some adapter, cls)
  | None =>
      match odict_get (_configs cls) shop_id with
      | None => (None, cls)
      | Some config =>
          let adapter := new_adapter cls shop_id config in
          (Some adapter, set_adapter cls shop_id adapter)
      end
  end.

(** One pass of the loop of [get_all_adapters]. *)
Definition collect_adapter (state : list ShopAdapter * t) (shop_id : str)
    : list ShopAdapter * t :=
  let '(adapters, cls) := state in
  match get_adapter cls shop_id with
  | (Some adapter, cls) => (adapters ++ [adapter], cls)
  | (None, cls) => (adapters, cls)
  end.

Definition get_all_adapters (cls : t) : list ShopAdapter * t :=
  fold_left collect_adapter (map fst (_configs cls)) ([], cls).

(** A call of a method of the class that changes the store, [clear]
    apart. *)
Inductive call :=
  | call_register_adapter_class (adapter_type : str)
      (adapter_class : ShopConfig -> ShopAdapter)
  | call_load_configs (files : option (list (result (option ShopConfig))))
  | call_get_adapter (shop_id : str)
  | call_get_all_adapters.

Definition after_call (cls : t) (c : call) : t :=
  match c with
  | call_register_adapter_class adapter_type adapter_class =>
      register_adapter_class cls adapter_type adapter_class
  | call_load_configs files => snd (load_configs cls files)
  | call_get_adapter shop_id => snd (get_adapter cls shop_id)
  | call_get_all_adapters => snd (get_all_adapters cls)
  end.

Definition after_calls (cls : t) (calls : list call) : t :=
  fold_left after_call calls cls.

(** ** The adapters of a search ([src/api/routes/search.py], lines 91-102) *)

(** One pass of the comprehension: the condition looks the adapter up, the
    element looks it up again. *)
Definition requested_adapter (state : list (option ShopAdapter) * t)
    (shop_id : str) : list (option ShopAdapter) * t :=
  let '(adapters, cls) := state in
  match get_adapter cls shop_id with
  | (Some _, cls) =>
      let '(adapter, cls) := get_adapter cls shop_id in
      (adapters ++ [adapter], cls)
  | (None, cls) => (adapters, cls)
  end.

(** [request.shops] is [None], or a list of shop ids. *)
Definition search_adapters (cls : t) (shops : option (list str))
    : http (list (option ShopAdapter)) * t :=
  let '(adapters, cls) :=
    match shops with
    | Some (shop_id :: rest) =>
        fold_left requested_adapter (shop_id :: rest) ([], cls)
    | _ =>
        let '(adapters, cls) := get_all_adapters cls in
        (map Some adapters, cls)
    end in
  match adapters with
  | [] => (HTTPException 400 (lit "No shops configured"), cls)
  | _ => (Ok adapters, cls)
  end.

End Adapters.

(** A shop that has an adapter or a configuration. *)
Definition known (cls : t) (shop_id : str) : bool :=
  match odict_get (_adapters cls) shop_id, odict_get (_configs cls) shop_id with
  | None, None => false
  | _, _ => true
  end.

End Registry.

(** Every configuration is filed under its own id, every adapter under the id
    of a shop that is configured, and no id is filed twice. *)
Definition registry_filed (cls : Registry.t) : Prop :=
  NoDup (map fst (Registry._configs cls)) /\
  NoDup (map fst (Registry._adapters cls)) /\
  (forall k c, odict_get (Registry._configs cls) k = Some c -> c_id c = k) /\
  (forall k a, odict_get (Registry._adapters cls) k = Some a ->
     odict_get (Registry._configs cls) k <> None).

(** The configuration that a listing of files leaves for a shop id: the one
    parsed last among the files that give this id, or [before] when none
    does. *)
Definition last_parsed (shop_id : str) (before : option ShopConfig)
    (files : list (result (option ShopConfig))) : option ShopConfig :=
  fold_left (fun found file =>
               match file with
               | Returned (Some config) =>
                   if str_eqb (c_id config) shop_id then Some config else found
               | _ => found
               end) files before.

(** Adapters that cannot be told apart by their answers are told apart by
    the shop they were built for. *)
Definition silent_adapter (config : ShopConfig) : ShopAdapter :=
  {| config := config;
     search := fun _ => Returned [];
     get_product := fun _ => Returned None |}.

Definition broken_adapter (config : ShopConfig) : ShopAdapter :=
  {| config := config;
     search := fun _ => Raised;
     get_product := fun _ => Raised |}.

Definition sample_imports : Registry.Imports :=
  {| Registry.ZalandoAdapter := broken_adapter;
     Registry.KidsbrandstorePlaywright := broken_adapter;
     Registry.FeedAdapter := silent_adapter |}.

(** The registry after a first load of one configuration, and calls that
    load another configuration for the same shop id. *)
Definition loaded_registry : Registry.t :=
  snd (Registry.load_configs Registry.initial
         (Some [Returned (Some swedish_shop)])).

Definition reload_calls : list Registry.call :=
  [ Registry.call_load_configs
      (Some [Raised; Returned (Some (non_eu_shop (lit "USD")))]);
    Registry.call_register_adapter_class (lit "feed") broken_adapter;
    Registry.call_get_all_adapters ].

(** Two providers give the same answers to the questions that
    [calculate_total_cost] asks about a product priced in [currency]. *)
Definition same_quotes (fetch fetch' : str -> str -> result Decimal)
    (currency : str) : Prop :=
  fetch currency (lit "SEK") = fetch' currency (lit "SEK") /\
  fetch currency (lit "EUR") = fetch' currency (lit "EUR") /\
  fetch (lit "SEK") (lit "EUR") = fetch' (lit "SEK") (lit "EUR") /\
  fetch (lit "EUR") currency = fetch' (lit "EUR") currency.

(** A currency code without the character that separates the two codes of
    a key of the rate memo. *)
Definition no_underscore (currency : str) : Prop := ~ In 95%N currency.

(** A provider that is up and quotes the US dollar, and one that differs
    from it on the pound only. *)
Definition dollar_provider : str -> str -> result Decimal :=
  fun from_currency to_currency =>
    if bool_decide (from_currency = lit "USD" /\ to_currency = lit "SEK")
    then Returned (mkDec 1075 (-2))
    else if bool_decide (from_currency = lit "USD" /\ to_currency = lit "EUR")
    then Returned (mkDec 92 (-2))
    else if bool_decide (from_currency = lit "EUR" /\ to_currency = lit "USD")
    then Returned (mkDec 109 (-2))
    else Raised.

Definition dollar_pound_provider : str -> str -> result Decimal :=
  fun from_currency to_currency =>
    if bool_decide (from_currency = lit "GBP")
    then Returned (mkDec 1350 (-2))
    else dollar_provider from_currency to_currency.

(** The jacket and the calculator after a first run with the dollar
    provider: three answers are memoised, the question SEK to EUR was not
    answered. *)
Definition dollar_jacket_costed : ProductResult :=
  Eval vm_compute in
    costed (calculate_total_cost (H:=ascii_ops) dollar_provider
              keyed_calculator usd_jacket (non_eu_shop (lit "USD"))) usd_jacket.

Definition dollar_memo : CostCalculator :=
  {| api_key := Some (lit "key");
     _cached_rates :=
       <[lit "EUR_USD" := mkDec 109 (-2)]>
         (<[lit "USD_EUR" := mkDec 92 (-2)]>
            {[ lit "USD_SEK" := mkDec 1075 (-2) ]}) |}.

(** ** The response of [search_products] ([src/api/routes/search.py],
    lines 131-168) *)

Module ProductResponse.
Record t := {
  shop_id : str;
  shop_name : str;
  external_id : str;
  name : str;
  brand : option str;
  price : spec_float;
  currency : str;
  original_price : option spec_float;
  category : option str;
  color : option str;
  sizes : list str;
  product_url : str;
  affiliate_url : option str;
  image_url : option str;
  in_stock : bool;
  relevance_score : spec_float;
  shipping_cost : option spec_float;
  customs_cost : option spec_float;
  vat_cost : option spec_float;
  total_cost : option spec_float;
  total_cost_sek : option spec_float
}.
End ProductResponse.

Module SearchResponse.
Record t := {
  query : str;
  total_results : Z;
  results : list ProductResponse.t
}.
End SearchResponse.

(** [-x] and [x == y] on floats. *)
Definition fneg : spec_float -> spec_float := SFopp.
Definition feqb : spec_float -> spec_float -> bool := SFeqb.

(** [a < b] on two pairs of floats: decided by the first components that
    are not equal. *)
Definition pair_ltb (a b : spec_float * spec_float) : bool :=
  if negb (feqb (fst a) (fst b)) then fltb (fst a) (fst b)
  else if negb (feqb (snd a) (snd b)) then fltb (snd a) (snd b)
  else false.

(** The stable sort by increasing key: each element goes in front of the
    first element whose key is above its own. *)
Fixpoint insert_by_lt {A K} (ltb : K -> K -> bool) (key : A -> K) (x : A)
    (sorted : list A) : list A :=
  match sorted with
  | [] => [x]
  | y :: rest =>
      if ltb (key x) (key y) then x :: y :: rest
      else y :: insert_by_lt ltb key x rest
  end.

Definition sort_by_key {A K} (ltb : K -> K -> bool) (key : A -> K)
    (xs : list A) : list A :=
  fold_left (fun sorted x => insert_by_lt ltb key x sorted) xs [].

(** No element of the list is below the element in front of it. *)
Fixpoint ascending {A K} (ltb : K -> K -> bool) (key : A -> K) (xs : list A)
    : Prop :=
  match xs with
  | [] => True
  | a :: rest =>
      match rest with
      | [] => True
      | b :: _ => ltb (key b) (key a) = false
      end /\ ascending ltb key rest
  end.

(** A [Decimal] as a product can hold it: a finite number, a negative zero,
    or one of the special values; the feed accepts all of them as a price
    ("-0", "Infinity", "NaN", "sNaN"). *)
Inductive AnyDecimal :=
  | Finite (d : Decimal)
  | NegativeZero (expo : Z)
  | Infinity (negative : bool)
  | NaN (signalling : bool).

(** Truthiness of an optional decimal: [None] and the zeros are falsy, the
    special values are not. *)
Definition any_truthy (o : option AnyDecimal) : bool :=
  match o with
  | Some (Finite d) => negb (is_zero d)
  | Some (NegativeZero _) => false
  | Some _ => true
  | None => false
  end.

(** [float(x)]: a signalling NaN cannot be converted (ValueError). *)
Definition float_of_any (x : AnyDecimal) : result spec_float :=
  match x with
  | Finite d => Returned (float_of_decimal d)
  | NegativeZero _ => Returned (S754_zero true)
  | Infinity negative => Returned (S754_infinity negative)
  | NaN false => Returned S754_nan
  | NaN true => Raised
  end.

(** The float that a decimal stands for in a comparison; NaN for both kinds
    of NaN. *)
Definition float_value (x : AnyDecimal) : spec_float :=
  match x with
  | Finite d => float_of_decimal d
  | NegativeZero _ => S754_zero true
  | Infinity negative => S754_infinity negative
  | NaN _ => S754_nan
  end.

(** [ProductResult] as [search_products] holds it. *)
Module Product.
Record t := {
  shop_id : str;
  external_id : str;
  name : str;
  brand : option str;
  price : AnyDecimal;
  currency : str;
  original_price : option AnyDecimal;
  category : option str;
  color : option str;
  sizes : list str;
  material : option str;
  gender : option str;
  description : option str;
  product_url : str;
  affiliate_url : option str;
  image_url : option str;
  shipping_cost : option AnyDecimal;
  customs_cost : option AnyDecimal;
  vat_cost : option AnyDecimal;
  total_cost : option AnyDecimal;
  total_cost_sek : option AnyDecimal;
  in_stock : bool;
  relevance_score : spec_float
}.
End Product.

(** A product whose amounts are all finite. *)
Definition finite_product (p : ProductResult) : Product.t :=
  {| Product.shop_id := shop_id p;
     Product.external_id := external_id p;
     Product.name := p_name p;
     Product.brand := brand p;
     Product.price := Finite (price p);
     Product.currency := p_currency p;
     Product.original_price := Finite <$> original_price p;
     Product.category := category p;
     Product.color := color p;
     Product.sizes := sizes p;
     Product.material := material p;
     Product.gender := gender p;
     Product.description := description p;
     Product.product_url := product_url p;
     Product.affiliate_url := affiliate_url p;
     Product.image_url := image_url p;
     Product.shipping_cost := Finite <$> shipping_cost p;
     Product.customs_cost := Finite <$> customs_cost p;
     Product.vat_cost := Finite <$> vat_cost p;
     Product.total_cost := Finite <$> total_cost p;
     Product.total_cost_sek := Finite <$> total_cost_sek p;
     Product.in_stock := in_stock p;
     Product.relevance_score := relevance_score p |}.

(** [[f(x) for x in xs]]: the first exception ends the comprehension. *)
Fixpoint each {A B} (f : A -> result B) (xs : list A) : result (list B) :=
  match xs with
  | [] => Returned []
  | x :: rest => y ← f x; ys ← each f rest; Returned (y :: ys)
  end.

(** [p.total_cost_sek or p.price]. *)
Definition cost_or_price (p : Product.t) : AnyDecimal :=
  if any_truthy (Product.total_cost_sek p)
  then default (Product.price p) (Product.total_cost_sek p)
  else Product.price p.

(** The key of the sort of line 132. *)
Definition sort_key (p : Product.t) : result (spec_float * spec_float) :=
  cost ← float_of_any (cost_or_price p);
  Returned (fneg (Product.relevance_score p), cost).

(** The key of a product whose cost converts. *)
Definition key_value (p : Product.t) : spec_float * spec_float :=
  (fneg (Product.relevance_score p), float_value (cost_or_price p)).

(** Keys that [<] orders: no component is NaN. *)
Definition ordered_key (k : spec_float * spec_float) : bool :=
  is_number (fst k) && is_number (snd k).

(** [all_results.sort(key=...)].  The keys are computed first, one for each
    element in order, and an exception of the key ends the sort.  When [<]
    orders the keys, the list is left in the stable order by increasing key.
    With a NaN among the keys [<] is no order; the list that Python leaves
    then depends on the comparisons its merge sort happens to make, which
    are not followed here: the outcome is [None]. *)
Definition sort_results (all_results : list Product.t)
    : result (option (list Product.t)) :=
  keys ← each sort_key all_results;
  Returned
    (if forallb ordered_key keys
     then Some (map snd (sort_by_key pair_ltb fst (combine keys all_results)))
     else None).

(** [float(x) if x else None]. *)
Definition float_or_none (x : option AnyDecimal)
    : result (option spec_float) :=
  match x with
  | Some d => if any_truthy x then f ← float_of_any d; Returned (Some f)
              else Returned None
  | None => Returned None
  end.

Definition product_response (cls : Registry.t) (p : Product.t)
    : result ProductResponse.t :=
  price ← float_of_any (Product.price p);
  original_price ← float_or_none (Product.original_price p);
  shipping_cost ← float_or_none (Product.shipping_cost p);
  customs_cost ← float_or_none (Product.customs_cost p);
  vat_cost ← float_or_none (Product.vat_cost p);
  total_cost ← float_or_none (Product.total_cost p);
  total_cost_sek ← float_or_none (Product.total_cost_sek p);
  Returned
    {| ProductResponse.shop_id := Product.shop_id p;
       ProductResponse.shop_name :=
         match Registry.get_config cls (Product.shop_id p) with
         | Some config => display_name config
         | None => Product.shop_id p
         end;
       ProductResponse.external_id := Product.external_id p;
       ProductResponse.name := Product.name p;
       ProductResponse.brand := Product.brand p;
       ProductResponse.price := price;
       ProductResponse.currency := Product.currency p;
       ProductResponse.original_price := original_price;
       ProductResponse.category := Product.category p;
       ProductResponse.color := Product.color p;
       ProductResponse.sizes := Product.sizes p;
       ProductResponse.product_url := Product.product_url p;
       ProductResponse.affiliate_url := Product.affiliate_url p;
       ProductResponse.image_url := Product.image_url p;
       ProductResponse.in_stock := Product.in_stock p;
       ProductResponse.relevance_score := Product.relevance_score p;
       ProductResponse.shipping_cost := shipping_cost;
       ProductResponse.customs_cost := customs_cost;
       ProductResponse.vat_cost := vat_cost;
       ProductResponse.total_cost := total_cost;
       ProductResponse.total_cost_sek := total_cost_sek |}.

(** Lines 131-168: the results are sorted and turned into the response.
    [None] stands for a response whose order the sort leaves open. *)
Definition search_response (cls : Registry.t) (request_query : str)
    (all_results : list Product.t) : result (option SearchResponse.t) :=
  sorted ← sort_results all_results;
  match sorted with
  | Some all_results =>
      results ← each (product_response cls) all_results;
      Returned
        (Some {| SearchResponse.query := request_query;
                 SearchResponse.total_results := Z.of_nat (length all_results);
                 SearchResponse.results := results |})
  | None =>
      _ ← each (product_response cls) all_results;
      Returned None
  end.

(** A decimal that is not a NaN, and one that [float] converts. *)
Definition not_nan (x : AnyDecimal) : bool :=
  match x with
  | NaN _ => false
  | _ => true
  end.

Definition converts (x : AnyDecimal) : bool :=
  match x with
  | NaN true => false
  | _ => true
  end.

(** A product none of whose amounts is a signalling NaN. *)
Definition convertible (p : Product.t) : bool :=
  converts (Product.price p)
  && forallb (fun x => default true (converts <$> x))
       [Product.original_price p; Product.shipping_cost p;
        Product.customs_cost p; Product.vat_cost p; Product.total_cost p;
        Product.total_cost_sek p].

(** Results in the order of the response: no result is less relevant than
    the next, and of two neighbours that are equally relevant the first
    costs no more. *)
Fixpoint ranked (xs : list Product.t) : Prop :=
  match xs with
  | [] => True
  | a :: rest =>
      match rest with
      | [] => True
      | b :: _ =>
          fleb (Product.relevance_score b) (Product.relevance_score a) = true /\
          (feqb (Product.relevance_score a) (Product.relevance_score b) = true ->
           fleb (float_value (cost_or_price a))
                (float_value (cost_or_price b)) = true)
      end /\ ranked rest
  end.

(** A product of relevance 0.8 with a price of any kind and no costs. *)
Definition priced (price : AnyDecimal) : Product.t :=
  {| Product.shop_id := lit "shop"; Product.external_id := lit "9";
     Product.name := lit "Parka"; Product.brand := None;
     Product.price := price; Product.currency := lit "SEK";
     Product.original_price := None; Product.category := None;
     Product.color := None; Product.sizes := []; Product.material := None;
     Product.gender := None; Product.description := None;
     Product.product_url := []; Product.affiliate_url := None;
     Product.image_url := None; Product.shipping_cost := None;
     Product.customs_cost := None; Product.vat_cost := None;
     Product.total_cost := None; Product.total_cost_sek := None;
     Product.in_stock := true; Product.relevance_score := f0_80 |}.

(** Three results as the adapters and the calculator leave them, the second
    and the third equally relevant, and a product that a feed lists at the
    price "Infinity". *)
Definition found_products : list Product.t :=
  [ finite_product (set_relevance_score hoodie f0_30);
    finite_product (set_relevance_score costed_hoodie f0_80);
    finite_product
      (set_relevance_score (jacket (mkDec 5000 (-2)) (lit "SEK")) f0_80);
    priced (Infinity false) ].

(** * Properties *)

(** ** Exceptions *)

Lemma bind_returned {A B} (r : result A) (k : A -> result B) (b : B) :
  (r ≫= k) = Returned b <-> exists a, r = Returned a /\ k a = Returned b.
Proof.
  destruct r as [a|]; cbn.
  - split; [eauto|]. intros (a' & [= <-] & Hk). exact Hk.
  - split; [discriminate|]. intros (a' & Hr & _). discriminate Hr.
Qed.

(** ** Decimal comparison *)

Lemma dcompare_antisym (a b : Decimal) : dcompare b a = CompOpp (dcompare a b).
Proof.
  unfold dcompare. rewrite (Z.min_comm (expo b) (expo a)).
  apply Z.compare_antisym.
Qed.

Lemma dlt_not_dge (a b : Decimal) : dlt a b = negb (dge a b).
Proof.
  unfold dlt, dge, dle. rewrite (dcompare_antisym a b).
  destruct (dcompare a b); reflexivity.
Qed.

Lemma dgt_nonzero (d : Decimal) : dgt d (mkDec 0 0) = true -> is_zero d = false.
Proof.
  unfold dgt, dlt, dcompare, is_zero. cbn [coef expo].
  destruct (coef d) eqn:E; cbn; try reflexivity.
  rewrite Z.compare_refl. discriminate.
Qed.

(** ** Shipping (C7) *)

(** C7, as stated, fails for a shop whose free-shipping threshold is zero:
    the threshold test is a truthiness test, so that a zero threshold counts
    as no threshold, and a price of 10 (which is at least 0) is charged the
    flat cost of 49. *)
Lemma C7_zero_threshold_counterexample :
  ~ (forall (price : Decimal) (config : ShopConfig) (t : Decimal),
       ships_to_sweden config = true ->
       free_shipping_threshold config = Some t ->
       dge price t = true ->
       is_zero (calculate_shipping price config) = true).
Proof.
  intros Hclaim.
  specialize (Hclaim (mkDec 10 0)
    (sample_config SE (lit "SEK") (Some (mkDec 0 0)) (Some (mkDec 49 0)) true)
    (mkDec 0 0) eq_refl eq_refl eq_refl).
  vm_compute in Hclaim. discriminate.
Qed.

(** C7 (amended): the shipping cost is 0 when the shop cannot ship to the
    home region; otherwise it is 0 when the shop has a non-zero free-shipping
    threshold and the price is at least that threshold, and it is the shop's
    flat base shipping cost (0 when none is configured) when the price is
    below the threshold, or when no threshold or a zero threshold is
    configured. *)
Theorem C7_calculate_shipping_cases (price : Decimal) (config : ShopConfig) :
  (ships_to_sweden config = false ->
     calculate_shipping price config = mkDec 0 0) /\
  (forall t, ships_to_sweden config = true ->
     free_shipping_threshold config = Some t -> is_zero t = false ->
     dge price t = true ->
     calculate_shipping price config = mkDec 0 0) /\
  (forall t, ships_to_sweden config = true ->
     free_shipping_threshold config = Some t ->
     dlt price t = true ->
     calculate_shipping price config = base_cost_or_zero config) /\
  (ships_to_sweden config = true ->
     dec_truthy (free_shipping_threshold config) = false ->
     calculate_shipping price config = base_cost_or_zero config).
Proof.
  unfold calculate_shipping. split; [|split; [|split]].
  - intros ->. reflexivity.
  - intros t -> -> Hz Hge. cbn. rewrite Hz, Hge. reflexivity.
  - intros t -> -> Hlt. cbn. rewrite dlt_not_dge in Hlt.
    destruct (dge price t); [discriminate|].
    rewrite andb_false_r. reflexivity.
  - intros -> ->. reflexivity.
Qed.

Lemma C7_calculate_shipping_cases_witness :
  calculate_shipping (mkDec 499 0) (shop_with_threshold true) = mkDec 0 0 /\
  calculate_shipping (mkDec 49899 (-2)) (shop_with_threshold true) = mkDec 49 0 /\
  calculate_shipping (mkDec 499 0) (shop_with_threshold false) = mkDec 0 0 /\
  calculate_shipping (mkDec 499 0) shop_without_threshold = mkDec 49 0.
Proof.
  split; [|split; [|split]].
  - exact (proj1 (proj2 (C7_calculate_shipping_cases
             (mkDec 499 0) (shop_with_threshold true)))
             (mkDec 499 0) eq_refl eq_refl eq_refl eq_refl).
  - exact (proj1 (proj2 (proj2 (C7_calculate_shipping_cases
             (mkDec 49899 (-2)) (shop_with_threshold true))))
             (mkDec 499 0) eq_refl eq_refl eq_refl).
  - exact (proj1 (C7_calculate_shipping_cases
             (mkDec 499 0) (shop_with_threshold false)) eq_refl).
  - exact (proj2 (proj2 (proj2 (C7_calculate_shipping_cases
             (mkDec 499 0) shop_without_threshold)))
             eq_refl eq_refl).
Defined.

(** ** The fan-out (C3) *)

Lemma gather_search_shop (q : SearchQuery) (adapters : list ShopAdapter) :
  gather (map (search_shop q) adapters)
  = Returned (map (fun a => try_except (search a q) []) adapters).
Proof.
  induction adapters as [|a l IH]; [reflexivity|].
  cbn [map gather]. rewrite IH. reflexivity.
Qed.

Lemma fold_left_extend {A} (ls : list (list A)) (init : list A) :
  fold_left (fun all_results results => all_results ++ results) ls init
  = init ++ concat ls.
Proof.
  revert init. induction ls as [|l ls IH]; intros init; cbn.
  - symmetry. apply app_nil_r.
  - rewrite IH. symmetry. apply app_assoc.
Qed.

Lemma search_all_shops_concat (q : SearchQuery) (adapters : list ShopAdapter) :
  search_all_shops q adapters
  = Returned (concat (map (fun a => try_except (search a q) []) adapters)).
Proof.
  unfold search_all_shops. rewrite gather_search_shop. cbn.
  rewrite fold_left_extend. reflexivity.
Qed.

Lemma succeeded_results (q : SearchQuery) (adapters : list ShopAdapter)
    (rs : list (list ProductResult)) :
  Forall2 (fun a r => search a q = Returned r) adapters rs ->
  map (fun a => try_except (search a q) []) adapters = rs.
Proof.
  induction 1 as [|a r l rs' Ha _ IH]; cbn; [reflexivity|].
  rewrite Ha, IH. reflexivity.
Qed.

(** C3: when one adapter of the fan-out raises (a timeout included) and the
    others return, the orchestrator returns (no exception escapes) the
    concatenation, in adapter order, of the results of the others: the
    failing adapter contributes the empty list and every result of every
    succeeding adapter is present. *)
Theorem C3_one_failing_adapter (q : SearchQuery)
    (before after : list ShopAdapter) (failing : ShopAdapter)
    (rs_before rs_after : list (list ProductResult)) :
  Forall2 (fun a r => search a q = Returned r) before rs_before ->
  search failing q = Raised ->
  Forall2 (fun a r => search a q = Returned r) after rs_after ->
  search_shop q failing = Returned [] /\
  search_all_shops q (before ++ failing :: after)
    = Returned (concat rs_before ++ concat rs_after) /\
  (forall a r p, In a (before ++ after) -> search a q = Returned r -> In p r ->
     exists all_results,
       search_all_shops q (before ++ failing :: after) = Returned all_results
       /\ In p all_results).
Proof.
  intros Hb Hf Ha.
  assert (Hall : search_all_shops q (before ++ failing :: after)
                 = Returned (concat rs_before ++ concat rs_after)).
  { rewrite search_all_shops_concat, map_app. cbn [map].
    rewrite (succeeded_results q before rs_before Hb).
    rewrite (succeeded_results q after rs_after Ha).
    rewrite Hf. cbn [try_except].
    rewrite concat_app. reflexivity. }
  split; [|split].
  - unfold search_shop. rewrite Hf. reflexivity.
  - exact Hall.
  - intros a r p Hin Hr Hp. eexists. split; [exact Hall|].
    rewrite <- concat_app, <- (succeeded_results q _ _ Hb),
      <- (succeeded_results q _ _ Ha), <- map_app.
    apply in_concat. exists r. split; [|exact Hp].
    apply in_map_iff. exists a. rewrite Hr. split; [reflexivity|exact Hin].
Qed.

Lemma C3_one_failing_adapter_witness :
  search_all_shops hoodie_query
    ([answering_adapter [hoodie]]
       ++ failing_adapter :: [answering_adapter [sneaker; hoodie]])
  = Returned [hoodie; sneaker; hoodie].
Proof.
  exact (proj1 (proj2 (C3_one_failing_adapter hoodie_query
    [answering_adapter [hoodie]] [answering_adapter [sneaker; hoodie]]
    failing_adapter [[hoodie]] [[sneaker; hoodie]]
    ltac:(repeat constructor) eq_refl ltac:(repeat constructor)))).
Defined.

(** ** The price check (C10) *)

Lemma ddiv_returns (a b : Decimal) :
  is_zero b = false -> exists q, ddiv a b = Returned q.
Proof.
  intros Hb. unfold ddiv. rewrite Hb.
  destruct (is_zero a); [eauto|].
  destruct (0 <=? _); destruct (_ =? 0);
    try destruct (strip_zeros _ _ _); eauto.
Qed.

Lemma is_zero_not_dgt (d : Decimal) :
  is_zero d = true -> dgt d (mkDec 0 0) = false.
Proof.
  unfold is_zero, dgt, dlt, dcompare. cbn [coef expo].
  intros Hz%Z.eqb_eq. rewrite Hz. cbn. reflexivity.
Qed.

Lemma drop_percent_of_returns (drop_amount old_price : Decimal) :
  exists v, drop_percent_of drop_amount old_price = Returned v.
Proof.
  unfold drop_percent_of.
  destruct (dgt old_price (mkDec 0 0)) eqn:E; [|eauto].
  destruct (ddiv_returns drop_amount old_price (dgt_nonzero _ E)) as [q ->].
  cbn. eauto.
Qed.

Lemma drop_percent_of_zero (drop_amount old_price : Decimal) :
  is_zero old_price = true ->
  drop_percent_of drop_amount old_price = Returned (PyInt 0).
Proof.
  intros Hz. unfold drop_percent_of. rewrite (is_zero_not_dgt _ Hz).
  reflexivity.
Qed.

(** C10: the per-item price check never raises.  The division by the old
    price is guarded: the drop percentage is always defined, it is the
    integer 0 when the stored price is 0, and then the check returns its
    outcome; and whenever anything raises inside the check, the check
    returns [None]. *)
Theorem C10_check_price_guarded (decimal_of_str : str -> result Decimal)
    (utcnow : Z) (registry : ShopRegistry) (item : gmap str pyval) :
  (exists r, check_price decimal_of_str utcnow registry item = Returned r) /\
  (forall drop_amount old_price,
     exists v, drop_percent_of drop_amount old_price = Returned v) /\
  (forall adapter stock current stored,
     get_adapter registry (dict_get item "shop_id") = Some adapter ->
     check_availability adapter (dict_get item "product_id")
       = Returned (stock, Some current) ->
     to_decimal decimal_of_str
       (dict_get_default item "current_price" (VNum (mkDec 0 0)))
       = Returned stored ->
     is_zero stored = true ->
     (dict_get item "target_price" = VNone \/
      exists t, to_decimal decimal_of_str (dict_get item "target_price")
                = Returned t) ->
     exists check,
       check_price decimal_of_str utcnow registry item = Returned (Some check)
       /\ drop_percent check = PyInt 0
       /\ drop_amount check = dsub stored current) /\
  (forall adapter,
     get_adapter registry (dict_get item "shop_id") = Some adapter ->
     check_price_body decimal_of_str utcnow adapter item
       (dict_get item "shop_id") (dict_get item "product_id") = Raised ->
     check_price decimal_of_str utcnow registry item = Returned None).
Proof.
  split; [|split; [|split]].
  - unfold check_price. destruct (get_adapter _ _); eauto.
  - apply drop_percent_of_returns.
  - intros adapter stock current stored Ha Hc Hs Hz Ht.
    unfold check_price. rewrite Ha. unfold check_price_body.
    rewrite Hc. cbn. rewrite Hs. cbn.
    rewrite (drop_percent_of_zero _ _ Hz). cbn.
    destruct Ht as [-> | [t Ht]].
    + cbn. eexists. split; [reflexivity|]. split; reflexivity.
    + destruct (dict_get item "target_price") eqn:Et.
      * cbn. eexists. split; [reflexivity|]. split; reflexivity.
      * rewrite Ht. cbn. eexists. split; [reflexivity|]. split; reflexivity.
      * rewrite Ht. cbn. eexists. split; [reflexivity|]. split; reflexivity.
      * rewrite Ht. cbn. eexists. split; [reflexivity|]. split; reflexivity.
  - intros adapter Ha Hr. unfold check_price. rewrite Ha, Hr. reflexivity.
Qed.

Lemma C10_check_price_guarded_witness :
  exists check,
    check_price no_numerals 0 one_shop_registry
      (watch_item (VNum (mkDec 0 0)) VNone (VBool true))
    = Returned (Some check)
    /\ drop_percent check = PyInt 0
    /\ drop_amount check = dsub (mkDec 0 0) (mkDec 89900 (-2)).
Proof.
  exact (proj1 (proj2 (proj2 (C10_check_price_guarded no_numerals 0
    one_shop_registry (watch_item (VNum (mkDec 0 0)) VNone (VBool true)))))
    (answering_adapter [hoodie]) true (mkDec 89900 (-2)) (mkDec 0 0)
    eq_refl eq_refl eq_refl eq_refl (or_introl eq_refl)).
Defined.

(** ** The notification decision (C4) *)






(** ** Customs duty and import VAT outside the customs union (C1) *)

Lemma customs_rate_first_match `{StrOps} (category : option str) :
  customs_rate category = first_matching_rate category.
Proof.
  unfold customs_rate, first_matching_rate.
  destruct category as [[|c cs]|]; cbn [str_truthy or_empty]; try reflexivity.
  cbn [customs_buckets List.find fst snd].
  repeat (match goal with
          | |- context [if any_in ?k ?t then _ else _] => destruct (any_in k t)
          end; try reflexivity).
Qed.

(** C1, as stated, makes the duty the exact product of price and rate; the
    code rounds it (and the VAT) half-up to two decimals.  A jacket at
    200.01 EUR with shipping 20 pays 24.00, not 24.0012. *)
Lemma C1_unrounded_duty_counterexample :
  ~ (forall (price shipping : Decimal) (category : option str)
            (duty vat : Decimal),
       calculate_customs (H:=ascii_ops) price shipping NON_EU category
         = Returned (duty, vat) ->
       dle (dadd price shipping) CUSTOMS_THRESHOLD_EUR = false ->
       dcompare duty (dmul price (customs_rate (H:=ascii_ops) category)) = Eq).
Proof.
  intros Hclaim.
  specialize (Hclaim (mkDec 20001 (-2)) (mkDec 20 0) (Some (lit "Jackets"))
                (mkDec 2400 (-2)) (mkDec 6100 (-2)) eq_refl eq_refl).
  vm_compute in Hclaim. discriminate.
Qed.

Lemma calculate_customs_non_eu_iff `{StrOps} (price shipping : Decimal)
    (category : option str) (duty vat : Decimal) :
  calculate_customs price shipping NON_EU category = Returned (duty, vat)
  <->
  (if dle (dadd price shipping) CUSTOMS_THRESHOLD_EUR
   then Returned (mkDec 0 0)
   else quantize (dmul price (first_matching_rate category)))
    = Returned duty /\
  quantize (dmul (dadd (dadd price shipping) duty) SWEDISH_VAT_RATE)
    = Returned vat.
Proof.
  unfold calculate_customs. rewrite customs_rate_first_match.
  rewrite bind_returned. split.
  - intros (d & Hd & Hk). apply bind_returned in Hk as (v & Hv & [= <- <-]).
    split; assumption.
  - intros [Hd Hv]. exists duty. split; [exact Hd|].
    apply bind_returned. exists vat. split; [exact Hv|reflexivity].
Qed.

Lemma customs_below_threshold_example :
  calculate_customs (H:=ascii_ops) (mkDec 100 0) (mkDec 10 0) NON_EU None
  = Returned (mkDec 0 0, mkDec 2750 (-2)).
Proof. vm_compute. reflexivity. Qed.

Lemma customs_clothing_example (keyword : str) :
  In keyword [lit "shirt"; lit "pants"; lit "jacket"; lit "dress"; lit "coat"] ->
  calculate_customs (H:=ascii_ops) (mkDec 200 0) (mkDec 20 0) NON_EU
    (Some keyword)
  = Returned (mkDec 2400 (-2), mkDec 6100 (-2)).
Proof.
  intros Hin. cbn in Hin.
  repeat (destruct Hin as [<- | Hin]; [vm_compute; reflexivity|]).
  contradiction.
Qed.

Lemma total_cost_clothing_example :
  cost_outputs (calculate_total_cost (H:=ascii_ops) no_provider
                  offline_calculator (jacket (mkDec 200 0) (lit "EUR"))
                  (non_eu_shop (lit "EUR")))
  = Returned (Some (mkDec 2000 (-2)), Some (mkDec 2400 (-2)),
              Some (mkDec 6100 (-2)), Some (mkDec 30500 (-2)),
              Some (mkDec 350750 (-2)), offline_calculator).
Proof. vm_compute. reflexivity. Qed.

(** C1 (amended): for a product from outside the customs union the duty is
    0 when price + shipping (in EUR) is at most 150, and otherwise price
    times the rate of the first matching keyword bucket (clothing 0.12,
    footwear 0.08, accessories 0.04, default 0.05) rounded half-up to two
    decimals; the import VAT is (price + shipping + duty) times 0.25 rounded
    half-up to two decimals.  Price 100 with shipping 10 gives duty 0 and
    VAT 27.50; a clothing item at price 200 with shipping 20 gives duty
    24.00, VAT 61.00 and a total of 305.00. *)
Theorem C1_customs_non_eu :
  (forall (ops : StrOps) (price shipping : Decimal) (category : option str)
          (duty vat : Decimal),
     calculate_customs price shipping NON_EU category = Returned (duty, vat)
     <->
     (if dle (dadd price shipping) CUSTOMS_THRESHOLD_EUR
      then Returned (mkDec 0 0)
      else quantize (dmul price (first_matching_rate category)))
       = Returned duty /\
     quantize (dmul (dadd (dadd price shipping) duty) SWEDISH_VAT_RATE)
       = Returned vat) /\
  calculate_customs (H:=ascii_ops) (mkDec 100 0) (mkDec 10 0) NON_EU None
    = Returned (mkDec 0 0, mkDec 2750 (-2)) /\
  (forall keyword,
     In keyword [lit "shirt"; lit "pants"; lit "jacket"; lit "dress"; lit "coat"] ->
     calculate_customs (H:=ascii_ops) (mkDec 200 0) (mkDec 20 0) NON_EU
       (Some keyword)
     = Returned (mkDec 2400 (-2), mkDec 6100 (-2))) /\
  cost_outputs (calculate_total_cost (H:=ascii_ops) no_provider
                  offline_calculator (jacket (mkDec 200 0) (lit "EUR"))
                  (non_eu_shop (lit "EUR")))
    = Returned (Some (mkDec 2000 (-2)), Some (mkDec 2400 (-2)),
                Some (mkDec 6100 (-2)), Some (mkDec 30500 (-2)),
                Some (mkDec 350750 (-2)), offline_calculator).
Proof.
  exact (conj (fun ops => @calculate_customs_non_eu_iff ops)
          (conj customs_below_threshold_example
             (conj customs_clothing_example total_cost_clothing_example))).
Qed.

Lemma C1_customs_non_eu_witness :
  quantize (dmul (mkDec 20001 (-2)) (first_matching_rate (H:=ascii_ops)
                                       (Some (lit "Jackets"))))
    = Returned (mkDec 2400 (-2)) /\
  quantize (dmul (dadd (dadd (mkDec 20001 (-2)) (mkDec 20 0)) (mkDec 2400 (-2)))
                 SWEDISH_VAT_RATE)
    = Returned (mkDec 6100 (-2)).
Proof.
  exact (proj1 (proj1 C1_customs_non_eu ascii_ops (mkDec 20001 (-2))
                  (mkDec 20 0) (Some (lit "Jackets"))
                  (mkDec 2400 (-2)) (mkDec 6100 (-2)))
               ltac:(vm_compute; reflexivity)).
Defined.

(** ** Decimal arithmetic: digits, context rounding and quantize *)

Lemma pow10_pos (k : Z) : 0 <= k -> 0 < pow10 k.
Proof. intros. unfold pow10. apply Z.pow_pos_nonneg; lia. Qed.

Lemma pow10_add (a b : Z) : 0 <= a -> 0 <= b -> pow10 (a + b) = pow10 a * pow10 b.
Proof. intros. unfold pow10. apply Z.pow_add_r; lia. Qed.

Lemma pow10_succ (a : Z) : 0 <= a -> pow10 (a + 1) = 10 * pow10 a.
Proof. intros. rewrite pow10_add by lia. unfold pow10 at 2. lia. Qed.

Lemma ndigits_aux_spec (fuel : nat) : forall n,
  0 < n < 2 ^ (Z.of_nat fuel + 1) ->
  1 <= ndigits_aux fuel n /\
  pow10 (ndigits_aux fuel n - 1) <= n < pow10 (ndigits_aux fuel n).
Proof.
  induction fuel as [|f IH]; intros n Hn.
  - cbn in *. unfold pow10. cbn. lia.
  - cbn [ndigits_aux]. destruct (Z.ltb_spec n 10) as [Hlt|Hge].
    + unfold pow10. cbn. lia.
    + assert (Hq : 0 < n / 10 < 2 ^ (Z.of_nat f + 1)).
      { split.
        - apply Z.div_str_pos. lia.
        - apply Z.div_lt_upper_bound; [lia|].
          replace (Z.of_nat (S f) + 1) with ((Z.of_nat f + 1) + 1) in Hn by lia.
          rewrite Z.pow_add_r in Hn by lia. change (2 ^ 1) with 2 in Hn. lia. }
      destruct (IH _ Hq) as [H1 [Hlo Hhi]].
      set (r := ndigits_aux f (n / 10)) in *.
      split; [lia|].
      replace (1 + r - 1) with ((r - 1) + 1) by lia.
      replace (1 + r) with (r + 1) by lia.
      rewrite !pow10_succ by lia.
      pose proof (Z.div_mod n 10 ltac:(lia)).
      pose proof (Z.mod_pos_bound n 10 ltac:(lia)).
      lia.
Qed.

Lemma ndigits_spec (n : Z) : 0 < n ->
  1 <= ndigits n /\ pow10 (ndigits n - 1) <= n < pow10 (ndigits n).
Proof.
  intros Hn. unfold ndigits. apply ndigits_aux_spec.
  split; [exact Hn|].
  rewrite Z2Nat.id by apply Z.log2_nonneg.
  replace (Z.log2 n + 1) with (Z.succ (Z.log2 n)) by lia.
  apply Z.log2_spec. exact Hn.
Qed.

Lemma pow10_lt_mono (a b : Z) : 0 <= a -> pow10 a < pow10 b -> a < b.
Proof.
  intros Ha Hlt. destruct (Z.lt_ge_cases a b) as [|Hge]; [assumption|].
  exfalso. unfold pow10 in Hlt.
  destruct (Z.lt_ge_cases b 0) as [Hb|Hb].
  - rewrite (Z.pow_neg_r 10 b Hb) in Hlt.
    pose proof (Z.pow_pos_nonneg 10 a ltac:(lia) Ha). lia.
  - pose proof (Z.pow_le_mono_r 10 b a ltac:(lia) ltac:(lia)). lia.
Qed.

Lemma ndigits_unique (n d : Z) :
  1 <= d -> pow10 (d - 1) <= n < pow10 d -> ndigits n = d.
Proof.
  intros Hd [Hlo Hhi].
  assert (Hn : 0 < n) by (pose proof (pow10_pos (d - 1)); lia).
  destruct (ndigits_spec n Hn) as [H1 [Hlo' Hhi']].
  assert (d - 1 < ndigits n) by (apply pow10_lt_mono; lia).
  assert (ndigits n - 1 < d) by (apply pow10_lt_mono; lia).
  lia.
Qed.

Lemma ndigits_zero : ndigits 0 = 1.
Proof. reflexivity. Qed.

Lemma ndigits_pad (n j : Z) : 0 < n -> 0 <= j -> ndigits (n * pow10 j) = ndigits n + j.
Proof.
  intros Hn Hj. destruct (ndigits_spec n Hn) as [H1 [Hlo Hhi]].
  apply ndigits_unique; [lia|].
  replace (ndigits n + j - 1) with ((ndigits n - 1) + j) by lia.
  rewrite !pow10_add by lia.
  pose proof (pow10_pos j Hj). nia.
Qed.

Lemma div_half_even_bounds (a s : Z) :
  0 <= a -> 0 <= s ->
  a / pow10 s <= div_half_even a s <= a / pow10 s + 1.
Proof.
  intros. unfold div_half_even.
  destruct (_ <? _); [lia|]. destruct (_ && _); lia.
Qed.

Lemma abs_sgn_mul (c q : Z) : c <> 0 -> 0 <= q -> Z.abs (Z.sgn c * q) = q.
Proof. intros Hc Hq. destruct c; cbn [Z.sgn]; lia. Qed.

Lemma sgn_mul_abs (c : Z) : Z.sgn c * Z.abs c = c.
Proof. destruct c; cbn; lia. Qed.

Lemma fix_ctx_digits (d : Decimal) :
  ndigits (Z.abs (coef (fix_ctx d))) <= ctx_prec.
Proof.
  unfold fix_ctx.
  destruct (Z.leb_spec (ndigits (Z.abs (coef d))) ctx_prec) as [Hle|Hgt];
    [exact Hle|].
  set (a := Z.abs (coef d)) in *. set (n := ndigits a) in *.
  assert (Ha : 0 < a).
  { destruct (Z.eq_dec a 0) as [E|]; [|lia].
    subst n. rewrite E in Hgt. cbv in Hgt. discriminate. }
  assert (Hc : coef d <> 0) by (unfold a in Ha; lia).
  pose proof (pow10_pos 27 ltac:(lia)) as Hp27.
  destruct (ndigits_spec a Ha) as [_ [Hlo Hhi]]. fold n in Hlo, Hhi.
  unfold ctx_prec in *.
  set (s := n - 28) in *.
  assert (Hs : 0 < s) by lia.
  pose proof (pow10_pos s ltac:(lia)) as Hps.
  assert (Hlo' : pow10 27 * pow10 s <= a).
  { rewrite <- pow10_add by lia. replace (27 + s) with (n - 1) by lia. exact Hlo. }
  assert (Hhi' : a < pow10 28 * pow10 s).
  { rewrite <- pow10_add by lia. replace (28 + s) with n by lia. exact Hhi. }
  assert (Hq0 : pow10 27 <= a / pow10 s < pow10 28).
  { split.
    - apply Z.div_le_lower_bound; lia.
    - apply Z.div_lt_upper_bound; lia. }
  pose proof (div_half_even_bounds a s ltac:(lia) ltac:(lia)) as Hq.
  set (q := div_half_even a s) in *.
  destruct (Z.eqb_spec q (pow10 28)) as [E|NE]; cbn [coef].
  - replace (Z.abs (Z.sgn (coef d) * pow10 (28 - 1))) with (pow10 27)
      by (symmetry; apply abs_sgn_mul; [lia|vm_compute; discriminate]).
    vm_compute. discriminate.
  - replace (Z.abs (Z.sgn (coef d) * q)) with q
      by (symmetry; apply abs_sgn_mul; lia).
    enough (ndigits q = 28) by lia.
    apply ndigits_unique; [lia|]. change (28 - 1) with 27. lia.
Qed.

Lemma dadd_zero_pad (y : Decimal) (e0 : Z) :
  ndigits (Z.abs (coef y)) <= ctx_prec -> coef y <> 0 ->
  exists j, 0 <= j /\ dadd y (mkDec 0 e0) = pad y j.
Proof.
  intros Hd Hc. unfold dadd, dadd_exact. cbn [coef expo].
  destruct (Z.le_ge_cases (expo y) e0) as [Hle|Hge].
  - exists 0. split; [lia|].
    rewrite Z.min_l by lia. rewrite Z.sub_diag.
    change (pow10 0) with 1.
    replace (coef y * 1 + 0 * pow10 (e0 - expo y)) with (coef y) by lia.
    unfold fix_ctx. cbn [coef expo].
    destruct (Z.leb_spec (ndigits (Z.abs (coef y))) ctx_prec); [|lia].
    unfold pad. change (pow10 0) with 1.
    destruct y as [c e]; cbn [coef expo]. f_equal; lia.
  - rewrite Z.min_r by lia. rewrite Z.sub_diag. change (pow10 0) with 1.
    set (k := expo y - e0). assert (Hk : 0 <= k) by lia.
    replace (coef y * pow10 k + 0 * 1) with (coef y * pow10 k) by lia.
    set (a := Z.abs (coef y)). assert (Ha : 0 < a) by lia.
    pose proof (pow10_pos k Hk) as Hpk.
    assert (Habs : Z.abs (coef y * pow10 k) = a * pow10 k).
    { rewrite Z.abs_mul. f_equal. lia. }
    unfold fix_ctx. cbn [coef expo]. rewrite Habs, (ndigits_pad a k Ha Hk).
    destruct (Z.leb_spec (ndigits a + k) ctx_prec) as [Hfit|Hover].
    + exists k. split; [lia|]. unfold pad. f_equal. lia.
    + set (s := ndigits a + k - ctx_prec). fold a in Hd.
      assert (Hs : 0 < s <= k) by lia.
      pose proof (pow10_pos s ltac:(lia)) as Hps.
      assert (Hsplit : a * pow10 k = (a * pow10 (k - s)) * pow10 s).
      { rewrite <- Z.mul_assoc, <- pow10_add by lia. do 2 f_equal. lia. }
      assert (Hq : div_half_even (a * pow10 k) s = a * pow10 (k - s)).
      { unfold div_half_even. rewrite Hsplit.
        rewrite Z.div_mul by lia. rewrite Z.mod_mul by lia.
        destruct (Z.ltb_spec (pow10 s) (2 * 0)); [lia|].
        destruct (Z.eqb_spec (pow10 s) (2 * 0)); [lia|]. reflexivity. }
      rewrite Hq.
      assert (Hnd : ndigits (a * pow10 (k - s)) = ctx_prec).
      { rewrite ndigits_pad by lia. lia. }
      destruct (Z.eqb_spec (a * pow10 (k - s)) (pow10 ctx_prec)) as [E|NE].
      * exfalso. rewrite E in Hnd. vm_compute in Hnd. discriminate.
      * exists (k - s). split; [lia|]. unfold pad. f_equal; [|lia].
        rewrite Z.sgn_mul, (Z.sgn_pos (pow10 k)), Z.mul_1_r by lia.
        rewrite Z.mul_assoc. f_equal. apply sgn_mul_abs.
Qed.

Lemma div_half_up_exact (a t : Z) :
  0 <= t -> div_half_up (a * pow10 t) t = a.
Proof.
  intros Ht. pose proof (pow10_pos t Ht). unfold div_half_up.
  rewrite Z.div_mul, Z.mod_mul by lia.
  destruct (Z.leb_spec (pow10 t) (2 * 0)); lia.
Qed.

Lemma div_half_up_pad (a s j : Z) :
  0 <= s -> 0 <= j -> div_half_up (a * pow10 j) (s + j) = div_half_up a s.
Proof.
  intros Hs Hj. pose proof (pow10_pos s Hs). pose proof (pow10_pos j Hj).
  unfold div_half_up. rewrite pow10_add by lia.
  rewrite Z.div_mul_cancel_r, Z.mul_mod_distr_r by lia.
  destruct (Z.leb_spec (pow10 s * pow10 j) (2 * (a mod pow10 s * pow10 j)));
    destruct (Z.leb_spec (pow10 s) (2 * (a mod pow10 s))); try reflexivity; nia.
Qed.

Lemma quantize_pad (y : Decimal) (j : Z) :
  0 <= j -> coef y <> 0 -> quantize (pad y j) = quantize y.
Proof.
  intros Hj Hc. destruct y as [c e]. cbn [coef] in Hc.
  pose proof (pow10_pos j Hj) as Hpj.
  unfold quantize, pad, is_zero. cbn [coef expo].
  destruct (Z.eqb_spec (c * pow10 j) 0) as [E|_]; [nia|].
  destruct (Z.eqb_spec c 0) as [E|_]; [contradiction|].
  rewrite Z.abs_mul, (Z.abs_eq (pow10 j)) by lia.
  rewrite ndigits_pad by lia.
  replace (e - j + (ndigits (Z.abs c) + j) - 1 - -2 + 1)
    with (e + ndigits (Z.abs c) - 1 - -2 + 1) by lia.
  destruct (ctx_prec <? _); [reflexivity|].
  rewrite Z.sgn_mul, (Z.sgn_pos (pow10 j)), Z.mul_1_r by lia.
  assert (HC : (if -2 <=? e - j
                then Z.abs c * pow10 j * pow10 (e - j + 2)
                else div_half_up (Z.abs c * pow10 j) (-2 - (e - j)))
               = (if -2 <=? e then Z.abs c * pow10 (e + 2)
                  else div_half_up (Z.abs c) (-2 - e))).
  { destruct (Z.leb_spec (-2) (e - j)) as [H1|H1].
    - destruct (Z.leb_spec (-2) e) as [H2|H2]; [|lia].
      rewrite <- Z.mul_assoc, <- pow10_add by lia. do 2 f_equal. lia.
    - destruct (Z.leb_spec (-2) e) as [H2|H2].
      + replace (Z.abs c * pow10 j)
          with (Z.abs c * pow10 (e + 2) * pow10 (-2 - (e - j))).
        * apply div_half_up_exact. lia.
        * rewrite <- Z.mul_assoc, <- pow10_add by lia. do 2 f_equal. lia.
      + replace (-2 - (e - j)) with ((-2 - e) + j) by lia.
        apply div_half_up_pad; lia. }
  rewrite HC. reflexivity.
Qed.

Lemma quantize_dadd_zero (y : Decimal) (e0 : Z) :
  ndigits (Z.abs (coef y)) <= ctx_prec ->
  quantize (dadd y (mkDec 0 e0)) = quantize y.
Proof.
  intros Hd. destruct (Z.eq_dec (coef y) 0) as [Hz|Hnz].
  - unfold dadd, dadd_exact. cbn [coef expo]. rewrite Hz.
    rewrite !Z.mul_0_l. cbn [Z.add].
    unfold fix_ctx, quantize, is_zero. cbn [coef expo]. rewrite Hz. reflexivity.
  - destruct (dadd_zero_pad y e0 Hd Hnz) as (j & Hj & ->).
    apply quantize_pad; assumption.
Qed.

Lemma dmul_zero (e : Z) (d : Decimal) :
  dmul (mkDec 0 e) d = mkDec 0 (e + expo d).
Proof. reflexivity. Qed.

Lemma quantize_zero (e : Z) : quantize (mkDec 0 e) = Returned (mkDec 0 (-2)).
Proof. reflexivity. Qed.

(** ** The structure of [calculate_total_cost] *)

Lemma cost_locals_inv `{StrOps} (fetch : str -> str -> result Decimal)
    (calc calc' : CostCalculator) (p : ProductResult) (c : ShopConfig)
    (l : CostLocals) :
  cost_locals fetch calc p c = Returned (l, calc') ->
  l_shipping l = calculate_shipping (price p) c /\
  calculate_customs (l_price_eur l) (l_shipping_eur l) (region c) (category p)
    = Returned (l_customs_eur l, l_vat_eur l) /\
  (p_currency p = lit "EUR" ->
     l_price_eur l = price p /\ l_shipping_eur l = l_shipping l /\
     l_customs l = l_customs_eur l /\ l_vat l = l_vat_eur l) /\
  (p_currency p <> lit "EUR" ->
     exists eur_rate eur_to_orig,
       l_price_eur l = dmul (price p) eur_rate /\
       l_shipping_eur l = dmul (l_shipping l) eur_rate /\
       l_customs l = dmul (l_customs_eur l) eur_to_orig /\
       l_vat l = dmul (l_vat_eur l) eur_to_orig) /\
  l_total l = dadd (dadd (dadd (price p) (l_shipping l)) (l_customs l)) (l_vat l) /\
  convert_to_sek (l_total l) (p_currency p) (l_rate l) = Returned (l_total_sek l).
Proof.
  unfold cost_locals. intros Hc.
  apply bind_returned in Hc as ([rate s1] & H1 & Hc). cbv beta iota in Hc.
  apply bind_returned in Hc as ([[pe se] s2] & H2 & Hc). cbv beta iota in Hc.
  apply bind_returned in Hc as ([ce ve] & H3 & Hc). cbv beta iota in Hc.
  apply bind_returned in Hc as ([[cu va] s3] & H4 & Hc). cbv beta iota in Hc.
  apply bind_returned in Hc as (ts & H5 & Hc).
  injection Hc as <- <-. cbn [l_rate l_shipping l_price_eur l_shipping_eur
    l_customs_eur l_vat_eur l_customs l_vat l_total l_total_sek].
  split; [reflexivity|]. split; [exact H3|].
  destruct (bool_decide_reflect (p_currency p = lit "EUR")) as [Heur|Hne].
  - injection H2 as <- <- <-. injection H4 as <- <- <-.
    split; [intros _; repeat split|]. split; [intros Hn; contradiction|].
    split; [reflexivity|exact H5].
  - apply bind_returned in H2 as ([eur_rate s2'] & _ & H2). cbv beta iota in H2.
    injection H2 as <- <- <-.
    apply bind_returned in H4 as ([sek_to_eur s3'] & _ & H4). cbv beta iota in H4.
    apply bind_returned in H4 as ([eur_to_orig s3''] & _ & H4). cbv beta iota in H4.
    injection H4 as <- <- <-.
    split; [intros Heur; contradiction|].
    split; [intros _; exists eur_rate, eur_to_orig; repeat split|].
    split; [reflexivity|exact H5].
Qed.

Lemma bind_Returned {A B} (a : A) (k : A -> result B) : (Returned a ≫= k) = k a.
Proof. reflexivity. Qed.

Lemma bind_Raised {A B} (k : A -> result B) : (Raised ≫= k) = Raised.
Proof. reflexivity. Qed.


Lemma calculate_total_cost_inv `{StrOps} (fetch : str -> str -> result Decimal)
    (calc calc' : CostCalculator) (p p' : ProductResult) (c : ShopConfig) :
  calculate_total_cost fetch calc p c = Returned (p', calc') ->
  exists l sh cu va to,
    cost_locals fetch calc p c = Returned (l, calc') /\
    quantize (l_shipping l) = Returned sh /\
    quantize (l_customs l) = Returned cu /\
    quantize (l_vat l) = Returned va /\
    quantize (l_total l) = Returned to /\
    p' = with_costs p sh cu va to (l_total_sek l).
Proof.
  unfold calculate_total_cost. intros Hc.
  apply bind_returned in Hc as ([l s] & Hl & Hc). cbv beta iota in Hc.
  apply bind_returned in Hc as (sh & Hsh & Hc).
  apply bind_returned in Hc as (cu & Hcu & Hc).
  apply bind_returned in Hc as (va & Hva & Hc).
  apply bind_returned in Hc as (to & Hto & Hc).
  injection Hc as <- <-.
  exists l, sh, cu, va, to. repeat (split; [assumption|]). reflexivity.
Qed.

(** ** Shops of the home region and of the customs union (C6) *)

Lemma three_decimals_run :
  calculate_total_cost (H:=ascii_ops) no_provider offline_calculator
    three_decimals_item swedish_shop
  = Returned (three_decimals_costed, offline_calculator).
Proof. vm_compute. reflexivity. Qed.

Lemma three_decimals_total :
  total_cost three_decimals_costed = Some (mkDec 10001 (-2)) /\
  dcompare (mkDec 10001 (-2))
    (dadd (price three_decimals_item)
          (calculate_shipping (price three_decimals_item) swedish_shop)) = Gt.
Proof. split; vm_compute; reflexivity. Qed.

(** C6, as stated, makes the total the exact sum of price and shipping; the
    code rounds it half-up to two decimals.  A Swedish item priced 100.005
    with free shipping has a total of 100.01. *)
Lemma C6_unrounded_total_counterexample :
  ~ (forall (calc calc' : CostCalculator) (p p' : ProductResult)
            (c : ShopConfig) (total : Decimal),
       region c = SE \/ region c = EU ->
       calculate_total_cost (H:=ascii_ops) no_provider calc p c
         = Returned (p', calc') ->
       total_cost p' = Some total ->
       dcompare total (dadd (price p) (calculate_shipping (price p) c)) = Eq).
Proof.
  intros Hclaim.
  pose proof (Hclaim offline_calculator offline_calculator three_decimals_item
                three_decimals_costed swedish_shop (mkDec 10001 (-2))
                (or_introl eq_refl) three_decimals_run
                (proj1 three_decimals_total)) as Habsurd.
  rewrite (proj2 three_decimals_total) in Habsurd. discriminate Habsurd.
Qed.

(** C6 (amended): for a shop of the home region or of the customs union,
    whatever the price and the shipping policy, customs duty and import VAT
    are both exactly 0, and the total landed cost in the native currency is
    price + shipping rounded half-up to two decimals. *)
Theorem C6_home_or_union_costs (ops : StrOps)
    (fetch : str -> str -> result Decimal) (calc calc' : CostCalculator)
    (p p' : ProductResult) (c : ShopConfig) :
  region c = SE \/ region c = EU ->
  (forall price_eur shipping_eur category,
     calculate_customs price_eur shipping_eur (region c) category
     = Returned (mkDec 0 0, mkDec 0 0)) /\
  (calculate_total_cost fetch calc p c = Returned (p', calc') ->
     customs_cost p' = Some (mkDec 0 (-2)) /\
     vat_cost p' = Some (mkDec 0 (-2)) /\
     Returned <$> total_cost p'
       = Some (quantize (dadd (price p) (calculate_shipping (price p) c))) /\
     Returned <$> shipping_cost p'
       = Some (quantize (calculate_shipping (price p) c))).
Proof.
  intros Hreg.
  assert (Hcustoms : forall price_eur shipping_eur category,
            calculate_customs price_eur shipping_eur (region c) category
            = Returned (mkDec 0 0, mkDec 0 0)).
  { intros. destruct Hreg as [-> | ->]; reflexivity. }
  split; [exact Hcustoms|].
  intros Hrun.
  apply calculate_total_cost_inv in Hrun
    as (l & sh & cu & va & to & Hl & Hsh & Hcu & Hva & Hto & ->).
  apply cost_locals_inv in Hl
    as (Hship & Hc & Heur & Hother & Htotal & _).
  rewrite Hcustoms in Hc. injection Hc as Hce Hve.
  assert (Hzero : exists e1 e2, l_customs l = mkDec 0 e1 /\ l_vat l = mkDec 0 e2).
  { destruct (decide (p_currency p = lit "EUR")) as [E|NE].
    - destruct (Heur E) as (_ & _ & -> & ->). rewrite <- Hce, <- Hve. eauto.
    - destruct (Hother NE) as (r1 & r2 & _ & _ & -> & ->).
      rewrite <- Hce, <- Hve, !dmul_zero. eauto. }
  destruct Hzero as (e1 & e2 & Hz1 & Hz2).
  rewrite Hz1 in Hcu. rewrite Hz2 in Hva.
  rewrite quantize_zero in Hcu, Hva.
  injection Hcu as <-. injection Hva as <-.
  rewrite Htotal, Hz1, Hz2 in Hto.
  rewrite !quantize_dadd_zero in Hto by apply fix_ctx_digits.
  cbn [with_costs customs_cost vat_cost total_cost shipping_cost fmap option_fmap
       option_map].
  rewrite <- Hship, Hto, Hsh. repeat split; reflexivity.
Qed.

Lemma C6_home_or_union_costs_witness :
  customs_cost three_decimals_costed = Some (mkDec 0 (-2)) /\
  vat_cost three_decimals_costed = Some (mkDec 0 (-2)) /\
  Returned <$> total_cost three_decimals_costed
    = Some (quantize (dadd (price three_decimals_item)
              (calculate_shipping (price three_decimals_item) swedish_shop))) /\
  Returned <$> shipping_cost three_decimals_costed
    = Some (quantize (calculate_shipping (price three_decimals_item)
                        swedish_shop)).
Proof.
  exact (proj2 (C6_home_or_union_costs ascii_ops no_provider
                  offline_calculator offline_calculator
                  three_decimals_item three_decimals_costed swedish_shop
                  (or_introl eq_refl)) three_decimals_run).
Defined.

(** ** Where the calculator rounds (C5) *)








(** ** Reproducibility of the calculator (C9) *)

Lemma cost_locals_ext `{StrOps} (fetch : str -> str -> result Decimal)
    (calc : CostCalculator) (p1 p2 : ProductResult) (c1 c2 : ShopConfig) :
  price p1 = price p2 -> p_currency p1 = p_currency p2 ->
  category p1 = category p2 ->
  ships_to_sweden c1 = ships_to_sweden c2 ->
  free_shipping_threshold c1 = free_shipping_threshold c2 ->
  base_shipping_cost c1 = base_shipping_cost c2 ->
  region c1 = region c2 ->
  cost_locals fetch calc p1 c1 = cost_locals fetch calc p2 c2.
Proof.
  intros Hp Hcur Hcat Hs Ht Hb Hr.
  unfold cost_locals, calculate_shipping, base_cost_or_zero.
  rewrite Hp, Hcur, Hcat, Hs, Ht, Hb, Hr. reflexivity.
Qed.

Lemma cost_outputs_run `{StrOps} (fetch : str -> str -> result Decimal)
    (calc : CostCalculator) (p : ProductResult) (c : ShopConfig) :
  cost_outputs (calculate_total_cost fetch calc p c)
  = ('(l, calc') ← cost_locals fetch calc p c;
     sh ← quantize (l_shipping l);
     cu ← quantize (l_customs l);
     va ← quantize (l_vat l);
     to ← quantize (l_total l);
     Returned (Some sh, Some cu, Some va, Some to, Some (l_total_sek l), calc')).
Proof.
  unfold calculate_total_cost.
  destruct (cost_locals fetch calc p c) as [[l s]|];
    [rewrite !bind_Returned|reflexivity].
  destruct (quantize (l_shipping l));
    [rewrite !bind_Returned|reflexivity].
  destruct (quantize (l_customs l));
    [rewrite !bind_Returned|reflexivity].
  destruct (quantize (l_vat l));
    [rewrite !bind_Returned|reflexivity].
  destruct (quantize (l_total l));
    [rewrite !bind_Returned|reflexivity].
  reflexivity.
Qed.

Lemma get_exchange_rate_offline (fetch : str -> str -> result Decimal)
    (self self' : CostCalculator) (from_currency to_currency : str)
    (rate : Decimal) :
  str_truthy (api_key self) = false ->
  get_exchange_rate fetch self from_currency to_currency
    = Returned (rate, self') ->
  self' = self.
Proof.
  intros Hkey. unfold get_exchange_rate. rewrite Hkey.
  destruct (bool_decide _); [intros [= _ <-]; reflexivity|].
  destruct (_ !! _); [intros [= _ <-]; reflexivity|].
  destruct (bool_decide _).
  - destruct (_ !! _); intros [= _ <-]; reflexivity.
  - intros (r & _ & [= _ <-])%bind_returned. reflexivity.
Qed.

Lemma cost_locals_offline `{StrOps} (fetch : str -> str -> result Decimal)
    (calc calc' : CostCalculator) (p : ProductResult) (c : ShopConfig)
    (l : CostLocals) :
  str_truthy (api_key calc) = false ->
  cost_locals fetch calc p c = Returned (l, calc') -> calc' = calc.
Proof.
  intros Hkey. unfold cost_locals. intros Hc.
  apply bind_returned in Hc as ([rate s1] & H1 & Hc). cbv beta iota in Hc.
  apply get_exchange_rate_offline in H1 as ->; [|exact Hkey].
  apply bind_returned in Hc as ([[pe se] s2] & H2 & Hc). cbv beta iota in Hc.
  apply bind_returned in Hc as ([ce ve] & _ & Hc). cbv beta iota in Hc.
  apply bind_returned in Hc as ([[cu va] s3] & H4 & Hc). cbv beta iota in Hc.
  apply bind_returned in Hc as (ts & _ & Hc).
  injection Hc as _ <-.
  destruct (bool_decide (p_currency p = lit "EUR")).
  - injection H2 as _ _ <-. injection H4 as _ _ <-. reflexivity.
  - apply bind_returned in H2 as ([r2 s2'] & H2 & E2). cbv beta iota in E2.
    injection E2 as _ _ <-.
    apply get_exchange_rate_offline in H2 as ->; [|exact Hkey].
    apply bind_returned in H4 as ([r3 s3'] & H3 & H4). cbv beta iota in H4.
    apply get_exchange_rate_offline in H3 as ->; [|exact Hkey].
    apply bind_returned in H4 as ([r4 s4'] & H4 & E4). cbv beta iota in E4.
    injection E4 as _ _ <-.
    apply get_exchange_rate_offline in H4 as ->; [|exact Hkey].
    reflexivity.
Qed.

Lemma dollar_answers :
  monetary_outputs
    (calculate_total_cost (H:=ascii_ops) dollar_provider keyed_calculator
       usd_jacket (non_eu_shop (lit "USD")))
  = Returned (Some (mkDec 2000 (-2)), Some (mkDec 0 (-2)),
              Some (mkDec 3008 (-2)), Some (mkDec 15008 (-2)),
              Some (mkDec 161340 (-2))) /\
  monetary_outputs
    (calculate_total_cost (H:=ascii_ops) no_provider keyed_calculator
       usd_jacket (non_eu_shop (lit "USD")))
  = Returned (Some (mkDec 2000 (-2)), Some (mkDec 0 (-2)),
              Some (mkDec 3000 (-2)), Some (mkDec 15000 (-2)),
              Some (mkDec 157499 (-2))).
Proof. split; vm_compute; reflexivity. Qed.

(** C9, as stated, makes the monetary outputs a function of the product, the
    shop configuration and the rate table.  With a credential the calculator
    asks the rate provider and falls back on its table when the provider
    fails: for the same jacket, shop and calculator the total in SEK is
    1613.40 when the provider answers and 1574.99 when it is down. *)
Lemma C9_provider_answers_counterexample :
  ~ (forall (fetch fetch' : str -> str -> result Decimal)
            (calc : CostCalculator) (p : ProductResult) (c : ShopConfig),
       monetary_outputs (calculate_total_cost (H:=ascii_ops) fetch calc p c)
       = monetary_outputs (calculate_total_cost (H:=ascii_ops) fetch' calc p c)).
Proof.
  intros Hclaim.
  pose proof (Hclaim dollar_provider no_provider keyed_calculator usd_jacket
                (non_eu_shop (lit "USD"))) as Habsurd.
  rewrite (proj1 dollar_answers), (proj2 dollar_answers) in Habsurd.
  discriminate Habsurd.
Qed.

(** *** One lookup of a rate *)

(** A lookup leaves the calculator as it is, or memoises the answer of the
    provider. *)
Lemma get_exchange_rate_state (fetch : str -> str -> result Decimal)
    (s s' : CostCalculator) (a b : str) (r : Decimal) :
  get_exchange_rate fetch s a b = Returned (r, s') ->
  s' = s \/
  (a <> b /\ _cached_rates s !! (a ++ lit "_" ++ b) = None /\
   str_truthy (api_key s) = true /\ fetch a b = Returned r /\
   s' = {| api_key := api_key s;
           _cached_rates := <[a ++ lit "_" ++ b := r]> (_cached_rates s) |}).
Proof.
  unfold get_exchange_rate.
  destruct (bool_decide_reflect (a = b)) as [E|NE];
    [intros [= _ <-]; left; reflexivity|].
  cbv zeta.
  destruct (_cached_rates s !! (a ++ lit "_" ++ b)) as [cached|] eqn:Hc;
    [intros [= _ <-]; left; reflexivity|].
  destruct (str_truthy (api_key s)) eqn:Hkey.
  - destruct (fetch a b) as [quote|] eqn:Hf.
    + intros [= <- <-]. right. repeat split; assumption.
    + destruct (bool_decide (b = lit "SEK")).
      * destruct (DEFAULT_EXCHANGE_RATES !! a); intros [= _ <-]; left;
          reflexivity.
      * intros (q & _ & [= _ <-])%bind_returned. left. reflexivity.
  - destruct (bool_decide (b = lit "SEK")).
    + destruct (DEFAULT_EXCHANGE_RATES !! a); intros [= _ <-]; left;
        reflexivity.
    + intros (q & _ & [= _ <-])%bind_returned. left. reflexivity.
Qed.

Lemma get_exchange_rate_credential (fetch : str -> str -> result Decimal)
    (s s' : CostCalculator) (a b : str) (r : Decimal) :
  get_exchange_rate fetch s a b = Returned (r, s') -> api_key s' = api_key s.
Proof.
  intros [->|(_ & _ & _ & _ & ->)]%get_exchange_rate_state; reflexivity.
Qed.

(** Only the answer to the question asked matters, and only with a
    credential. *)
Lemma get_exchange_rate_same_quote (fetch fetch' : str -> str -> result Decimal)
    (s : CostCalculator) (a b : str) :
  (str_truthy (api_key s) = true -> fetch a b = fetch' a b) ->
  get_exchange_rate fetch s a b = get_exchange_rate fetch' s a b.
Proof.
  intros Hq. unfold get_exchange_rate.
  destruct (str_truthy (api_key s)); [|reflexivity].
  rewrite (Hq eq_refl). reflexivity.
Qed.

(** A rate that was looked up is looked up again without a change. *)
Lemma get_exchange_rate_settled (fetch : str -> str -> result Decimal)
    (s s' : CostCalculator) (a b : str) (r : Decimal) :
  get_exchange_rate fetch s a b = Returned (r, s') ->
  get_exchange_rate fetch s' a b = Returned (r, s').
Proof.
  intros Hrun.
  destruct (get_exchange_rate_state _ _ _ _ _ _ Hrun)
    as [->|(NE & _ & _ & _ & ->)]; [exact Hrun|].
  unfold get_exchange_rate.
  rewrite bool_decide_eq_false_2 by exact NE.
  cbv zeta. cbn [_cached_rates]. rewrite lookup_insert_eq. reflexivity.
Qed.

(** Two pairs of codes without underscore that give the same key of the
    memo are the same pair. *)
Lemma cache_key_inj (a b x y : str) :
  no_underscore a -> no_underscore x ->
  a ++ lit "_" ++ b = x ++ lit "_" ++ y -> a = x /\ b = y.
Proof.
  unfold no_underscore. revert x.
  induction a as [|ch a IH]; intros [|ch' x] Ha Hx; cbn.
  - intros [= ->]. split; reflexivity.
  - intros [= <- _]. exfalso. apply Hx. left. reflexivity.
  - intros [= -> _]. exfalso. apply Ha. left. reflexivity.
  - intros [= -> Hk].
    destruct (IH x) as [-> ->]; [| |exact Hk|split; reflexivity].
    + intros Hin. apply Ha. right. exact Hin.
    + intros Hin. apply Hx. right. exact Hin.
Qed.

Lemma memo_insert_changes (s : CostCalculator) (key : str) (r : Decimal) :
  _cached_rates s !! key = None ->
  {| api_key := api_key s; _cached_rates := <[key := r]> (_cached_rates s) |}
  <> s.
Proof.
  intros Hnone Heq.
  assert (Hl : _cached_rates
                 {| api_key := api_key s;
                    _cached_rates := <[key := r]> (_cached_rates s) |} !! key
               = Some r) by (cbn; apply lookup_insert_eq).
  rewrite Heq in Hl.
  pose proof (eq_trans (eq_sym Hnone) Hl) as Habsurd. discriminate Habsurd.
Qed.

(** A rate that is looked up without a change is still looked up without a
    change after a lookup of another rate. *)
Lemma get_exchange_rate_keeps (fetch : str -> str -> result Decimal)
    (s s' : CostCalculator) (a b x y : str) (r r' : Decimal) :
  (x ++ lit "_" ++ y = a ++ lit "_" ++ b -> x = a /\ y = b) ->
  get_exchange_rate fetch s a b = Returned (r, s) ->
  get_exchange_rate fetch s x y = Returned (r', s') ->
  get_exchange_rate fetch s' a b = Returned (r, s').
Proof.
  intros Hinj Hab Hxy.
  destruct (get_exchange_rate_state _ _ _ _ _ _ Hxy)
    as [->|(NE & Hnone & Hkey & Hf & ->)]; [exact Hab|].
  destruct (decide (x ++ lit "_" ++ y = a ++ lit "_" ++ b)) as [Ek|Nk].
  - destruct (Hinj Ek) as [-> ->].
    rewrite Hxy in Hab. injection Hab as _ Hs.
    exfalso. exact (memo_insert_changes s _ r' Hnone Hs).
  - revert Hab. unfold get_exchange_rate.
    destruct (bool_decide (a = b)); [intros [= <-]; reflexivity|].
    cbv zeta. cbn [_cached_rates api_key].
    rewrite (lookup_insert_ne (_cached_rates s) _ _ r' Nk).
    destruct (_cached_rates s !! (a ++ lit "_" ++ b)) as [cached|] eqn:Hc;
      [intros [= <-]; reflexivity|].
    destruct (if str_truthy (api_key s) then fetch a b else Raised)
      as [quote|].
    + intros [= _ Hs]. exfalso.
      exact (memo_insert_changes s _ quote Hc Hs).
    + destruct (bool_decide (b = lit "SEK")).
      * destruct (DEFAULT_EXCHANGE_RATES !! a); intros [= <-]; reflexivity.
      * intros (q & Hq & [= <-])%bind_returned. rewrite Hq. reflexivity.
Qed.

(** *** The lookups of one computation *)

(** With a credential, the computation depends on the provider only
    through its answers to the four questions asked; without one, not at
    all. *)
Lemma cost_locals_same_quotes `{StrOps}
    (fetch fetch' : str -> str -> result Decimal) (calc : CostCalculator)
    (p : ProductResult) (c : ShopConfig) :
  (str_truthy (api_key calc) = true -> same_quotes fetch fetch' (p_currency p)) ->
  cost_locals fetch calc p c = cost_locals fetch' calc p c.
Proof.
  intros Hq.
  assert (Hq' : forall s, api_key s = api_key calc ->
            str_truthy (api_key s) = true ->
            same_quotes fetch fetch' (p_currency p)).
  { intros s -> Hk. exact (Hq Hk). }
  clear Hq. unfold cost_locals.
  rewrite (get_exchange_rate_same_quote fetch fetch' calc (p_currency p)
             (lit "SEK")) by (intros Hk; exact (proj1 (Hq' calc eq_refl Hk))).
  destruct (get_exchange_rate fetch' calc (p_currency p) (lit "SEK"))
    as [[rate s1]|] eqn:E1; [|reflexivity].
  apply get_exchange_rate_credential in E1.
  rewrite !bind_Returned. cbv beta iota.
  destruct (bool_decide (p_currency p = lit "EUR")); [reflexivity|].
  rewrite (get_exchange_rate_same_quote fetch fetch' s1 (p_currency p)
             (lit "EUR"))
    by (intros Hk; exact (proj1 (proj2 (Hq' s1 E1 Hk)))).
  destruct (get_exchange_rate fetch' s1 (p_currency p) (lit "EUR"))
    as [[eur_rate s2]|] eqn:E2; [|reflexivity].
  apply get_exchange_rate_credential in E2. rewrite E1 in E2.
  rewrite !bind_Returned. cbv beta iota.
  destruct (calculate_customs _ _ _ _) as [[customs_eur vat_eur]|];
    [|reflexivity].
  rewrite !bind_Returned. cbv beta iota.
  rewrite (get_exchange_rate_same_quote fetch fetch' s2 (lit "SEK")
             (lit "EUR"))
    by (intros Hk; exact (proj1 (proj2 (proj2 (Hq' s2 E2 Hk))))).
  destruct (get_exchange_rate fetch' s2 (lit "SEK") (lit "EUR"))
    as [[sek_to_eur s3]|] eqn:E3; [|reflexivity].
  apply get_exchange_rate_credential in E3. rewrite E2 in E3.
  rewrite !bind_Returned. cbv beta iota.
  rewrite (get_exchange_rate_same_quote fetch fetch' s3 (lit "EUR")
             (p_currency p))
    by (intros Hk; exact (proj2 (proj2 (proj2 (Hq' s3 E3 Hk))))).
  reflexivity.
Qed.

(** The lookups behind a computation that returned. *)
Lemma cost_locals_lookups `{StrOps} (fetch : str -> str -> result Decimal)
    (calc calc' : CostCalculator) (p : ProductResult) (c : ShopConfig)
    (l : CostLocals) :
  cost_locals fetch calc p c = Returned (l, calc') ->
  exists r1 s1,
    get_exchange_rate fetch calc (p_currency p) (lit "SEK")
    = Returned (r1, s1) /\
    ((p_currency p = lit "EUR" /\ calc' = s1) \/
     (p_currency p <> lit "EUR" /\
      exists r2 s2 r3 s3 r4,
        get_exchange_rate fetch s1 (p_currency p) (lit "EUR")
        = Returned (r2, s2) /\
        get_exchange_rate fetch s2 (lit "SEK") (lit "EUR")
        = Returned (r3, s3) /\
        get_exchange_rate fetch s3 (lit "EUR") (p_currency p)
        = Returned (r4, calc'))).
Proof.
  unfold cost_locals. intros Hc.
  apply bind_returned in Hc as ([rate s1] & H1 & Hc). cbv beta iota in Hc.
  apply bind_returned in Hc as ([[pe se] s2] & H2 & Hc). cbv beta iota in Hc.
  apply bind_returned in Hc as ([ce ve] & H3 & Hc). cbv beta iota in Hc.
  apply bind_returned in Hc as ([[cu va] s3] & H4 & Hc). cbv beta iota in Hc.
  apply bind_returned in Hc as (ts & H5 & Hc).
  injection Hc as _ <-.
  exists rate, s1. split; [exact H1|].
  destruct (bool_decide_reflect (p_currency p = lit "EUR")) as [Heur|Hne].
  - left. injection H2 as _ _ <-. injection H4 as _ _ <-.
    split; [exact Heur|reflexivity].
  - right. split; [exact Hne|].
    apply bind_returned in H2 as ([r2 s2'] & H2 & E2). cbv beta iota in E2.
    injection E2 as _ _ <-.
    apply bind_returned in H4 as ([r3 s3'] & H4 & E4). cbv beta iota in E4.
    apply bind_returned in E4 as ([r4 s4'] & H4' & E4). cbv beta iota in E4.
    injection E4 as _ _ <-.
    exists r2, s2', r3, s3', r4. repeat split; assumption.
Qed.

Lemma code_without_underscore :
  no_underscore (lit "SEK") /\ no_underscore (lit "EUR").
Proof.
  split; intros Hin; cbn in Hin;
    repeat (destruct Hin as [Hin|Hin]; [discriminate Hin|]); exact Hin.
Qed.

(** A second computation from the memo that the first one leaves looks up
    the same rates and leaves the memo as it is. *)
Lemma cost_locals_again `{StrOps} (fetch : str -> str -> result Decimal)
    (calc calc' : CostCalculator) (p : ProductResult) (c : ShopConfig)
    (l : CostLocals) :
  no_underscore (p_currency p) ->
  cost_locals fetch calc p c = Returned (l, calc') ->
  cost_locals fetch calc' p c = Returned (l, calc').
Proof.
  intros Hcur Hrun.
  destruct code_without_underscore as [Hsek Heur].
  destruct (cost_locals_lookups fetch calc calc' p c l Hrun)
    as (r1 & s1 & H1 & [[E ->]|(NE & r2 & s2 & r3 & s3 & r4 & H2 & H3 & H4)]).
  - pose proof (get_exchange_rate_settled _ _ _ _ _ _ H1) as K1.
    revert Hrun. unfold cost_locals. rewrite H1, K1, !bind_Returned.
    cbv beta iota. rewrite (bool_decide_eq_true_2 _ E), !bind_Returned.
    cbv beta iota. intros Hrun. exact Hrun.
  - assert (K1 : get_exchange_rate fetch calc' (p_currency p) (lit "SEK")
                 = Returned (r1, calc')).
    { eapply get_exchange_rate_keeps; [ | |exact H4];
        [apply cache_key_inj; assumption|].
      eapply get_exchange_rate_keeps; [ | |exact H3];
        [apply cache_key_inj; assumption|].
      eapply get_exchange_rate_keeps; [ | |exact H2];
        [apply cache_key_inj; assumption|].
      exact (get_exchange_rate_settled _ _ _ _ _ _ H1). }
    assert (K2 : get_exchange_rate fetch calc' (p_currency p) (lit "EUR")
                 = Returned (r2, calc')).
    { eapply get_exchange_rate_keeps; [ | |exact H4];
        [apply cache_key_inj; assumption|].
      eapply get_exchange_rate_keeps; [ | |exact H3];
        [apply cache_key_inj; assumption|].
      exact (get_exchange_rate_settled _ _ _ _ _ _ H2). }
    assert (K3 : get_exchange_rate fetch calc' (lit "SEK") (lit "EUR")
                 = Returned (r3, calc')).
    { eapply get_exchange_rate_keeps; [ | |exact H4];
        [apply cache_key_inj; assumption|].
      exact (get_exchange_rate_settled _ _ _ _ _ _ H3). }
    pose proof (get_exchange_rate_settled _ _ _ _ _ _ H4) as K4.
    revert Hrun. unfold cost_locals.
    rewrite H1, K1, !bind_Returned. cbv beta iota.
    rewrite (bool_decide_eq_false_2 _ NE).
    rewrite H2, K2, !bind_Returned. cbv beta iota.
    destruct (calculate_customs _ _ _ _) as [[customs_eur vat_eur]|];
      [|discriminate].
    rewrite !bind_Returned. cbv beta iota.
    rewrite H3, K3, !bind_Returned. cbv beta iota.
    rewrite H4, K4, !bind_Returned. cbv beta iota.
    intros Hrun. exact Hrun.
Qed.

Lemma cost_locals_credential `{StrOps} (fetch : str -> str -> result Decimal)
    (calc calc' : CostCalculator) (p : ProductResult) (c : ShopConfig)
    (l : CostLocals) :
  cost_locals fetch calc p c = Returned (l, calc') ->
  api_key calc' = api_key calc.
Proof.
  intros Hrun.
  destruct (cost_locals_lookups fetch calc calc' p c l Hrun)
    as (r1 & s1 & H1 & [[_ ->]|(_ & r2 & s2 & r3 & s3 & r4 & H2 & H3 & H4)]).
  - exact (get_exchange_rate_credential _ _ _ _ _ _ H1).
  - rewrite (get_exchange_rate_credential _ _ _ _ _ _ H4),
      (get_exchange_rate_credential _ _ _ _ _ _ H3),
      (get_exchange_rate_credential _ _ _ _ _ _ H2).
    exact (get_exchange_rate_credential _ _ _ _ _ _ H1).
Qed.

(** C9 (amended): the monetary outputs of the cost calculator are a function
    of the product's price, currency and category, of the shop's shipping
    policy and region, of the calculator's rate table (credential and memo)
    and, when there is a credential, of the answers of the rate provider to
    the four questions asked.  Two executions that agree on these produce
    identical values for shipping_cost, customs_cost, vat_cost, total_cost
    and total_cost_sek, and leave the same memo.  Without a credential the
    memo is left as it was found.  A second execution on the product as the
    first one updated it, from the memo that the first one left and with a
    provider that answers those questions as before, reproduces the same
    values and leaves the memo unchanged (for a currency code without
    underscore, so that no two questions share a key of the memo). *)
Theorem C9_same_answers_same_costs (ops : StrOps)
    (fetch fetch' : str -> str -> result Decimal) (calc : CostCalculator)
    (p1 p2 : ProductResult) (c1 c2 : ShopConfig) :
  price p1 = price p2 -> p_currency p1 = p_currency p2 ->
  category p1 = category p2 ->
  ships_to_sweden c1 = ships_to_sweden c2 ->
  free_shipping_threshold c1 = free_shipping_threshold c2 ->
  base_shipping_cost c1 = base_shipping_cost c2 ->
  region c1 = region c2 ->
  (str_truthy (api_key calc) = true ->
   same_quotes fetch fetch' (p_currency p1)) ->
  cost_outputs (calculate_total_cost fetch calc p1 c1)
  = cost_outputs (calculate_total_cost fetch' calc p2 c2) /\
  (forall (p1' : ProductResult) (calc' : CostCalculator),
     calculate_total_cost fetch calc p1 c1 = Returned (p1', calc') ->
     (str_truthy (api_key calc) = false -> calc' = calc) /\
     (no_underscore (p_currency p1) ->
      calculate_total_cost fetch' calc' p1' c2 = Returned (p1', calc'))).
Proof.
  intros Hp Hcur Hcat Hs Ht Hb Hr Hq. split.
  { rewrite !cost_outputs_run.
    rewrite (cost_locals_same_quotes fetch fetch' calc p1 c1 Hq).
    rewrite (cost_locals_ext fetch' calc p1 p2 c1 c2 Hp Hcur Hcat Hs Ht Hb Hr).
    reflexivity. }
  intros p1' calc' Hrun.
  apply calculate_total_cost_inv in Hrun
    as (l & sh & cu & va & to & Hl & Hsh & Hcu & Hva & Hto & ->).
  split.
  { intros Hkey. exact (cost_locals_offline fetch calc calc' p1 c1 l Hkey Hl). }
  intros Hus.
  pose proof (cost_locals_again fetch calc calc' p1 c1 l Hus Hl) as Hagain.
  pose proof (cost_locals_credential fetch calc calc' p1 c1 l Hl) as Hkey.
  rewrite (cost_locals_same_quotes fetch fetch' calc' p1 c1) in Hagain
    by (rewrite Hkey; exact Hq).
  rewrite (cost_locals_ext fetch' calc'
             p1 (with_costs p1 sh cu va to (l_total_sek l)) c1 c2
             eq_refl eq_refl eq_refl Hs Ht Hb Hr) in Hagain.
  unfold calculate_total_cost.
  rewrite Hagain, bind_Returned. cbv beta iota.
  rewrite Hsh, bind_Returned, Hcu, bind_Returned, Hva, bind_Returned,
    Hto, bind_Returned.
  reflexivity.
Qed.

Lemma dollar_quotes :
  same_quotes dollar_provider dollar_pound_provider (lit "USD").
Proof. repeat split; vm_compute; reflexivity. Qed.

Lemma dollar_run :
  calculate_total_cost (H:=ascii_ops) dollar_provider keyed_calculator
    usd_jacket (non_eu_shop (lit "USD"))
  = Returned (dollar_jacket_costed, dollar_memo).
Proof. vm_compute. reflexivity. Qed.

Lemma dollar_code : no_underscore (lit "USD").
Proof.
  intros Hin. cbn in Hin.
  repeat (destruct Hin as [Hin|Hin]; [discriminate Hin|]). exact Hin.
Qed.

Lemma C9_same_answers_same_costs_witness :
  cost_outputs (calculate_total_cost (H:=ascii_ops) dollar_provider
                  keyed_calculator usd_jacket (non_eu_shop (lit "USD")))
  = cost_outputs (calculate_total_cost (H:=ascii_ops) dollar_pound_provider
                    keyed_calculator renamed_jacket renamed_shop) /\
  calculate_total_cost (H:=ascii_ops) dollar_pound_provider dollar_memo
    dollar_jacket_costed renamed_shop
  = Returned (dollar_jacket_costed, dollar_memo).
Proof.
  pose proof (C9_same_answers_same_costs ascii_ops dollar_provider
                dollar_pound_provider keyed_calculator usd_jacket
                renamed_jacket (non_eu_shop (lit "USD")) renamed_shop
                eq_refl eq_refl eq_refl eq_refl eq_refl eq_refl eq_refl
                (fun _ => dollar_quotes)) as [Hsame Hagain].
  split; [exact Hsame|].
  exact (proj2 (Hagain dollar_jacket_costed dollar_memo dollar_run)
           dollar_code).
Defined.

(** ** Binary64 arithmetic: sign and ordering *)

Lemma shr_1_m (mrs : shr_record) :
  0 <= shr_m mrs -> shr_m (shr_1 mrs) = shr_m mrs / 2.
Proof.
  destruct mrs as [m r s]. cbn [shr_m]. intros Hm. unfold shr_1.
  destruct m as [|[p|p|]|p]; cbn [shr_m]; try lia; try reflexivity.
  - apply (Z.div_unique _ 2 _ 1); lia.
  - apply (Z.div_unique _ 2 _ 0); lia.
Qed.

Lemma pow2_xO (p : positive) : 2 ^ Zpos p~0 = 2 ^ Zpos p * 2 ^ Zpos p.
Proof. rewrite <- Z.pow_add_r by lia. f_equal. lia. Qed.

Lemma pow2_xI (p : positive) : 2 ^ Zpos p~1 = 2 * (2 ^ Zpos p * 2 ^ Zpos p).
Proof.
  rewrite <- Z.pow_add_r, <- Z.pow_succ_r by lia. f_equal. lia.
Qed.

Lemma shr_iter (p : positive) : forall mrs,
  0 <= shr_m mrs ->
  shr_m (SpecFloat.iter_pos shr_1 p mrs) = shr_m mrs / 2 ^ Zpos p.
Proof.
  induction p as [p IH|p IH|]; intros mrs Hm; cbn [SpecFloat.iter_pos].
  - pose proof (Z.pow_pos_nonneg 2 (Zpos p) ltac:(lia) ltac:(lia)) as Hp.
    assert (H1 : 0 <= shr_m (shr_1 mrs)).
    { rewrite shr_1_m by lia. apply Z.div_pos; lia. }
    assert (H2 : 0 <= shr_m (SpecFloat.iter_pos shr_1 p (shr_1 mrs))).
    { rewrite IH by lia. apply Z.div_pos; lia. }
    rewrite IH, IH, shr_1_m by lia.
    rewrite !Z.div_div by lia. rewrite pow2_xI. f_equal; lia.
  - pose proof (Z.pow_pos_nonneg 2 (Zpos p) ltac:(lia) ltac:(lia)) as Hp.
    assert (H2 : 0 <= shr_m (SpecFloat.iter_pos shr_1 p mrs)).
    { rewrite IH by lia. apply Z.div_pos; lia. }
    rewrite IH, IH by lia.
    rewrite !Z.div_div by lia. rewrite pow2_xO. reflexivity.
  - rewrite shr_1_m by lia. reflexivity.
Qed.

Lemma shr_record_of_loc_m (m : Z) (l : location) :
  shr_m (shr_record_of_loc m l) = m.
Proof. destruct l as [|[]]; reflexivity. Qed.

(** The mantissa and the exponent after [shr]: a floor division. *)
Lemma shr_spec (m e n : Z) (l : location) :
  0 <= m ->
  shr_m (fst (shr (shr_record_of_loc m l) e n))
    = (if 0 <? n then m / 2 ^ n else m) /\
  snd (shr (shr_record_of_loc m l) e n) = (if 0 <? n then e + n else e).
Proof.
  intros Hm. unfold shr. destruct n as [|p|p]; cbn [fst snd Z.ltb Z.compare].
  - split; [apply shr_record_of_loc_m|reflexivity].
  - split; [|reflexivity].
    rewrite shr_iter by (rewrite shr_record_of_loc_m; exact Hm).
    rewrite shr_record_of_loc_m. reflexivity.
  - split; [apply shr_record_of_loc_m|reflexivity].
Qed.

Lemma round_nearest_even_bounds (m : Z) (l : location) :
  m <= round_nearest_even m l <= m + 1.
Proof.
  unfold round_nearest_even. destruct l as [|[]]; try lia.
  destruct (Z.even m); lia.
Qed.

Lemma shr_fexp_m_nonneg (m e : Z) (l : location) :
  0 <= m -> 0 <= shr_m (fst (shr_fexp prec emax m e l)).
Proof.
  intros Hm. unfold shr_fexp.
  destruct (shr_spec m e (fexp prec emax (Zdigits2 m + e) - e) l Hm) as [-> _].
  destruct (Z.ltb_spec 0 (fexp prec emax (Zdigits2 m + e) - e)) as [Hn|Hn];
    [|exact Hm].
  apply Z.div_pos; [exact Hm|]. apply Z.pow_pos_nonneg; lia.
Qed.

Lemma binary_round_aux_sign (sx : bool) (mx ex : Z) (lx : location) :
  0 <= mx -> has_sign sx (binary_round_aux prec emax sx mx ex lx).
Proof.
  intros Hm. unfold binary_round_aux.
  pose proof (shr_fexp_m_nonneg mx ex lx Hm) as H1.
  destruct (shr_fexp prec emax mx ex lx) as [mrs' e'].
  cbn [fst] in H1.
  pose proof (round_nearest_even_bounds (shr_m mrs') (loc_of_shr_record mrs'))
    as Hr.
  pose proof (shr_fexp_m_nonneg
                (round_nearest_even (shr_m mrs') (loc_of_shr_record mrs'))
                e' loc_Exact ltac:(lia)) as H2.
  destruct (shr_fexp prec emax _ e' loc_Exact) as [mrs'' e''].
  cbn [fst] in H2.
  destruct (shr_m mrs'') as [|m|m]; cbn.
  - exact I.
  - destruct (e'' <=? emax - prec); reflexivity.
  - lia.
Qed.

Lemma binary_normalize_sign (m e : Z) (szero : bool) :
  0 <= m -> has_sign false (binary_normalize prec emax m e szero).
Proof.
  intros Hm. unfold binary_normalize. destruct m as [|p|p]; [exact I| |lia].
  unfold binary_round. destruct (shl_align p e _) as [mz ez].
  apply binary_round_aux_sign. lia.
Qed.

(** Sums, products and integer quotients of non-negative floats. *)

Lemma fadd_sign (x y : spec_float) :
  has_sign false x -> has_sign false y -> has_sign false (fadd x y).
Proof.
  unfold fadd, SFadd.
  destruct x as [sx|sx| |sx mx ex], y as [sy|sy| |sy my ey]; cbn [has_sign];
    try contradiction; try (intros; subst; cbn; auto; fail).
  - intros _ _. destruct sx, sy; exact I.
  - intros -> ->. cbn [cond_Zopp].
    apply binary_normalize_sign. lia.
Qed.

Lemma fmul_sign (x y : spec_float) (my : positive) (ey : Z) :
  has_sign false x -> y = S754_finite false my ey ->
  has_sign false (fmul x y).
Proof.
  intros Hx ->. unfold fmul, SFmul.
  destruct x as [sx|sx| |sx mx ex]; cbn [has_sign] in *; try contradiction.
  - exact I.
  - subst sx. reflexivity.
  - subst sx. cbn [xorb]. apply binary_round_aux_sign. lia.
Qed.

Lemma SFdiv_core_binary_nonneg (m1 m2 : positive) (e1 e2 : Z) :
  0 <= fst (fst (SFdiv_core_binary prec emax (Zpos m1) e1 (Zpos m2) e2)).
Proof.
  unfold SFdiv_core_binary.
  set (s := _ - _ - Z.min _ _).
  set (m' := match s with Z.pos _ => _ | _ => _ end).
  assert (Hm' : 0 <= m').
  { subst m'. destruct s; [lia| |lia]. apply Z.shiftl_nonneg. lia. }
  pose proof (Z_div_mod m' (Zpos m2) ltac:(lia)) as Hdm.
  destruct (Z.div_eucl m' (Zpos m2)) as [q r]. cbn [fst].
  destruct Hdm as [Heq Hr]. nia.
Qed.

Lemma int_truediv_sign (a : N) (b : positive) :
  has_sign false (int_truediv a b).
Proof.
  unfold int_truediv. destruct a as [|a]; [exact I|].
  unfold fdiv, SFdiv.
  pose proof (SFdiv_core_binary_nonneg a b 0 0) as Hq.
  destruct (SFdiv_core_binary prec emax (Zpos a) 0 (Zpos b) 0) as [[mz ez] lz].
  cbn [fst] in Hq. cbn [xorb]. apply binary_round_aux_sign. exact Hq.
Qed.

Lemma py_max_sign (a b : spec_float) :
  has_sign false a -> has_sign false b -> has_sign false (py_max a b).
Proof. unfold py_max. destruct (fltb a b); auto. Qed.

(** Comparison with the two ends of the unit interval. *)

Lemma compare_cont_swap (m n : positive) :
  Pos.compare_cont Eq n m = CompOpp (Pos.compare_cont Eq m n).
Proof. symmetry. apply (Pos.compare_cont_antisym m n Eq). Qed.

Lemma SFcompare_swap (x y : spec_float) :
  SFcompare y x = option_map CompOpp (SFcompare x y).
Proof.
  destruct x as [sx|sx| |sx mx ex], y as [sy|sy| |sy my ey]; cbn;
    try reflexivity;
    try (destruct sx; reflexivity); try (destruct sy; reflexivity);
    try (destruct sx, sy; reflexivity).
  rewrite (Z.compare_antisym ex ey), (compare_cont_swap mx my).
  destruct sx, sy; cbn; try reflexivity; f_equal;
    destruct (ex ?= ey); cbn; try reflexivity;
    destruct (Pos.compare_cont Eq mx my); reflexivity.
Qed.

Lemma below_one_or_clamped (s : spec_float) :
  has_sign false s ->
  fltb f1_0 s = true \/
  (fltb f1_0 s = false /\ fleb f0_0 s = true /\ fleb s f1_0 = true).
Proof.
  intros Hs. unfold fltb, SFltb, fleb, SFleb.
  rewrite (SFcompare_swap s f1_0).
  destruct s as [sx|sx| |sx mx ex]; cbn [has_sign] in Hs; try contradiction.
  - right. repeat split; reflexivity.
  - subst sx. left. reflexivity.
  - subst sx. unfold f1_0, f0_0. cbn [SFcompare option_map].
    destruct (ex ?= -52); cbn [CompOpp]; auto.
    destruct (Pos.compare_cont Eq mx 4503599627370496); cbn [CompOpp]; auto.
Qed.

Lemma clamp_in_unit_interval (s : spec_float) :
  has_sign false s ->
  fleb f0_0 (py_min s f1_0) = true /\ fleb (py_min s f1_0) f1_0 = true.
Proof.
  intros Hs. unfold py_min.
  destruct (below_one_or_clamped s Hs) as [-> | (-> & H0 & H1)].
  - split; reflexivity.
  - split; assumption.
Qed.

(** ** The relevance score (C2) *)

Section RelevanceBounds.

Context `{StrOps}.

Lemma fold_max_sign {A} (step : spec_float -> A -> spec_float) (xs : list A) :
  (forall acc x, has_sign false acc -> has_sign false (step acc x)) ->
  forall acc, has_sign false acc -> has_sign false (fold_left step xs acc).
Proof.
  intros Hstep. induction xs as [|x xs IH]; intros acc Hacc; cbn; auto.
Qed.

Lemma brand_score_sign (p : ProductResult) (q : SearchQuery) :
  has_sign false (brand_score_of p q).
Proof.
  unfold brand_score_of. destruct (str_truthy (q_brand q)).
  - destruct (lower (or_empty (brand p))); [exact I|].
    destruct (str_eqb _ _); [reflexivity|].
    destruct (_ || _); [reflexivity|exact I].
  - apply fold_max_sign; [|exact I].
    intros acc t Hacc.
    destruct (contains t _); [apply py_max_sign; [exact Hacc|reflexivity]|].
    destruct (_ && _); [apply py_max_sign; [exact Hacc|reflexivity]|exact Hacc].
Qed.

Lemma category_score_sign (p : ProductResult) (q : SearchQuery) :
  has_sign false (category_score_of p q).
Proof.
  unfold category_score_of. destruct (str_truthy (q_category q)).
  - destruct (any_syn_in _ _ _); [reflexivity|exact I].
  - apply fold_max_sign; [|exact I].
    intros acc t Hacc.
    destruct (any_syn_in _ _ _);
      [apply py_max_sign; [exact Hacc|reflexivity]|exact Hacc].
Qed.

Lemma color_score_sign (p : ProductResult) (q : SearchQuery) :
  has_sign false (color_score_of p q).
Proof.
  unfold color_score_of. destruct (str_truthy (q_color q)).
  - destruct (any_syn_in _ _ _); [reflexivity|exact I].
  - apply fold_max_sign; [|exact I].
    intros acc t Hacc.
    destruct (contains t _);
      [apply py_max_sign; [exact Hacc|reflexivity]|exact Hacc].
Qed.

Lemma ratio_term_sign (a : N) (b : positive) (w : spec_float)
    (mw : positive) (ew : Z) :
  w = S754_finite false mw ew -> has_sign false (fmul (int_truediv a b) w).
Proof.
  intros Hw. eapply fmul_sign; [apply int_truediv_sign|exact Hw].
Qed.

(** The score before it is clamped is a sum of non-negative terms. *)
Lemma unclamped_score_sign (p : ProductResult) (q : SearchQuery) :
  exists s, calculate_relevance p q = py_min s f1_0 /\ has_sign false s.
Proof.
  unfold calculate_relevance. eexists. split; [reflexivity|].
  assert (H1 : has_sign false
                 (fadd (fadd f0_0 (brand_score_of p q)) (category_score_of p q))).
  { apply fadd_sign; [apply fadd_sign; [exact I|apply brand_score_sign]|].
    apply category_score_sign. }
  set (s2 := fadd (fadd f0_0 _) _) in *.
  assert (H3 : has_sign false
                 match query_terms_of q with
                 | [] => s2
                 | t :: ts =>
                     fadd s2 (fmul (int_truediv
                       (count_if (fun term => contains term (product_text_of p))
                          (query_terms_of q)) (len_pos t ts)) f0_20)
                 end).
  { destruct (query_terms_of q) as [|t ts]; [exact H1|].
    apply fadd_sign; [exact H1|]. eapply ratio_term_sign. reflexivity. }
  set (s3 := match query_terms_of q with [] => _ | _ => _ end) in *.
  assert (H4 : has_sign false (fadd s3 (color_score_of p q))).
  { apply fadd_sign; [exact H3|apply color_score_sign]. }
  set (s4 := fadd s3 _) in *.
  assert (H5 : has_sign false
                 match style_tags q with
                 | [] => s4
                 | t :: ts =>
                     fadd s4 (fmul (int_truediv
                       (count_if (fun tag => contains (lower tag) (product_text_of p))
                          (style_tags q)) (len_pos t ts)) f0_05)
                 end).
  { destruct (style_tags q) as [|t ts]; [exact H4|].
    apply fadd_sign; [exact H4|]. eapply ratio_term_sign. reflexivity. }
  set (s5 := match style_tags q with [] => _ | _ => _ end) in *.
  destruct (_ && _); [|exact H5].
  destruct (str_in_list _ _); [|exact H5].
  apply fadd_sign; [exact H5|reflexivity].
Qed.

Lemma calculate_relevance_ext (p p' : ProductResult) (q q' : SearchQuery) :
  p_name p' = p_name p -> brand p' = brand p ->
  description p' = description p -> category p' = category p ->
  color p' = color p -> sizes p' = sizes p ->
  query q' = query q -> q_brand q' = q_brand q ->
  q_category q' = q_category q -> q_color q' = q_color q ->
  style_tags q' = style_tags q -> q_size q' = q_size q ->
  calculate_relevance p' q' = calculate_relevance p q.
Proof.
  intros Hn Hb Hd Hc Hco Hs Hq Hqb Hqc Hqco Ht Hqs.
  unfold calculate_relevance, brand_score_of, category_score_of,
    color_score_of, query_terms_of, product_text_of.
  rewrite Hn, Hb, Hd, Hc, Hco, Hs, Hq, Hqb, Hqc, Hqco, Ht, Hqs.
  reflexivity.
Qed.

End RelevanceBounds.

(** C2: the relevance score of every product against every query lies in
    the closed interval [0, 1]; it is a function of its arguments alone
    (nothing is read or written besides them), and two calls that agree on
    the fields the score reads return the identical score. *)
Theorem C2_relevance_in_unit_interval (ops : StrOps) (p : ProductResult)
    (q : SearchQuery) :
  fleb f0_0 (calculate_relevance p q) = true /\
  fleb (calculate_relevance p q) f1_0 = true /\
  (forall (p' : ProductResult) (q' : SearchQuery),
     p_name p' = p_name p -> brand p' = brand p ->
     description p' = description p -> category p' = category p ->
     color p' = color p -> sizes p' = sizes p ->
     query q' = query q -> q_brand q' = q_brand q ->
     q_category q' = q_category q -> q_color q' = q_color q ->
     style_tags q' = style_tags q -> q_size q' = q_size q ->
     calculate_relevance p' q' = calculate_relevance p q).
Proof.
  destruct (unclamped_score_sign p q) as (s & Hs & Hsign).
  rewrite Hs.
  destruct (clamp_in_unit_interval s Hsign) as [H0 H1].
  split; [exact H0|]. split; [exact H1|].
  intros p' q'. rewrite <- Hs. apply calculate_relevance_ext.
Qed.

Lemma C2_relevance_in_unit_interval_witness :
  calculate_relevance (H:=ascii_ops) costed_hoodie hoodie_query
  = calculate_relevance (H:=ascii_ops) hoodie hoodie_query.
Proof.
  exact (proj2 (proj2 (C2_relevance_in_unit_interval ascii_ops hoodie
                         hoodie_query))
           costed_hoodie hoodie_query
           eq_refl eq_refl eq_refl eq_refl eq_refl eq_refl
           eq_refl eq_refl eq_refl eq_refl eq_refl eq_refl).
Defined.

(** ** A full match scores at least 0.8 (C8)

    Binary digits, rounding in the normal range, and the monotonicity of
    the addition of a non-negative value. *)

Lemma digits2_pos_bounds (p : positive) :
  2 ^ (Zpos (digits2_pos p) - 1) <= Zpos p < 2 ^ Zpos (digits2_pos p).
Proof.
  induction p as [p IH|p IH|]; cbn [digits2_pos].
  - rewrite Pos2Z.inj_succ.
    replace (Z.succ (Zpos (digits2_pos p)) - 1)
      with (Z.succ (Zpos (digits2_pos p) - 1)) by lia.
    rewrite !Z.pow_succ_r by lia. lia.
  - rewrite Pos2Z.inj_succ.
    replace (Z.succ (Zpos (digits2_pos p)) - 1)
      with (Z.succ (Zpos (digits2_pos p) - 1)) by lia.
    rewrite !Z.pow_succ_r by lia. lia.
  - cbn. lia.
Qed.

Lemma Zdigits2_bounds (m : Z) :
  0 < m -> 0 < Zdigits2 m /\ 2 ^ (Zdigits2 m - 1) <= m < 2 ^ Zdigits2 m.
Proof.
  destruct m as [|p|p]; try lia. intros _. cbn [Zdigits2].
  split; [lia|apply digits2_pos_bounds].
Qed.

Lemma pow2_lt_mono (a b : Z) : 0 <= a -> 2 ^ a < 2 ^ b -> a < b.
Proof.
  intros Ha Hlt. destruct (Z.lt_ge_cases a b) as [|Hge]; [assumption|].
  exfalso. destruct (Z.lt_ge_cases b 0) as [Hb|Hb].
  - rewrite (Z.pow_neg_r 2 b Hb) in Hlt.
    pose proof (Z.pow_pos_nonneg 2 a ltac:(lia) Ha). lia.
  - pose proof (Z.pow_le_mono_r 2 b a ltac:(lia) ltac:(lia)). lia.
Qed.

Lemma Zdigits2_unique (m d : Z) :
  0 < d -> 2 ^ (d - 1) <= m < 2 ^ d -> Zdigits2 m = d.
Proof.
  intros Hd [Hlo Hhi].
  assert (Hm : 0 < m).
  { pose proof (Z.pow_pos_nonneg 2 (d - 1) ltac:(lia) ltac:(lia)). lia. }
  destruct (Zdigits2_bounds m Hm) as [Hpos [Hlo' Hhi']].
  assert (d - 1 < Zdigits2 m) by (apply pow2_lt_mono; lia).
  assert (Zdigits2 m - 1 < d) by (apply pow2_lt_mono; lia).
  lia.
Qed.

(** The digits of a floor division by a power of two. *)
Lemma div_pow2_bounds (m d n : Z) :
  0 <= n -> n < d -> 2 ^ (d - 1) <= m < 2 ^ d ->
  2 ^ (d - n - 1) <= m / 2 ^ n < 2 ^ (d - n).
Proof.
  intros Hn Hd [Hlo Hhi].
  pose proof (Z.pow_pos_nonneg 2 n ltac:(lia) Hn) as Hp.
  replace (d - 1) with ((d - n - 1) + n) in Hlo by lia.
  replace d with ((d - n) + n) in Hhi at 1 by lia.
  rewrite Z.pow_add_r in Hlo, Hhi by lia.
  split.
  - apply Z.div_le_lower_bound; lia.
  - apply Z.div_lt_upper_bound; lia.
Qed.

Lemma fexp_eq (x : Z) : fexp prec emax x = Z.max (x - 53) (-1074).
Proof. reflexivity. Qed.

Lemma shr_fexp_spec (m e : Z) (l : location) :
  0 <= m ->
  let n := fexp prec emax (Zdigits2 m + e) - e in
  shr_m (fst (shr_fexp prec emax m e l)) = (if 0 <? n then m / 2 ^ n else m) /\
  snd (shr_fexp prec emax m e l) = (if 0 <? n then e + n else e).
Proof. intros Hm n. unfold shr_fexp. apply shr_spec. exact Hm. Qed.

(** Rounding in the normal range: the result has 53 digits; its exponent is
    the canonical one, with a mantissa not below the truncated one, or the
    next one. *)
Lemma binary_round_aux_normal (mx ex f : Z) (lx : location) :
  0 < mx -> f = Zdigits2 mx + ex - 53 -> -1074 <= f -> ex <= f ->
  binary_round_aux prec emax false mx ex lx = S754_infinity false \/
  exists m3 e3,
    binary_round_aux prec emax false mx ex lx = S754_finite false m3 e3 /\
    Zpos (digits2_pos m3) = 53 /\
    ((e3 = f /\ mx / 2 ^ (f - ex) <= Zpos m3) \/ e3 = f + 1).
Proof.
  intros Hm Hf Hmin Hle.
  destruct (Zdigits2_bounds mx Hm) as [Hd [Hlo Hhi]].
  set (d := Zdigits2 mx) in *.
  unfold binary_round_aux.
  destruct (shr_fexp_spec mx ex lx ltac:(lia)) as [H1m H1e].
  fold d in H1m, H1e. rewrite fexp_eq in H1m, H1e.
  replace (Z.max (d + ex - 53) (-1074) - ex) with (f - ex) in H1m, H1e by lia.
  destruct (shr_fexp prec emax mx ex lx) as [mrs' e']. cbn [fst snd] in *.
  assert (He' : e' = f) by (destruct (Z.ltb_spec 0 (f - ex)); lia).
  assert (Hm1 : shr_m mrs' = mx / 2 ^ (f - ex)).
  { destruct (Z.ltb_spec 0 (f - ex)) as [|Hz]; [exact H1m|].
    replace (f - ex) with 0 by lia. rewrite Z.div_1_r. exact H1m. }
  assert (Hm1b : 2 ^ 52 <= shr_m mrs' < 2 ^ 53).
  { rewrite Hm1.
    pose proof (div_pow2_bounds mx d (f - ex) ltac:(lia) ltac:(lia)
                  (conj Hlo Hhi)) as Hb.
    replace (d - (f - ex) - 1) with 52 in Hb by lia.
    replace (d - (f - ex)) with 53 in Hb by lia. exact Hb. }
  pose proof (round_nearest_even_bounds (shr_m mrs') (loc_of_shr_record mrs'))
    as Hr.
  set (m2 := round_nearest_even (shr_m mrs') (loc_of_shr_record mrs')) in *.
  destruct (shr_fexp_spec m2 e' loc_Exact ltac:(lia)) as [H2m H2e].
  rewrite fexp_eq in H2m, H2e. clear H1m H1e.
  destruct (shr_fexp prec emax m2 e' loc_Exact) as [mrs'' e''].
  cbn [fst snd] in *.
  destruct (Z.eq_dec m2 (2 ^ 53)) as [Hcarry|Hnc].
  - (* the rounding carried into a 54th digit *)
    assert (Hd2 : Zdigits2 m2 = 54).
    { apply Zdigits2_unique; [lia|]. rewrite Hcarry.
      change (54 - 1) with 53. split; [lia|]. apply Z.pow_lt_mono_r; lia. }
    rewrite Hd2 in H2m, H2e.
    replace (Z.max (54 + e' - 53) (-1074) - e') with 1 in H2m, H2e by lia.
    cbn [Z.ltb Z.compare] in H2m, H2e.
    assert (H3 : shr_m mrs'' = Zpos 4503599627370496).
    { rewrite H2m, Hcarry. reflexivity. }
    rewrite H3. cbv iota.
    destruct (e'' <=? emax - prec); [|left; reflexivity].
    right. exists 4503599627370496%positive, e''.
    split; [reflexivity|]. split; [reflexivity|]. right. lia.
  - assert (Hd2 : Zdigits2 m2 = 53).
    { apply Zdigits2_unique; [lia|]. change (53 - 1) with 52. lia. }
    rewrite Hd2 in H2m, H2e.
    replace (Z.max (53 + e' - 53) (-1074) - e') with 0 in H2m, H2e by lia.
    cbn [Z.ltb Z.compare] in H2m, H2e.
    rewrite H2m.
    destruct m2 as [|p2|p2] eqn:Ep; try lia.
    cbv iota. destruct (e'' <=? emax - prec); [|left; reflexivity].
    right. exists p2, e''. split; [reflexivity|].
    split; [exact Hd2|]. left. split; [lia|]. lia.
Qed.

Lemma normal_geb_finite (ma : positive) (ea : Z) (m : positive) (e : Z) :
  normal_geb ma ea (S754_finite false m e) = true <->
  Zpos (digits2_pos m) = 53 /\ (ea < e \/ (e = ea /\ Zpos ma <= Zpos m)).
Proof.
  cbn [normal_geb].
  rewrite andb_true_iff, orb_true_iff, andb_true_iff, Z.eqb_eq, Z.ltb_lt,
    Z.eqb_eq, Z.leb_le. reflexivity.
Qed.

Lemma pos_iter_xO (m d : positive) :
  Zpos (Pos.iter xO m d) = Zpos m * 2 ^ Zpos d.
Proof.
  induction d as [|d IH] using Pos.peano_ind.
  - cbn. lia.
  - rewrite Pos.iter_succ, Pos2Z.inj_xO, IH, Pos2Z.inj_succ.
    rewrite Z.pow_succ_r by lia. lia.
Qed.

Lemma shl_align_spec (mx : positive) (ex ex' : Z) :
  snd (shl_align mx ex ex') = Z.min ex ex' /\
  Zpos (fst (shl_align mx ex ex')) = Zpos mx * 2 ^ (ex - Z.min ex ex').
Proof.
  unfold shl_align. destruct (ex' - ex) as [|d|d] eqn:E; cbn [fst snd].
  - rewrite Z.min_l by lia. rewrite Z.sub_diag. cbn. lia.
  - rewrite Z.min_l by lia. rewrite Z.sub_diag. cbn. lia.
  - rewrite Z.min_r by lia. split; [reflexivity|].
    rewrite pos_iter_xO. f_equal. f_equal. lia.
Qed.

Lemma Zdigits2_shift (m k : Z) :
  0 < m -> 0 <= k -> Zdigits2 (m * 2 ^ k) = Zdigits2 m + k.
Proof.
  intros Hm Hk. destruct (Zdigits2_bounds m Hm) as [Hd [Hlo Hhi]].
  pose proof (Z.pow_pos_nonneg 2 k ltac:(lia) Hk) as Hp.
  apply Zdigits2_unique; [lia|].
  replace (Zdigits2 m + k - 1) with ((Zdigits2 m - 1) + k) by lia.
  rewrite !Z.pow_add_r by lia. nia.
Qed.

(** Adding a non-negative value never takes a normal value below a bound
    it was above. *)
Lemma fadd_normal_ge (ma : positive) (ea : Z) (x y : spec_float) :
  -1074 <= ea ->
  normal_geb ma ea x = true -> has_sign false y ->
  normal_geb ma ea (fadd x y) = true.
Proof.
  intros Hea Hx Hy. unfold fadd, SFadd.
  destruct x as [sx|[|]| |[|] m e]; try discriminate Hx.
  - (* infinity *)
    destruct y as [sy|sy| |sy my ey]; cbn [has_sign] in Hy;
      try contradiction; try subst sy; reflexivity.
  - destruct y as [sy|sy| |sy my ey]; cbn [has_sign] in Hy;
      try contradiction; try subst sy; try exact Hx; try reflexivity.
    (* two finite values *)
    apply normal_geb_finite in Hx as [Hdm Hge].
    cbn [cond_Zopp].
    set (ez := Z.min e ey).
    destruct (shl_align_spec m e ez) as [_ Ha].
    destruct (shl_align_spec my ey ez) as [_ Hb].
    rewrite (Z.min_r e ez) in Ha by (subst ez; lia).
    rewrite (Z.min_r ey ez) in Hb by (subst ez; lia).
    set (a := fst (shl_align m e ez)) in *.
    set (b := fst (shl_align my ey ez)) in *.
    change (Zpos a + Zpos b) with (Zpos (a + b)).
    cbn [binary_normalize]. unfold binary_round.
    pose proof (digits2_pos_bounds m) as Hmb. rewrite Hdm in Hmb.
    change (53 - 1) with 52 in Hmb.
    pose proof (Z.pow_pos_nonneg 2 (e - ez) ltac:(lia) ltac:(subst ez; lia))
      as Hpk.
    pose proof (Z.pow_pos_nonneg 2 (ey - ez) ltac:(lia) ltac:(subst ez; lia))
      as Hpk'.
    assert (HM : Zpos m * 2 ^ (e - ez) <= Zpos (a + b)) by lia.
    destruct (Zdigits2_bounds (Zpos (a + b)) ltac:(lia)) as [HD [HDlo HDhi]].
    cbn [Zdigits2] in HD, HDlo, HDhi.
    set (D := Zpos (digits2_pos (a + b))) in *.
    assert (HDe : 53 + e <= D + ez).
    { assert (2 ^ (52 + (e - ez)) < 2 ^ D).
      { rewrite Z.pow_add_r by (subst ez; lia). nia. }
      assert (52 + (e - ez) < D) by (apply pow2_lt_mono; subst ez; lia).
      lia. }
    assert (Hf0 : fexp prec emax (D + ez) = D + ez - 53).
    { rewrite fexp_eq. lia. }
    rewrite Hf0.
    destruct (shl_align_spec (a + b) ez (D + ez - 53)) as [Hse Hsm].
    destruct (shl_align (a + b) ez (D + ez - 53)) as [mz ez'].
    cbn [fst snd] in Hse, Hsm.
    assert (Hk : 0 <= ez - ez') by lia.
    assert (Hdz : Zdigits2 (Zpos mz) = D + (ez - ez')).
    { rewrite Hsm, <- Hse. rewrite Zdigits2_shift by lia. reflexivity. }
    destruct (binary_round_aux_normal (Zpos mz) ez' (D + ez - 53) loc_Exact
                ltac:(lia) ltac:(lia) ltac:(lia) ltac:(lia))
      as [-> | (m3 & e3 & -> & Hd3 & He3)]; [reflexivity|].
    apply normal_geb_finite. split; [exact Hd3|].
    destruct He3 as [[-> Hm3] | ->]; [|lia].
    destruct (Z.eq_dec (D + ez - 53) e) as [Hfe|Hfe]; [|lia].
    assert (Zpos m <= Zpos mz / 2 ^ (D + ez - 53 - ez')).
    { apply Z.div_le_lower_bound.
      - apply Z.pow_pos_nonneg; lia.
      - rewrite Hsm, <- Hse.
        replace (D + ez - 53 - ez') with ((e - ez) + (ez - ez')) by lia.
        rewrite Z.pow_add_r by (subst ez; lia).
        pose proof (Z.pow_pos_nonneg 2 (ez - ez') ltac:(lia) Hk). nia. }
    lia.
Qed.

Lemma int_truediv_same (n : positive) : int_truediv (Npos n) n = f1_0.
Proof.
  unfold int_truediv, fdiv, SFdiv, SFdiv_core_binary. cbn [xorb Zdigits2].
  rewrite !Z.add_0_r, (Z.sub_diag (Zpos (digits2_pos n))).
  change (0 - 0 - Z.min (fexp prec emax 0) (0 - 0)) with 53.
  change (Z.min (fexp prec emax 0) (0 - 0)) with (-53).
  cbv iota. rewrite Z.shiftl_mul_pow2 by lia.
  assert (Hq : (Zpos n * 2 ^ 53) / Zpos n = 2 ^ 53).
  { rewrite Z.mul_comm. apply Z.div_mul. lia. }
  assert (Hr : (Zpos n * 2 ^ 53) mod Zpos n = 0).
  { rewrite Z.mul_comm. apply Z.mod_mul. lia. }
  unfold Z.div, Z.modulo in Hq, Hr.
  destruct (Z.div_eucl (Zpos n * 2 ^ 53) (Zpos n)) as [q r].
  cbn [fst snd] in Hq, Hr. subst q r.
  assert (Hl : new_location (Zpos n) 0 = loc_Exact).
  { unfold new_location, new_location_even, new_location_odd.
    destruct (Z.even (Zpos n)); reflexivity. }
  rewrite Hl. vm_compute. reflexivity.
Qed.

Lemma forallb_count_if {A} (f : A -> bool) (xs : list A) :
  forallb f xs = true -> count_if f xs = N.of_nat (length xs).
Proof.
  intros Hall. unfold count_if. f_equal. f_equal.
  induction xs as [|x xs IH]; [reflexivity|].
  cbn in *. apply andb_true_iff in Hall as [-> Hxs].
  f_equal. apply IH. exact Hxs.
Qed.

Lemma len_pos_length {A} (x : A) (xs : list A) :
  N.of_nat (length (x :: xs)) = Npos (len_pos x xs).
Proof. unfold len_pos. cbn [length]. lia. Qed.

Lemma three_weights : fadd (fadd (fadd f0_0 f0_35) f0_25) (fmul f1_0 f0_20) = f0_80.
Proof. vm_compute. reflexivity. Qed.

Lemma with_colour_at_least_0_8 (c : spec_float) :
  c = f0_0 \/ c = f0_10 \/ c = f0_08 ->
  normal_geb 7205759403792794 (-53) (fadd f0_80 c) = true.
Proof. intros [-> | [-> | ->]]; vm_compute; reflexivity. Qed.

Lemma clamp_at_least_0_8 (s : spec_float) :
  normal_geb 7205759403792794 (-53) s = true ->
  fleb f0_80 (py_min s f1_0) = true.
Proof.
  intros Hs. unfold py_min. destruct (fltb f1_0 s); [reflexivity|].
  destruct s as [sx|[|]| |[|] m e]; try discriminate Hs; [reflexivity|].
  apply normal_geb_finite in Hs as [_ Hge].
  unfold fleb, SFleb, f0_80. cbn [SFcompare].
  destruct (Z.compare_spec (-53) e) as [He|He|He]; [|reflexivity|lia].
  destruct Hge as [Hlt | [_ Hle]]; [lia|].
  change (Pos.compare_cont Eq 7205759403792794 m)
    with (7205759403792794 ?= m)%positive.
  destruct (7205759403792794 ?= m)%positive eqn:Ec; try reflexivity.
  apply Pos.compare_gt_iff, Pos.lt_nle in Ec. exfalso. apply Ec. exact Hle.
Qed.

Section FullMatch.
Context `{StrOps}.

Lemma color_score_values (p : ProductResult) (q : SearchQuery) :
  color_score_of p q = f0_0 \/ color_score_of p q = f0_10
  \/ color_score_of p q = f0_08.
Proof.
  unfold color_score_of. destruct (str_truthy (q_color q)).
  - destruct (any_syn_in _ _ _); auto.
  - assert (Hfold : forall xs acc, acc = f0_0 \/ acc = f0_08 ->
      let r := fold_left
        (fun color_score term =>
           if contains term (lower (or_empty (color p)))
           then py_max color_score f0_08 else color_score) xs acc in
      r = f0_0 \/ r = f0_08).
    { induction xs as [|x xs IH]; intros acc Hacc; cbn; [exact Hacc|].
      apply IH. destruct (contains x _); [|exact Hacc].
      right. destruct Hacc as [-> | ->]; reflexivity. }
    destruct (Hfold (query_terms_of q) f0_0 (or_introl eq_refl)) as [-> | ->];
      auto.
Qed.

Lemma brand_score_exact (p : ProductResult) (q : SearchQuery) :
  exact_brand_match p q = true -> brand_score_of p q = f0_35.
Proof.
  unfold exact_brand_match, brand_score_of.
  intros [[-> Hne]%andb_true_iff Heq]%andb_true_iff.
  destruct (lower (or_empty (brand p))); [discriminate Hne|].
  rewrite Heq. reflexivity.
Qed.

Lemma category_score_match (p : ProductResult) (q : SearchQuery) :
  category_match p q = true -> category_score_of p q = f0_25.
Proof.
  unfold category_match, category_score_of.
  intros [-> ->]%andb_true_iff. reflexivity.
Qed.

Lemma full_match_at_least_0_8 (p : ProductResult) (q : SearchQuery) :
  exact_brand_match p q = true -> category_match p q = true ->
  full_term_coverage p q = true ->
  fleb f0_80 (calculate_relevance p q) = true.
Proof.
  intros Hb Hc Ht. unfold calculate_relevance.
  rewrite (brand_score_exact p q Hb), (category_score_match p q Hc).
  unfold full_term_coverage in Ht.
  apply andb_true_iff in Ht as [Hne Hall].
  destruct (query_terms_of q) as [|t ts] eqn:Et; [discriminate Hne|].
  rewrite (forallb_count_if _ _ Hall), len_pos_length, int_truediv_same.
  rewrite three_weights.
  apply clamp_at_least_0_8.
  pose proof (with_colour_at_least_0_8 _ (color_score_values p q)) as H4.
  set (s4 := fadd f0_80 (color_score_of p q)) in *.
  assert (H5 : normal_geb 7205759403792794 (-53)
                 match style_tags q with
                 | [] => s4
                 | t' :: ts' =>
                     fadd s4 (fmul (int_truediv
                       (count_if (fun tag => contains (lower tag) (product_text_of p))
                          (style_tags q)) (len_pos t' ts')) f0_05)
                 end = true).
  { destruct (style_tags q) as [|t' ts']; [exact H4|].
    apply fadd_normal_ge; [lia|exact H4|].
    eapply ratio_term_sign. reflexivity. }
  set (s5 := match style_tags q with [] => _ | _ => _ end) in *.
  destruct (_ && _); [|exact H5].
  destruct (str_in_list _ _); [|exact H5].
  apply fadd_normal_ge; [lia|exact H5|reflexivity].
Qed.

End FullMatch.

(** The example: brand, category and all three terms match; the colour is
    not asked for by the query's colour field and the product has no colour
    field, so the score is 0.35 + 0.25 + 0.20. *)
Lemma hoodie_example :
  exact_brand_match (H:=ascii_ops) hoodie hoodie_query = true /\
  category_match (H:=ascii_ops) hoodie hoodie_query = true /\
  full_term_coverage (H:=ascii_ops) hoodie hoodie_query = true /\
  calculate_relevance (H:=ascii_ops) hoodie hoodie_query = f0_80 /\
  fleb f0_90 f0_80 = false.
Proof. repeat split; vm_compute; reflexivity. Qed.

Lemma categorised_hoodie_example :
  calculate_relevance (H:=ascii_ops) categorised_hoodie hoodie_query = f0_80.
Proof. vm_compute. reflexivity. Qed.

(** C8, as stated, does not hold: the product "Nike Sportswear Tech Fleece
    Hoodie Black" of brand "Nike" has an exact brand match, a category match
    and full term coverage for the query "Nike hoodie black" with brand
    "Nike" and category "hoodie", and its score is 0.8, below 0.9. *)
Lemma C8_example_below_0_9_counterexample :
  ~ (forall (p : ProductResult) (q : SearchQuery),
       exact_brand_match (H:=ascii_ops) p q = true ->
       category_match (H:=ascii_ops) p q = true ->
       full_term_coverage (H:=ascii_ops) p q = true ->
       fleb f0_90 (calculate_relevance (H:=ascii_ops) p q) = true).
Proof.
  intros Hclaim.
  destruct hoodie_example as (Hb & Hc & Ht & Hs & Hlt).
  pose proof (Hclaim hoodie hoodie_query Hb Hc Ht) as Habsurd.
  rewrite Hs, Hlt in Habsurd. discriminate Habsurd.
Qed.

(** C8 (amended): a query with an exact brand match, a category match and
    full coverage of its terms scores at least 0.8 (the sum of the three
    weights 0.35, 0.25 and 0.20); the query "Nike hoodie black" with brand
    "Nike" and category "hoodie" against the product "Nike Sportswear Tech
    Fleece Hoodie Black" of brand "Nike" scores exactly 0.8, whether or not
    the product is filed under the category "hoodie". *)
Theorem C8_full_match_scores_at_least_0_8 :
  (forall (ops : StrOps) (p : ProductResult) (q : SearchQuery),
     exact_brand_match p q = true -> category_match p q = true ->
     full_term_coverage p q = true ->
     fleb f0_80 (calculate_relevance p q) = true) /\
  calculate_relevance (H:=ascii_ops) hoodie hoodie_query = f0_80 /\
  calculate_relevance (H:=ascii_ops) categorised_hoodie hoodie_query = f0_80.
Proof.
  split; [|split].
  - intros ops. apply full_match_at_least_0_8.
  - exact (proj1 (proj2 (proj2 (proj2 hoodie_example)))).
  - exact categorised_hoodie_example.
Qed.

Lemma C8_full_match_scores_at_least_0_8_witness :
  fleb f0_80 (calculate_relevance (H:=ascii_ops) hoodie hoodie_query) = true.
Proof.
  exact (proj1 C8_full_match_scores_at_least_0_8 ascii_ops hoodie hoodie_query
           (proj1 hoodie_example) (proj1 (proj2 hoodie_example))
           (proj1 (proj2 (proj2 hoodie_example)))).
Defined.

(** ** Exchange rates *)

Lemma default_rate_nonzero (currency : str) :
  is_zero (default (mkDec 10 (-1)) (DEFAULT_EXCHANGE_RATES !! currency)) = false.
Proof.
  destruct (DEFAULT_EXCHANGE_RATES !! currency) as [rate|] eqn:E; [|reflexivity].
  apply elem_of_list_to_map_2 in E.
  repeat (apply elem_of_cons in E as [[= _ ->]|E]; [reflexivity|]).
  apply elem_of_nil in E. destruct E.
Qed.

(** X1: [get_exchange_rate] never raises: an error of the rate provider is
    swallowed, and the fallback division through SEK never divides by zero,
    whatever the currencies are. *)
Theorem get_exchange_rate_never_raises (fetch : str -> str -> result Decimal)
    (self : CostCalculator) (from_currency to_currency : str) :
  exists rate self',
    get_exchange_rate fetch self from_currency to_currency
    = Returned (rate, self').
Proof.
  unfold get_exchange_rate.
  destruct (bool_decide _); [eauto|].
  destruct (_ !! _); [eauto|].
  destruct (if str_truthy (api_key self) then _ else _); [eauto|].
  destruct (bool_decide (to_currency = _)).
  - destruct (_ !! _); eauto.
  - destruct (ddiv_returns
                (default (mkDec 10 (-1)) (DEFAULT_EXCHANGE_RATES !! from_currency))
                (default (mkDec 10 (-1)) (DEFAULT_EXCHANGE_RATES !! to_currency))
                (default_rate_nonzero to_currency)) as [q ->].
    cbn. eauto.
Qed.

(** X2: a rate obtained from the provider is memoised: the same call
    afterwards returns that rate from the memo, without consulting the
    provider again (whatever the provider would answer then), and leaves
    the calculator as it is. *)
Theorem get_exchange_rate_memoises (fetch : str -> str -> result Decimal)
    (self : CostCalculator) (from_currency to_currency : str) (rate : Decimal) :
  from_currency <> to_currency ->
  _cached_rates self !! (from_currency ++ lit "_" ++ to_currency) = None ->
  str_truthy (api_key self) = true ->
  fetch from_currency to_currency = Returned rate ->
  exists self',
    get_exchange_rate fetch self from_currency to_currency
      = Returned (rate, self') /\
    forall fetch',
      get_exchange_rate fetch' self' from_currency to_currency
      = Returned (rate, self').
Proof.
  intros Hne Hmiss Hkey Hfetch.
  eexists. split.
  - unfold get_exchange_rate.
    rewrite bool_decide_eq_false_2 by exact Hne.
    cbv zeta. rewrite Hmiss, Hkey, Hfetch. reflexivity.
  - intros fetch'. unfold get_exchange_rate.
    rewrite bool_decide_eq_false_2 by exact Hne.
    cbv zeta. cbn [_cached_rates]. rewrite lookup_insert_eq.
    reflexivity.
Qed.

Lemma get_exchange_rate_memoises_witness :
  exists self',
    get_exchange_rate (quoting_provider (mkDec 1132 (-2))) keyed_calculator
      (lit "EUR") (lit "SEK") = Returned (mkDec 1132 (-2), self') /\
    forall fetch',
      get_exchange_rate fetch' self' (lit "EUR") (lit "SEK")
      = Returned (mkDec 1132 (-2), self').
Proof.
  apply (get_exchange_rate_memoises (quoting_provider (mkDec 1132 (-2)))
           keyed_calculator (lit "EUR") (lit "SEK") (mkDec 1132 (-2))).
  - vm_compute. discriminate.
  - vm_compute. reflexivity.
  - reflexivity.
  - reflexivity.
Defined.

(** X3: the memo only grows, and only by answers of the provider: a call
    keeps every entry as it is, and the only entry it can add is the
    provider's answer for the pair asked for; a fallback rate is never
    memoised. *)
Theorem get_exchange_rate_memo_grows (fetch : str -> str -> result Decimal)
    (self self' : CostCalculator) (from_currency to_currency : str)
    (rate : Decimal) :
  get_exchange_rate fetch self from_currency to_currency
    = Returned (rate, self') ->
  api_key self' = api_key self /\
  (forall key r, _cached_rates self !! key = Some r ->
                 _cached_rates self' !! key = Some r) /\
  (forall key r, _cached_rates self !! key = None ->
     _cached_rates self' !! key = Some r ->
     key = from_currency ++ lit "_" ++ to_currency /\
     str_truthy (api_key self) = true /\
     fetch from_currency to_currency = Returned r /\ rate = r).
Proof.
  unfold get_exchange_rate.
  assert (Hsame : forall r, Returned (r, self) = Returned (rate, self') ->
    api_key self' = api_key self /\
    (forall key r, _cached_rates self !! key = Some r ->
                   _cached_rates self' !! key = Some r) /\
    (forall key r, _cached_rates self !! key = None ->
       _cached_rates self' !! key = Some r ->
       key = from_currency ++ lit "_" ++ to_currency /\
       str_truthy (api_key self) = true /\
       fetch from_currency to_currency = Returned r /\ rate = r)).
  { intros r [= _ <-]. split; [reflexivity|]. split; [auto|].
    intros key r' Hn Hs. rewrite Hn in Hs. discriminate Hs. }
  destruct (bool_decide _); [apply Hsame|].
  cbv zeta. revert Hsame.
  set (cache_key := from_currency ++ lit "_" ++ to_currency). intros Hsame.
  destruct (_cached_rates self !! cache_key) eqn:Hmiss; [apply Hsame|].
  destruct (str_truthy (api_key self)) eqn:Hkey.
  - destruct (fetch from_currency to_currency) as [live|] eqn:Hfetch.
    + clear Hsame. intros E. injection E as E1 E2. subst rate self'.
      cbn [api_key _cached_rates].
      split; [reflexivity|]. split.
      * intros key r Hk. rewrite lookup_insert_ne; [exact Hk|].
        intros E. subst key.
        pose proof (eq_trans (eq_sym Hmiss) Hk) as Habsurd.
        discriminate Habsurd.
      * intros key r Hn Hs.
        destruct (decide (cache_key = key)) as [<-|Hd].
        -- rewrite lookup_insert_eq in Hs. injection Hs as <-. auto.
        -- rewrite lookup_insert_ne in Hs by exact Hd.
           rewrite Hn in Hs. discriminate Hs.
    + destruct (bool_decide _).
      * destruct (DEFAULT_EXCHANGE_RATES !! from_currency); apply Hsame.
      * destruct (ddiv _ _); cbn; [apply Hsame|discriminate].
  - destruct (bool_decide _).
    + destruct (DEFAULT_EXCHANGE_RATES !! from_currency); apply Hsame.
    + destruct (ddiv _ _); cbn; [apply Hsame|discriminate].
Qed.

Lemma get_exchange_rate_memo_grows_witness :
  api_key keyed_calculator_after = api_key keyed_calculator /\
  (forall key r, _cached_rates keyed_calculator !! key = Some r ->
                 _cached_rates keyed_calculator_after !! key = Some r) /\
  (forall key r, _cached_rates keyed_calculator !! key = None ->
     _cached_rates keyed_calculator_after !! key = Some r ->
     key = lit "EUR" ++ lit "_" ++ lit "SEK" /\
     str_truthy (api_key keyed_calculator) = true /\
     quoting_provider (mkDec 1132 (-2)) (lit "EUR") (lit "SEK") = Returned r /\
     mkDec 1132 (-2) = r).
Proof.
  apply (get_exchange_rate_memo_grows (quoting_provider (mkDec 1132 (-2)))
           keyed_calculator keyed_calculator_after (lit "EUR") (lit "SEK")
           (mkDec 1132 (-2))).
  vm_compute. reflexivity.
Defined.

(** ** The outcome of a price check *)

Lemma fix_ctx_sgn (d : Decimal) : Z.sgn (coef (fix_ctx d)) = Z.sgn (coef d).
Proof.
  unfold fix_ctx.
  destruct (Z.leb_spec (ndigits (Z.abs (coef d))) ctx_prec) as [Hle|Hgt];
    [reflexivity|].
  set (a := Z.abs (coef d)) in *. set (n := ndigits a) in *.
  assert (Ha : 0 < a).
  { destruct (Z.eq_dec a 0) as [E|]; [|lia].
    subst n. rewrite E in Hgt. cbv in Hgt. discriminate. }
  pose proof (pow10_pos 27 ltac:(lia)) as Hp27.
  destruct (ndigits_spec a Ha) as [_ [Hlo Hhi]]. fold n in Hlo, Hhi.
  unfold ctx_prec in *.
  set (s := n - 28) in *.
  pose proof (pow10_pos s ltac:(lia)) as Hps.
  assert (Hlo' : pow10 27 * pow10 s <= a).
  { rewrite <- pow10_add by lia. replace (27 + s) with (n - 1) by lia. exact Hlo. }
  assert (Hq0 : pow10 27 <= a / pow10 s).
  { apply Z.div_le_lower_bound; lia. }
  pose proof (div_half_even_bounds a s ltac:(lia) ltac:(lia)) as Hq.
  set (q := div_half_even a s) in *.
  change (28 - 1) with 27.
  destruct (q =? pow10 28); cbn [coef]; rewrite Z.sgn_mul.
  - rewrite (Z.sgn_pos (pow10 27)) by lia. lia.
  - rewrite (Z.sgn_pos q) by lia. lia.
Qed.

Lemma dgt_zero_coef (d : Decimal) : dgt d (mkDec 0 0) = (0 <? coef d).
Proof.
  unfold dgt, dlt, dcompare. cbn [coef expo].
  pose proof (pow10_pos (expo d - Z.min 0 (expo d)) ltac:(lia)) as Hp.
  rewrite Z.mul_0_l.
  destruct (Z.ltb_spec 0 (coef d)) as [Hpos|Hnp].
  - assert (H : 0 < coef d * pow10 (expo d - Z.min 0 (expo d))) by nia.
    apply Z.compare_lt_iff in H. rewrite H. reflexivity.
  - assert (H : coef d * pow10 (expo d - Z.min 0 (expo d)) <= 0) by nia.
    destruct (Z.compare_spec 0 (coef d * pow10 (expo d - Z.min 0 (expo d))));
      try reflexivity; lia.
Qed.

Lemma dsub_positive (a b : Decimal) : dgt (dsub a b) (mkDec 0 0) = dlt b a.
Proof.
  rewrite dgt_zero_coef. unfold dsub, dadd.
  pose proof (fix_ctx_sgn (dadd_exact a (dneg b))) as Hs.
  set (r := fix_ctx (dadd_exact a (dneg b))) in *.
  unfold dadd_exact, dneg in Hs. cbn [coef expo] in Hs.
  unfold dlt, dcompare. rewrite (Z.min_comm (expo b) (expo a)).
  set (x := coef a * pow10 (expo a - Z.min (expo a) (expo b))) in *.
  set (y := coef b * pow10 (expo b - Z.min (expo a) (expo b))) in *.
  replace (- coef b * pow10 (expo b - Z.min (expo a) (expo b))) with (- y)
    in Hs by (subst y; lia).
  destruct (Z.compare_spec y x) as [E|L|G];
    destruct (Z.ltb_spec 0 (coef r)); try reflexivity; lia.
Qed.

Lemma dsub_zero (a b : Decimal) :
  is_zero (dsub a b) = true <-> dcompare b a = Eq.
Proof.
  unfold is_zero, dsub, dadd.
  pose proof (fix_ctx_sgn (dadd_exact a (dneg b))) as Hs.
  set (r := fix_ctx (dadd_exact a (dneg b))) in *.
  unfold dadd_exact, dneg in Hs. cbn [coef expo] in Hs.
  unfold dcompare. rewrite (Z.min_comm (expo b) (expo a)).
  set (x := coef a * pow10 (expo a - Z.min (expo a) (expo b))) in *.
  set (y := coef b * pow10 (expo b - Z.min (expo a) (expo b))) in *.
  replace (- coef b * pow10 (expo b - Z.min (expo a) (expo b))) with (- y)
    in Hs by (subst y; lia).
  rewrite Z.eqb_eq, Z.compare_eq_iff. lia.
Qed.

(** What [check_price] puts into the fields of its outcome. *)
Lemma check_price_fields (decimal_of_str : str -> result Decimal) (utcnow : Z)
    (registry : ShopRegistry) (item : gmap str pyval) (check : PriceCheck) :
  check_price decimal_of_str utcnow registry item = Returned (Some check) ->
  exists adapter stock,
    get_adapter registry (dict_get item "shop_id") = Some adapter /\
    check_availability adapter (dict_get item "product_id")
      = Returned (stock, Some (new_price check)) /\
    to_decimal decimal_of_str
      (dict_get_default item "current_price" (VNum (mkDec 0 0)))
      = Returned (old_price check) /\
    drop_amount check = dsub (old_price check) (new_price check) /\
    drop_percent_of (drop_amount check) (old_price check)
      = Returned (drop_percent check) /\
    price_dropped check = dlt (new_price check) (old_price check) /\
    (dict_get item "target_price" = VNone -> target_price_reached check = false).
Proof.
  unfold check_price. destruct (get_adapter _ _) as [adapter|]; [|discriminate].
  intros Hc. injection Hc as Hc. revert Hc.
  unfold check_price_body.
  destruct (check_availability _ _) as [[stock [current|]]|] eqn:Ea; cbn;
    try discriminate.
  destruct (to_decimal _ (dict_get_default _ _ _)) as [stored|] eqn:Es; cbn;
    try discriminate.
  destruct (drop_percent_of _ _) as [percent|] eqn:Ep; cbn; try discriminate.
  intros Hc. exists adapter, stock.
  destruct (dict_get item "target_price") eqn:Et; cbn in Hc.
  - injection Hc as <-. cbn. repeat split; auto.
  - discriminate Hc.
  - injection Hc as <-. cbn. repeat split; auto. discriminate.
  - destruct (decimal_of_str s); cbn in Hc; [|discriminate Hc].
    injection Hc as <-. cbn. repeat split; auto. discriminate.
Qed.

(** X4: a watch item whose shop is not registered (or that names no shop),
    and a product that its shop does not list any more, give no outcome
    ([None]) without raising. *)
Theorem check_price_absent (decimal_of_str : str -> result Decimal)
    (utcnow : Z) (registry : ShopRegistry) (item : gmap str pyval) :
  (item !! lit "shop_id" = None ->
     check_price decimal_of_str utcnow registry item = Returned None) /\
  (forall shop, item !! lit "shop_id" = Some (VStr shop) ->
     adapter_for registry !! shop = None ->
     check_price decimal_of_str utcnow registry item = Returned None) /\
  (forall adapter,
     get_adapter registry (dict_get item "shop_id") = Some adapter ->
     get_product adapter (dict_get item "product_id") = Returned None ->
     check_price decimal_of_str utcnow registry item = Returned None).
Proof.
  unfold check_price. split; [|split].
  - intros Hs. unfold dict_get at 1. rewrite Hs. reflexivity.
  - intros shop Hs Ha. unfold dict_get at 1. rewrite Hs. cbn. rewrite Ha.
    reflexivity.
  - intros adapter -> Hp. unfold check_price_body, check_availability.
    rewrite Hp. reflexivity.
Qed.

Lemma check_price_absent_witness :
  check_price no_numerals 0 sold_out_registry
    (watch_item (VNum (mkDec 89900 (-2))) VNone (VBool true))
  = Returned None.
Proof.
  refine (proj2 (proj2 (check_price_absent no_numerals 0 sold_out_registry _))
            (answering_adapter []) _ _).
  - vm_compute. reflexivity.
  - vm_compute. reflexivity.
Defined.

(** X5: the fields of an outcome of [check_price] agree with each other: the
    price is flagged as dropped exactly when the recorded drop amount is
    positive, the drop amount is zero exactly when old and new price are
    numerically equal, the drop percentage is the integer 0 exactly when
    the stored price is not positive, and a target is only flagged as
    reached when the item has one. *)
Theorem price_check_flags (decimal_of_str : str -> result Decimal)
    (utcnow : Z) (registry : ShopRegistry) (item : gmap str pyval)
    (check : PriceCheck) :
  check_price decimal_of_str utcnow registry item = Returned (Some check) ->
  price_dropped check = dgt (drop_amount check) (mkDec 0 0) /\
  (is_zero (drop_amount check) = true
   <-> dcompare (new_price check) (old_price check) = Eq) /\
  (drop_percent check = PyInt 0
   <-> dgt (old_price check) (mkDec 0 0) = false) /\
  (target_price_reached check = true -> dict_get item "target_price" <> VNone).
Proof.
  intros Hc.
  destruct (check_price_fields _ _ _ _ _ Hc)
    as (adapter & stock & _ & _ & _ & Hamount & Hpercent & Hdropped & Htarget).
  split; [|split; [|split]].
  - rewrite Hdropped, Hamount. symmetry. apply dsub_positive.
  - rewrite Hamount. apply dsub_zero.
  - unfold drop_percent_of in Hpercent.
    destruct (dgt (old_price check) (mkDec 0 0)).
    + destruct (ddiv _ _); cbn in Hpercent; [|discriminate Hpercent].
      injection Hpercent as <-. split; discriminate.
    + injection Hpercent as <-. split; reflexivity.
  - intros Hr Hn. rewrite (Htarget Hn) in Hr. discriminate Hr.
Qed.

Lemma price_check_flags_witness :
  exists check,
    check_price no_numerals 0 one_shop_registry
      (watch_item (VNum (mkDec 99900 (-2))) VNone (VBool true))
    = Returned (Some check) /\
    price_dropped check = dgt (drop_amount check) (mkDec 0 0) /\
    drop_amount check = mkDec 10000 (-2).
Proof.
  eexists. split; [vm_compute; reflexivity|].
  split; [|reflexivity].
  refine (proj1 (price_check_flags no_numerals 0 one_shop_registry
                   (watch_item (VNum (mkDec 99900 (-2))) VNone (VBool true))
                   _ _)).
  vm_compute. reflexivity.
Defined.

(** ** Batches *)

Lemma firstn_plus {A} (a b : nat) (l : list A) :
  firstn (a + b) l = firstn a l ++ firstn b (skipn a l).
Proof.
  revert l. induction a as [|a IH]; intros l; [reflexivity|].
  destruct l as [|x l]; cbn.
  - destruct b; reflexivity.
  - f_equal. apply IH.
Qed.

Lemma fold_left_keep_checks (checks : list (result (option PriceCheck)))
    (results : list PriceCheck) :
  fold_left
    (fun results check =>
       match check with
       | Returned (Some c) => results ++ [c]
       | _ => results
       end) checks results
  = results ++ omap price_check_of checks.
Proof.
  revert results. induction checks as [|c cs IH]; intros results; cbn.
  - symmetry. apply app_nil_r.
  - rewrite IH. destruct c as [[c|]|]; cbn; try reflexivity.
    rewrite <- app_assoc. reflexivity.
Qed.

Lemma checks_of_batch (outcome : gmap str pyval -> result (option PriceCheck))
    (batch : list (gmap str pyval)) :
  omap price_check_of (map outcome batch)
  = omap (fun item => price_check_of (outcome item)) batch.
Proof.
  induction batch as [|item batch IH]; [reflexivity|].
  cbn. rewrite IH. reflexivity.
Qed.

Lemma omap_length_le {A B} (f : A -> option B) (l : list A) :
  (length (omap f l) <= length l)%nat.
Proof.
  induction l as [|x l IH]; cbn; [lia|].
  destruct (f x); cbn; lia.
Qed.

Lemma batch_count_bounds (n : nat) :
  (10 * ((n + batch_size - 1) / batch_size) <= n + 9
   /\ n + 9 < 10 * ((n + batch_size - 1) / batch_size) + 10)%nat.
Proof.
  unfold batch_size.
  pose proof (Nat.div_mod_eq (n + 10 - 1) 10) as Hd.
  pose proof (Nat.mod_upper_bound (n + 10 - 1) 10 ltac:(lia)) as Hm.
  lia.
Qed.

Lemma check_batches_prefix (decimal_of_str : str -> result Decimal)
    (utcnow : Z) (registry : ShopRegistry) (items : list (gmap str pyval))
    (m : nat) :
  (m <= (length items + batch_size - 1) / batch_size)%nat ->
  fold_left (check_batch decimal_of_str utcnow registry items)
            (map (fun k => (k * batch_size)%nat) (seq 0 m)) ([], 0%nat)
  = (omap (fun item => price_check_of
                         (check_price decimal_of_str utcnow registry item))
          (firstn (m * batch_size) items),
     Nat.min m ((length items + batch_size - 1) / batch_size - 1)).
Proof.
  pose proof (batch_count_bounds (length items)) as HM.
  set (M := ((length items + batch_size - 1) / batch_size)%nat) in *.
  induction m as [|m IH]; intros Hm; [reflexivity|].
  rewrite seq_S, map_app, fold_left_app, IH by lia.
  cbn [Nat.add map fold_left check_batch].
  unfold slice. rewrite Nat.add_sub'.
  rewrite fold_left_keep_checks, checks_of_batch.
  f_equal.
  - replace (S m * batch_size)%nat with (m * batch_size + batch_size)%nat
      by (unfold batch_size; lia).
    rewrite firstn_plus, omap_app. reflexivity.
  - unfold batch_size in *.
    destruct (Nat.ltb_spec (m * 10 + 10) (length items)); lia.
Qed.

(** X6: batching is transparent: [check_all_items] returns the outcomes of
    [check_price] that are price checks, for all items and in their order,
    whatever the number of batches; and it sleeps once between two batches
    of ten, never after the last. *)
Theorem check_all_items_batches (decimal_of_str : str -> result Decimal)
    (utcnow : Z) (registry : ShopRegistry) (items : list (gmap str pyval)) :
  fst (check_all_items decimal_of_str utcnow registry items)
  = omap (fun item => price_check_of
                        (check_price decimal_of_str utcnow registry item))
         items /\
  snd (check_all_items decimal_of_str utcnow registry items)
  = ((length items - 1) / 10)%nat /\
  (length (fst (check_all_items decimal_of_str utcnow registry items))
   <= length items)%nat.
Proof.
  unfold check_all_items, range_step.
  rewrite check_batches_prefix by lia.
  pose proof (batch_count_bounds (length items)) as HM.
  set (M := ((length items + batch_size - 1) / batch_size)%nat) in *.
  clearbody M. cbn [fst snd].
  assert (Hall : firstn (M * batch_size) items = items).
  { apply firstn_all2. unfold batch_size. lia. }
  rewrite Hall. split; [reflexivity|]. split.
  - assert (Hq : ((length items - 1) / 10 = M - 1)%nat).
    { symmetry.
      apply (Nat.div_unique _ 10 _ (length items - 1 - 10 * (M - 1))); lia. }
    rewrite Hq. lia.
  - apply omap_length_le.
Qed.

(** ** Notifications for a list of checks *)

Lemma process_price_checks_cons (decimal_of_str : str -> result Decimal)
    (notifier : Notification -> NotificationResult) (registry : ShopRegistry)
    (watchlist_items : gmap str (gmap str pyval))
    (check : PriceCheck) (rest : list PriceCheck)
    (sent : option Notification) (sents : list Notification)
    (results : list NotificationResult) :
  process_one decimal_of_str registry watchlist_items check = Returned sent ->
  process_price_checks decimal_of_str notifier registry rest watchlist_items
    = Returned (sents, results) ->
  process_price_checks decimal_of_str notifier registry (check :: rest)
    watchlist_items
  = Returned (option_list sent ++ sents,
              map notifier (option_list sent) ++ results).
Proof.
  intros H1 H2. cbn [process_price_checks]. rewrite H1. cbn. rewrite H2. cbn.
  destruct sent; reflexivity.
Qed.

(** X7: [process_price_checks] hands the notifier the notifications decided
    for the checks, in the order of the checks, and returns one result per
    notification sent: never more results than checks; with no watch
    entries on file nothing is sent, whatever the checks say. *)
Theorem process_price_checks_results (decimal_of_str : str -> result Decimal)
    (notifier : Notification -> NotificationResult) (registry : ShopRegistry)
    (watchlist_items : gmap str (gmap str pyval)) (checks : list PriceCheck) :
  (forall decisions,
     Forall2 (fun check sent =>
                process_one decimal_of_str registry watchlist_items check
                = Returned sent) checks decisions ->
     process_price_checks decimal_of_str notifier registry checks
       watchlist_items
     = Returned (omap id decisions, map notifier (omap id decisions))) /\
  (forall sents results,
     process_price_checks decimal_of_str notifier registry checks
       watchlist_items = Returned (sents, results) ->
     results = map notifier sents /\
     (length results <= length checks)%nat /\
     Forall (fun n => exists check, In check checks /\
               process_one decimal_of_str registry watchlist_items check
               = Returned (Some n)) sents) /\
  process_price_checks decimal_of_str notifier registry checks ∅
  = Returned ([], []).
Proof.
  split; [|split].
  - induction checks as [|check rest IH]; intros decisions Hd.
    + apply Forall2_nil_inv_l in Hd as ->. reflexivity.
    + apply Forall2_cons_inv_l in Hd as (sent & ds & H1 & H2 & ->).
      rewrite (process_price_checks_cons _ _ _ _ _ _ _ _ _ H1 (IH ds H2)).
      destruct sent; reflexivity.
  - induction checks as [|check rest IH]; intros sents results Hr.
    + injection Hr as <- <-. split; [reflexivity|]. split; [cbn; lia|].
      constructor.
    + cbn [process_price_checks] in Hr.
      apply bind_returned in Hr as (sent & H1 & Hr).
      apply bind_returned in Hr as ([ss rs] & H2 & Hr). cbv beta iota in Hr.
      destruct (IH ss rs H2) as (-> & Hlen & Hall).
      assert (Hall' : Forall (fun n => exists c, In c (check :: rest) /\
                process_one decimal_of_str registry watchlist_items c
                = Returned (Some n)) ss).
      { eapply Forall_impl; [exact Hall|].
        intros n (c & Hin & Hc). exists c. split; [right; exact Hin|exact Hc]. }
      rewrite length_map in Hlen.
      destruct sent as [n|]; injection Hr as <- <-.
      * split; [reflexivity|]. split; [cbn; rewrite length_map; lia|].
        constructor; [|exact Hall'].
        exists check. split; [left; reflexivity|exact H1].
      * split; [reflexivity|]. split; [cbn; rewrite length_map; lia|].
        exact Hall'.
  - induction checks as [|check rest IH]; [reflexivity|].
    cbn [process_price_checks]. rewrite IH.
    unfold process_one, lookup_item.
    destruct (watchlist_id check); reflexivity.
Qed.

Lemma process_price_checks_results_witness :
  exists sents results,
    process_price_checks no_numerals accepting_notifier one_shop_registry
      [opted_out_check; opted_out_check] sample_watchlist
    = Returned (sents, results) /\
    results = map accepting_notifier sents /\
    (length results <= 2)%nat.
Proof.
  eexists _, _. split; [vm_compute; reflexivity|].
  refine (let H := proj1 (proj2 (process_price_checks_results no_numerals
                     accepting_notifier one_shop_registry sample_watchlist
                     [opted_out_check; opted_out_check])) _ _ _ in
          conj (proj1 H) (proj1 (proj2 H))).
  vm_compute. reflexivity.
Defined.

(** ** The watchlist store *)

Lemma lit_inj (s t : string) : lit s = lit t -> s = t.
Proof.
  unfold lit. intros E.
  rewrite <- (string_of_list_ascii_of_string s),
          <- (string_of_list_ascii_of_string t).
  f_equal. revert E.
  generalize (list_ascii_of_string s) (list_ascii_of_string t).
  induction l as [|a l IH]; intros [|b l']; cbn; try discriminate;
    [reflexivity|].
  intros [= Hab Hl]. f_equal; [|apply IH; exact Hl].
  rewrite <- (ascii_N_embedding a), <- (ascii_N_embedding b), Hab.
  reflexivity.
Qed.

Lemma N_to_uint_nonnil (n : N) : N.to_uint n <> Decimal.Nil.
Proof.
  destruct n as [|p]; cbn; [discriminate|].
  apply DecimalPos.Unsigned.to_uint_nonnil.
Qed.

Lemma str_of_N_inj (n m : N) : str_of_N n = str_of_N m -> n = m.
Proof.
  unfold str_of_N. intros E%lit_inj.
  apply DecimalN.Unsigned.to_uint_inj.
  apply (f_equal DecimalString.NilZero.uint_of_string) in E.
  rewrite !DecimalString.NilZero.usu in E by apply N_to_uint_nonnil.
  injection E as E. exact E.
Qed.

(** *** Ordered dictionaries *)

Lemma str_eqb_eq (a b : str) : str_eqb a b = true <-> a = b.
Proof. unfold str_eqb. apply bool_decide_eq_true. Qed.

Lemma str_eqb_refl (a : str) : str_eqb a a = true.
Proof. apply str_eqb_eq. reflexivity. Qed.

Lemma str_eqb_neq (a b : str) : a <> b -> str_eqb a b = false.
Proof. unfold str_eqb. apply bool_decide_eq_false_2. Qed.

Lemma odict_get_set_eq {V} (d : list (str * V)) (k : str) (v : V) :
  odict_get (odict_set d k v) k = Some v.
Proof.
  induction d as [|[k' v'] d IH]; cbn.
  - rewrite str_eqb_refl. reflexivity.
  - destruct (str_eqb k' k) eqn:E; cbn; rewrite E; [reflexivity|exact IH].
Qed.

Lemma odict_get_set_ne {V} (d : list (str * V)) (k k0 : str) (v : V) :
  k <> k0 -> odict_get (odict_set d k v) k0 = odict_get d k0.
Proof.
  intros Hne. induction d as [|[k' v'] d IH]; cbn.
  - rewrite str_eqb_neq by exact Hne. reflexivity.
  - destruct (str_eqb k' k) eqn:E; cbn.
    + apply str_eqb_eq in E as ->. rewrite str_eqb_neq by exact Hne.
      reflexivity.
    + rewrite IH. reflexivity.
Qed.

Lemma odict_get_None {V} (d : list (str * V)) (k : str) :
  odict_get d k = None <-> ~ In k (map fst d).
Proof.
  induction d as [|[k' v'] d IH]; cbn; [tauto|].
  destruct (str_eqb k' k) eqn:E.
  - apply str_eqb_eq in E. split; [discriminate|]. intros Hn. tauto.
  - rewrite IH. apply bool_decide_eq_false in E. tauto.
Qed.

Lemma odict_get_In {V} (d : list (str * V)) (k : str) (v : V) :
  odict_get d k = Some v -> In (k, v) d.
Proof.
  induction d as [|[k' v'] d IH]; cbn; [discriminate|].
  destruct (str_eqb k' k) eqn:E.
  - apply str_eqb_eq in E as ->. intros [= ->]. left. reflexivity.
  - intros Hg. right. apply IH. exact Hg.
Qed.

Lemma odict_In_get {V} (d : list (str * V)) (k : str) (v : V) :
  NoDup (map fst d) -> In (k, v) d -> odict_get d k = Some v.
Proof.
  induction d as [|[k' v'] d IH]; cbn; [tauto|].
  intros Hnd [E|Hin].
  - injection E as -> ->. rewrite str_eqb_refl. reflexivity.
  - apply NoDup_cons in Hnd as [Hnotin Hnd].
    destruct (str_eqb k' k) eqn:E.
    + apply str_eqb_eq in E as ->. exfalso. apply Hnotin.
      apply list_elem_of_In. apply (in_map fst) in Hin. exact Hin.
    + apply IH; assumption.
Qed.

(** Assigning to an absent key appends; to a present key, replaces in
    place. *)
Lemma odict_set_absent {V} (d : list (str * V)) (k : str) (v : V) :
  odict_get d k = None -> odict_set d k v = d ++ [(k, v)].
Proof.
  induction d as [|[k' v'] d IH]; cbn; [reflexivity|].
  destruct (str_eqb k' k); [discriminate|].
  intros Hg. rewrite IH by exact Hg. reflexivity.
Qed.

Lemma odict_set_present {V} (d : list (str * V)) (k : str) (old v : V) :
  odict_get d k = Some old ->
  exists d1 d2, d = d1 ++ (k, old) :: d2 /\ odict_set d k v = d1 ++ (k, v) :: d2
                /\ odict_get d1 k = None.
Proof.
  induction d as [|[k' v'] d IH]; cbn; [discriminate|].
  destruct (str_eqb k' k) eqn:E.
  - apply str_eqb_eq in E as ->. intros [= ->].
    exists [], d. repeat split; reflexivity.
  - intros Hg. destruct (IH Hg) as (d1 & d2 & -> & -> & Hn).
    exists ((k', v') :: d1), d2. cbn. rewrite E. repeat split; auto.
Qed.

(** *** Ids *)

Lemma first_ids_succ (n : N) :
  first_ids (n + 1) = first_ids n ++ [str_of_N (n + 1)].
Proof.
  unfold first_ids.
  replace (N.to_nat (n + 1)) with (S (N.to_nat n)) by lia.
  rewrite seq_S, map_app. cbn [map]. do 3 f_equal. lia.
Qed.

Lemma first_ids_fresh (n : N) : ~ In (str_of_N (n + 1)) (first_ids n).
Proof.
  unfold first_ids. intros Hin. apply in_map_iff in Hin as (k & E & Hk).
  apply str_of_N_inj in E. apply in_seq in Hk. lia.
Qed.

Lemma first_ids_NoDup (n : N) : NoDup (first_ids n).
Proof.
  induction n as [|n IH] using N.peano_ind; [constructor|].
  rewrite <- N.add_1_r, first_ids_succ.
  apply NoDup_app. split; [exact IH|]. split; [|apply NoDup_singleton].
  intros x Hx Hx'. apply list_elem_of_singleton in Hx' as ->.
  apply list_elem_of_In in Hx. exact (first_ids_fresh n Hx).
Qed.

Lemma well_keyed_NoDup (store : WatchlistStore) :
  well_keyed store -> NoDup (map fst (_watchlist store)).
Proof. intros [-> _]. apply first_ids_NoDup. Qed.

Lemma well_keyed_get (store : WatchlistStore) (item_id : str)
    (item : WatchlistEntry) :
  well_keyed store -> odict_get (_watchlist store) item_id = Some item ->
  w_id item = item_id.
Proof.
  intros [_ Hall] Hg. apply odict_get_In, list_elem_of_In in Hg.
  rewrite Forall_forall in Hall. exact (Hall _ Hg).
Qed.

Lemma store_item_keyed (store : WatchlistStore) (item_id : str)
    (old item : WatchlistEntry) :
  well_keyed store -> odict_get (_watchlist store) item_id = Some old ->
  w_id item = w_id old -> well_keyed (store_item store item_id item).
Proof.
  intros Hwk Hg Hid. pose proof (well_keyed_get _ _ _ Hwk Hg) as Hold.
  destruct Hwk as [Hkeys Hall].
  destruct (odict_set_present _ _ _ item Hg) as (d1 & d2 & Hd & Hd' & _).
  unfold well_keyed, store_item. cbn [_watchlist _watchlist_counter].
  rewrite Hd'. rewrite Hd in Hkeys, Hall. split.
  - rewrite <- Hkeys, !map_app. reflexivity.
  - apply Forall_app in Hall as [H1 H2]. apply Forall_app. split; [exact H1|].
    apply Forall_cons_iff in H2 as [_ H2]. constructor; [|exact H2].
    cbn. congruence.
Qed.

Lemma add_to_watchlist_keyed (store : WatchlistStore)
    (request : WatchlistAddRequest) (now : str) :
  well_keyed store -> well_keyed (snd (add_to_watchlist store request now)).
Proof.
  intros Hwk. unfold add_to_watchlist.
  destruct (existsb _ _); [exact Hwk|]. cbn [snd].
  destruct Hwk as [Hkeys Hall].
  assert (Hfresh : odict_get (_watchlist store)
                     (str_of_N (_watchlist_counter store + 1)) = None).
  { apply odict_get_None. rewrite Hkeys. apply first_ids_fresh. }
  unfold well_keyed. cbn [_watchlist _watchlist_counter].
  rewrite (odict_set_absent _ _ _ Hfresh). split.
  - rewrite map_app, Hkeys, first_ids_succ. reflexivity.
  - apply Forall_app. split; [exact Hall|]. constructor; [reflexivity|].
    constructor.
Qed.

Lemma after_call_keyed (round_2 : spec_float -> spec_float)
    (store : WatchlistStore) (call : WatchlistCall) :
  well_keyed store -> well_keyed (after_call round_2 store call).
Proof.
  intros Hwk. destruct call as [request now|item_id t n|item_id|item_id p];
    cbn [after_call].
  - apply add_to_watchlist_keyed. exact Hwk.
  - unfold update_watchlist_item.
    destruct (odict_get _ _) as [item|] eqn:Hg; [|exact Hwk]. cbn [snd].
    apply (store_item_keyed _ _ item); [exact Hwk|exact Hg|].
    destruct t, n; reflexivity.
  - unfold remove_from_watchlist.
    destruct (odict_get _ _) as [item|] eqn:Hg; [|exact Hwk]. cbn [snd].
    apply (store_item_keyed _ _ item); [exact Hwk|exact Hg|reflexivity].
  - unfold update_item_price.
    destruct (odict_get _ _) as [item|] eqn:Hg; [|exact Hwk]. cbn [snd].
    apply (store_item_keyed _ _ item); [exact Hwk|exact Hg|].
    destruct (fltb _ _); reflexivity.
Qed.

Lemma after_calls_keyed (round_2 : spec_float -> spec_float)
    (calls : list WatchlistCall) (store : WatchlistStore) :
  well_keyed store -> well_keyed (after_calls round_2 store calls).
Proof.
  revert store. induction calls as [|call calls IH]; intros store Hwk;
    [exact Hwk|].
  cbn. apply IH. apply after_call_keyed. exact Hwk.
Qed.

Lemma empty_store_keyed : well_keyed empty_store.
Proof. split; [reflexivity|constructor]. Qed.

(** X8: ids are handed out in sequence and never reused: after any
    sequence of calls the keys of the store are "1", "2", ... up to the
    counter, in insertion order and without repetition, every item is
    stored under its own id, and no call ever removes an item. *)
Theorem watchlist_ids_sequential (round_2 : spec_float -> spec_float)
    (calls : list WatchlistCall) :
  let store := after_calls round_2 empty_store calls in
  map fst (_watchlist store) = first_ids (_watchlist_counter store) /\
  NoDup (map fst (_watchlist store)) /\
  Forall (fun kv => w_id (snd kv) = fst kv) (_watchlist store) /\
  length (_watchlist store) = N.to_nat (_watchlist_counter store).
Proof.
  intros store.
  pose proof (after_calls_keyed round_2 calls empty_store empty_store_keyed)
    as Hwk. fold store in Hwk.
  split; [exact (proj1 Hwk)|]. split; [exact (well_keyed_NoDup _ Hwk)|].
  split; [exact (proj2 Hwk)|].
  rewrite <- (length_map fst), (proj1 Hwk). unfold first_ids.
  rewrite length_map, length_seq. reflexivity.
Qed.

(** *** The order of floats *)

Lemma fleb_refl (x : spec_float) : is_number x = true -> fleb x x = true.
Proof.
  unfold fleb, SFleb.
  destruct x as [s|s| |s m e]; cbn; try discriminate; intros _.
  - reflexivity.
  - destruct s; reflexivity.
  - rewrite Z.compare_refl.
    change (Pos.compare_cont Eq m m) with (m ?= m)%positive.
    rewrite Pos.compare_refl. destruct s; reflexivity.
Qed.

Lemma fleb_is_number (x y : spec_float) :
  fleb x y = true -> is_number x = true /\ is_number y = true.
Proof.
  unfold fleb, SFleb.
  destruct x as [s|s| |s m e], y as [s'|s'| |s' m' e']; cbn;
    try discriminate; auto.
Qed.

Lemma fleb_total (x y : spec_float) :
  is_number x = true -> is_number y = true ->
  fltb x y = false -> fleb y x = true.
Proof.
  unfold fltb, SFltb, fleb, SFleb. rewrite (SFcompare_swap x y).
  destruct x as [s|s| |s m e], y as [s'|s'| |s' m' e']; cbn [is_number];
    try discriminate; intros _ _;
    destruct (SFcompare _ _) as [[| |]|] eqn:E; cbn; try discriminate;
    try reflexivity;
    cbn in E; try discriminate E;
    try (destruct s; discriminate E); try (destruct s'; discriminate E);
    try (destruct s, s'; discriminate E).
Qed.

Lemma fltb_fleb_trans (x y z : spec_float) :
  fltb x y = true -> fleb y z = true -> fleb x z = true.
Proof.
  unfold fltb, SFltb, fleb, SFleb.
  destruct x as [s|s| |s m e], y as [s'|s'| |s' m' e'],
           z as [s''|s''| |s'' m'' e'']; cbn;
    try discriminate; try reflexivity;
    try (destruct s; try discriminate; try reflexivity;
         destruct s'; try discriminate; try reflexivity;
         destruct s''; try discriminate; reflexivity);
    try (destruct s; try discriminate; try reflexivity;
         destruct s'; try discriminate; reflexivity);
    try (destruct s; try discriminate; try reflexivity;
         destruct s''; try discriminate; reflexivity);
    try (destruct s'; try discriminate; try reflexivity;
         destruct s''; try discriminate; reflexivity).
  all: change (Pos.compare_cont Eq m m') with (m ?= m')%positive;
       change (Pos.compare_cont Eq m' m'') with (m' ?= m'')%positive;
       change (Pos.compare_cont Eq m m'') with (m ?= m'')%positive.
  all: destruct s, s', s''; try discriminate; try reflexivity;
       destruct (Z.compare_spec e e'); destruct (Z.compare_spec e' e'');
       destruct (Z.compare_spec e e''); try discriminate; try reflexivity;
       try lia;
       destruct (Pos.compare_spec m m'); destruct (Pos.compare_spec m' m'');
       destruct (Pos.compare_spec m m''); cbn; try discriminate;
       try reflexivity; try lia.
Qed.

(** *** Prices *)

Lemma odict_set_Forall {V} (P : V -> Prop) (d : list (str * V)) (k : str)
    (v : V) :
  Forall P (odict_values d) -> P v -> Forall P (odict_values (odict_set d k v)).
Proof.
  intros Hall Hv. induction d as [|[k' v'] d IH]; cbn.
  - constructor; [exact Hv|constructor].
  - apply Forall_cons in Hall as [Hv' Hall].
    destruct (str_eqb k' k); cbn; constructor; auto.
Qed.

Lemma odict_get_value {V} (P : V -> Prop) (d : list (str * V)) (k : str)
    (v : V) :
  Forall P (odict_values d) -> odict_get d k = Some v -> P v.
Proof.
  intros Hall Hg. apply odict_get_In in Hg.
  rewrite Forall_forall in Hall. apply Hall.
  apply list_elem_of_In. apply (in_map snd) in Hg. exact Hg.
Qed.

Lemma update_price_lowest (item : WatchlistEntry) (new_price : spec_float) :
  is_number new_price = true -> lowest_is_lowest item ->
  lowest_is_lowest
    (if fltb new_price
               (lowest_price_seen (set_current_price item new_price))
     then set_lowest_price_seen (set_current_price item new_price) new_price
     else set_current_price item new_price).
Proof.
  intros Hn [Hc Ha]. cbn [set_current_price lowest_price_seen].
  destruct (fltb new_price (lowest_price_seen item)) eqn:E;
    unfold lowest_is_lowest; cbn.
  - split; [apply fleb_refl; exact Hn|].
    exact (fltb_fleb_trans _ _ _ E Ha).
  - split; [|exact Ha].
    apply fleb_total; [exact Hn| |exact E].
    exact (proj1 (fleb_is_number _ _ Ha)).
Qed.

Lemma after_call_lowest (round_2 : spec_float -> spec_float)
    (store : WatchlistStore) (call : WatchlistCall) :
  forallb is_number (call_prices call) = true ->
  Forall lowest_is_lowest (odict_values (_watchlist store)) ->
  Forall lowest_is_lowest
         (odict_values (_watchlist (after_call round_2 store call))).
Proof.
  intros Hp Hall.
  destruct call as [request now|item_id t n|item_id|item_id p];
    cbn [after_call].
  - unfold add_to_watchlist. destruct (existsb _ _); [exact Hall|].
    cbn [snd _watchlist]. apply odict_set_Forall; [exact Hall|].
    cbn in Hp. apply andb_true_iff in Hp as [Hp _].
    split; cbn; apply fleb_refl; exact Hp.
  - unfold update_watchlist_item.
    destruct (odict_get _ _) as [item|] eqn:Hg; [|exact Hall].
    cbn [snd store_item _watchlist]. apply odict_set_Forall; [exact Hall|].
    pose proof (odict_get_value _ _ _ _ Hall Hg) as Hi.
    destruct t, n; exact Hi.
  - unfold remove_from_watchlist.
    destruct (odict_get _ _) as [item|] eqn:Hg; [|exact Hall].
    cbn [snd store_item _watchlist]. apply odict_set_Forall; [exact Hall|].
    exact (odict_get_value _ _ _ _ Hall Hg).
  - unfold update_item_price.
    destruct (odict_get _ _) as [item|] eqn:Hg; [|exact Hall].
    cbn [snd store_item _watchlist]. apply odict_set_Forall; [exact Hall|].
    cbn in Hp. apply andb_true_iff in Hp as [Hp _].
    apply update_price_lowest; [exact Hp|].
    exact (odict_get_value _ _ _ _ Hall Hg).
Qed.

(** X9: as long as no price that comes in is NaN, the lowest price seen of
    every item is at most its current price and at most its price at add,
    after any sequence of calls. *)
Theorem watchlist_lowest_price (round_2 : spec_float -> spec_float)
    (calls : list WatchlistCall) :
  Forall (fun call => forallb is_number (call_prices call) = true) calls ->
  Forall lowest_is_lowest
    (odict_values (_watchlist (after_calls round_2 empty_store calls))).
Proof.
  assert (Hgen : forall store,
    Forall (fun call => forallb is_number (call_prices call) = true) calls ->
    Forall lowest_is_lowest (odict_values (_watchlist store)) ->
    Forall lowest_is_lowest
      (odict_values (_watchlist (after_calls round_2 store calls)))).
  { induction calls as [|call calls IH]; intros store Hp Hall; [exact Hall|].
    apply Forall_cons in Hp as [Hp Hps]. cbn. apply IH; [exact Hps|].
    apply after_call_lowest; assumption. }
  intros Hp. apply Hgen; [exact Hp|constructor].
Qed.

(** *** Duplicates *)

Lemma odict_set_existsb_present {V} (f : V -> bool) (d : list (str * V))
    (k : str) (old v : V) :
  odict_get d k = Some old -> f v = f old ->
  existsb f (odict_values (odict_set d k v)) = existsb f (odict_values d).
Proof.
  intros Hg Hf.
  destruct (odict_set_present _ _ _ v Hg) as (d1 & d2 & -> & -> & _).
  unfold odict_values. rewrite !map_app, !existsb_app. cbn. rewrite Hf.
  reflexivity.
Qed.

Lemma odict_set_existsb_absent {V} (f : V -> bool) (d : list (str * V))
    (k : str) (v : V) :
  odict_get d k = None ->
  existsb f (odict_values (odict_set d k v))
  = existsb f (odict_values d) || f v.
Proof.
  intros Hg. rewrite (odict_set_absent _ _ _ Hg).
  unfold odict_values. rewrite map_app, existsb_app. cbn.
  rewrite orb_false_r. reflexivity.
Qed.

Lemma fresh_id (store : WatchlistStore) :
  well_keyed store ->
  odict_get (_watchlist store) (str_of_N (_watchlist_counter store + 1)) = None.
Proof.
  intros [Hkeys _]. apply odict_get_None. rewrite Hkeys.
  apply first_ids_fresh.
Qed.

Lemma after_call_still_watched (round_2 : spec_float -> spec_float)
    (request : WatchlistAddRequest) (store : WatchlistStore)
    (call : WatchlistCall) :
  well_keyed store ->
  existsb (same_watch request) (odict_values (_watchlist store)) = true ->
  existsb (same_watch request)
          (odict_values (_watchlist (after_call round_2 store call))) = true.
Proof.
  intros Hwk Hex.
  destruct call as [request0 now|item_id t n|item_id|item_id p];
    cbn [after_call].
  - unfold add_to_watchlist. destruct (existsb (same_watch request0) _);
      [exact Hex|].
    cbn [snd _watchlist].
    rewrite odict_set_existsb_absent by (apply fresh_id; exact Hwk).
    rewrite Hex. reflexivity.
  - unfold update_watchlist_item.
    destruct (odict_get _ _) as [item|] eqn:Hg; [|exact Hex].
    cbn [snd store_item _watchlist].
    rewrite (odict_set_existsb_present _ _ _ item); [exact Hex|exact Hg|].
    destruct t, n; reflexivity.
  - unfold remove_from_watchlist.
    destruct (odict_get _ _) as [item|] eqn:Hg; [|exact Hex].
    cbn [snd store_item _watchlist].
    rewrite (odict_set_existsb_present _ _ _ item); [exact Hex|exact Hg|].
    reflexivity.
  - unfold update_item_price.
    destruct (odict_get _ _) as [item|] eqn:Hg; [|exact Hex].
    cbn [snd store_item _watchlist].
    rewrite (odict_set_existsb_present _ _ _ item); [exact Hex|exact Hg|].
    destruct (fltb _ _); reflexivity.
Qed.

Lemma after_calls_still_watched (round_2 : spec_float -> spec_float)
    (request : WatchlistAddRequest) (calls : list WatchlistCall)
    (store : WatchlistStore) :
  well_keyed store ->
  existsb (same_watch request) (odict_values (_watchlist store)) = true ->
  existsb (same_watch request)
          (odict_values (_watchlist (after_calls round_2 store calls))) = true.
Proof.
  revert store. induction calls as [|call calls IH]; intros store Hwk Hex;
    [exact Hex|].
  cbn. apply IH.
  - apply after_call_keyed. exact Hwk.
  - apply after_call_still_watched; assumption.
Qed.

(** X10: a product watched once cannot be added again by the same user,
    whatever happens in between: once an addition is accepted, every later
    addition with the same e-mail, product and shop is rejected with status
    400 and leaves the store as it is, also after the item was removed
    (the removal is a soft delete). *)
Theorem watchlist_duplicate_rejected (round_2 : spec_float -> spec_float)
    (calls_before calls_after : list WatchlistCall)
    (request request' : WatchlistAddRequest) (now now' : str)
    (response : WatchlistItem) (store' : WatchlistStore) :
  add_to_watchlist (after_calls round_2 empty_store calls_before) request now
    = (Ok response, store') ->
  r_user_email request' = r_user_email request ->
  r_product_id request' = r_product_id request ->
  r_shop_id request' = r_shop_id request ->
  add_to_watchlist (after_calls round_2 store' calls_after) request' now'
  = (HTTPException 400 (lit "Item already in watchlist"),
     after_calls round_2 store' calls_after).
Proof.
  intros Hadd He Hp Hs.
  pose proof (after_calls_keyed round_2 calls_before empty_store
                empty_store_keyed) as Hwk.
  set (store := after_calls round_2 empty_store calls_before) in *.
  pose proof (add_to_watchlist_keyed store request now Hwk) as Hwk'.
  rewrite Hadd in Hwk'. cbn [snd] in Hwk'.
  assert (Hex : existsb (same_watch request')
                        (odict_values (_watchlist store')) = true).
  { unfold add_to_watchlist in Hadd.
    destruct (existsb (same_watch request) _); [discriminate Hadd|].
    injection Hadd as _ <-. cbn [_watchlist].
    rewrite odict_set_existsb_absent by (apply fresh_id; exact Hwk).
    apply orb_true_iff. right. unfold same_watch. cbn.
    rewrite He, Hp, Hs, !str_eqb_refl. reflexivity. }
  unfold add_to_watchlist at 1.
  rewrite (after_calls_still_watched round_2 request' calls_after store'
             Hwk' Hex).
  reflexivity.
Qed.

Lemma watchlist_lowest_price_witness :
  Forall lowest_is_lowest
    (odict_values (_watchlist (after_calls unrounded empty_store hoodie_calls))).
Proof.
  apply (watchlist_lowest_price unrounded hoodie_calls).
  repeat constructor.
Defined.

Lemma watchlist_duplicate_rejected_witness :
  add_to_watchlist
    (after_calls unrounded
       (snd (add_to_watchlist empty_store hoodie_request (lit "t0")))
       [call_remove (lit "1")])
    hoodie_request (lit "t1")
  = (HTTPException 400 (lit "Item already in watchlist"),
     after_calls unrounded
       (snd (add_to_watchlist empty_store hoodie_request (lit "t0")))
       [call_remove (lit "1")]).
Proof.
  apply (watchlist_duplicate_rejected unrounded [] [call_remove (lit "1")]
           hoodie_request hoodie_request (lit "t0") (lit "t1")
           {| wi_item := new_item empty_store hoodie_request (lit "t0");
              price_change_percent := f0_0 |});
    reflexivity.
Defined.

(** *** Adding and reading back *)

Lemma add_to_watchlist_accepted (store store' : WatchlistStore)
    (request : WatchlistAddRequest) (now : str) (response : WatchlistItem) :
  well_keyed store ->
  add_to_watchlist store request now = (Ok response, store') ->
  response = {| wi_item := new_item store request now;
                price_change_percent := f0_0 |} /\
  _watchlist store'
    = _watchlist store
      ++ [(str_of_N (_watchlist_counter store + 1),
           new_item store request now)] /\
  _watchlist_counter store' = (_watchlist_counter store + 1)%N.
Proof.
  intros Hwk. unfold add_to_watchlist.
  destruct (existsb _ _); [discriminate|].
  intros [= <- <-]. cbn [_watchlist _watchlist_counter].
  rewrite (odict_set_absent _ _ _ (fresh_id store Hwk)).
  repeat split; reflexivity.
Qed.

Lemma odict_get_app_absent {V} (d : list (str * V)) (k k0 : str) (v : V) :
  odict_get (d ++ [(k, v)]) k0
  = match odict_get d k0 with
    | Some v0 => Some v0
    | None => if str_eqb k k0 then Some v else None
    end.
Proof.
  induction d as [|[k' v'] d IH]; cbn; [reflexivity|].
  destruct (str_eqb k' k0); [reflexivity|exact IH].
Qed.

(** X11: an accepted addition can be read back: the new item gets the next
    id, is returned by [get_watchlist_item] under that id with the fields
    of the request (price at add, current and lowest price all equal to
    the requested price, active), comes last in the listing of its user,
    and no other id is affected. *)
Theorem watchlist_add_then_get (round_2 : spec_float -> spec_float)
    (calls : list WatchlistCall) (request : WatchlistAddRequest) (now : str)
    (response : WatchlistItem) (store' : WatchlistStore) :
  let store := after_calls round_2 empty_store calls in
  add_to_watchlist store request now = (Ok response, store') ->
  wi_item response = new_item store request now /\
  get_watchlist_item round_2 store' (w_id (wi_item response))
    = Ok (to_response round_2 (wi_item response)) /\
  (forall item_id, item_id <> w_id (wi_item response) ->
     get_watchlist_item round_2 store' item_id
     = get_watchlist_item round_2 store item_id) /\
  get_watchlist round_2 store' (r_user_email request)
  = (fst (get_watchlist round_2 store (r_user_email request))
       ++ [to_response round_2 (wi_item response)],
     S (snd (get_watchlist round_2 store (r_user_email request)))).
Proof.
  intros store Hadd.
  pose proof (after_calls_keyed round_2 calls empty_store empty_store_keyed)
    as Hwk. fold store in Hwk.
  destruct (add_to_watchlist_accepted _ _ _ _ _ Hwk Hadd) as (-> & Hw & Hc).
  cbn [wi_item]. split; [reflexivity|].
  pose proof (fresh_id store Hwk) as Hfresh.
  split; [|split].
  - unfold get_watchlist_item. rewrite Hw, odict_get_app_absent.
    cbn [new_item w_id]. rewrite Hfresh, str_eqb_refl. reflexivity.
  - intros item_id Hne. unfold get_watchlist_item.
    rewrite Hw, odict_get_app_absent.
    destruct (odict_get (_watchlist store) item_id); [reflexivity|].
    rewrite str_eqb_neq; [reflexivity|].
    intros E. apply Hne. rewrite <- E. reflexivity.
  - unfold get_watchlist. rewrite Hw. unfold odict_values.
    rewrite map_app, List.filter_app, map_app, length_app. cbn [map snd List.filter].
    cbn [new_item user_email is_active]. rewrite str_eqb_refl.
    cbn [andb map length fst snd]. f_equal. lia.
Qed.

Lemma watchlist_add_then_get_witness :
  get_watchlist_item unrounded
    (snd (add_to_watchlist empty_store hoodie_request (lit "t0"))) (lit "1")
  = Ok (to_response unrounded (new_item empty_store hoodie_request (lit "t0"))).
Proof.
  exact (proj1 (proj2
    (watchlist_add_then_get unrounded [] hoodie_request (lit "t0")
       {| wi_item := new_item empty_store hoodie_request (lit "t0");
          price_change_percent := f0_0 |}
       (snd (add_to_watchlist empty_store hoodie_request (lit "t0")))
       eq_refl))).
Defined.

(** *** Removing *)

Lemma odict_set_set {V} (d : list (str * V)) (k : str) (v v' : V) :
  odict_set (odict_set d k v) k v' = odict_set d k v'.
Proof.
  induction d as [|[k0 v0] d IH]; cbn.
  - rewrite str_eqb_refl. reflexivity.
  - destruct (str_eqb k0 k) eqn:E; cbn; rewrite E; [reflexivity|].
    rewrite IH. reflexivity.
Qed.

Lemma listed_item (round_2 : spec_float -> spec_float)
    (store : WatchlistStore) (email : str) (r : WatchlistItem) :
  In r (fst (get_watchlist round_2 store email)) ->
  exists item, r = to_response round_2 item /\
    In item (odict_values (_watchlist store)) /\
    user_email item = email /\ is_active item = true.
Proof.
  unfold get_watchlist. cbn [fst]. intros Hin.
  apply in_map_iff in Hin as (item & <- & Hin).
  apply List.filter_In in Hin as [Hin Hf].
  apply andb_true_iff in Hf as [He Ha]. apply str_eqb_eq in He.
  exists item. auto.
Qed.

(** X12: removing is a soft delete: the item stays in the store under its
    id, marked inactive, and [get_watchlist_item] still returns it, while
    no listing shows it any more; the other items are untouched, and
    removing it again succeeds once more and changes nothing. *)
Theorem watchlist_soft_delete (round_2 : spec_float -> spec_float)
    (calls : list WatchlistCall) (item_id : str) (message : str)
    (store' : WatchlistStore) :
  let store := after_calls round_2 empty_store calls in
  remove_from_watchlist store item_id = (Ok message, store') ->
  (exists item,
     get_watchlist_item round_2 store item_id = Ok (to_response round_2 item)
     /\ get_watchlist_item round_2 store' item_id
        = Ok (to_response round_2 (set_is_active item false))) /\
  (forall email,
     Forall (fun r => w_id (wi_item r) <> item_id)
            (fst (get_watchlist round_2 store' email))) /\
  (forall other, other <> item_id ->
     get_watchlist_item round_2 store' other
     = get_watchlist_item round_2 store other) /\
  remove_from_watchlist store' item_id = (Ok message, store') /\
  map fst (_watchlist store') = map fst (_watchlist store).
Proof.
  intros store Hrm.
  pose proof (after_calls_keyed round_2 calls empty_store empty_store_keyed)
    as Hwk. fold store in Hwk.
  unfold remove_from_watchlist in Hrm.
  destruct (odict_get (_watchlist store) item_id) as [item|] eqn:Hg;
    [|discriminate Hrm].
  injection Hrm as <- <-.
  assert (Hwk' : well_keyed (store_item store item_id (set_is_active item false))).
  { apply (store_item_keyed _ _ item); [exact Hwk|exact Hg|reflexivity]. }
  assert (Hg' : odict_get (_watchlist (store_item store item_id
                                         (set_is_active item false))) item_id
                = Some (set_is_active item false)).
  { apply odict_get_set_eq. }
  split; [|split; [|split; [|split]]].
  - exists item. unfold get_watchlist_item. rewrite Hg, Hg'. auto.
  - intros email. apply Forall_forall. intros r Hr Hid.
    apply list_elem_of_In, listed_item in Hr as (it & -> & Hin & _ & Hact).
    cbn [to_response wi_item] in Hid.
    apply in_map_iff in Hin as ([k it'] & E & Hin). cbn in E. subst it'.
    pose proof (proj2 Hwk') as Hall. rewrite Forall_forall in Hall.
    pose proof (Hall _ (proj2 (list_elem_of_In _ _) Hin)) as Hk. cbn in Hk.
    rewrite Hid in Hk. subst k.
    rewrite (odict_In_get _ _ _ (well_keyed_NoDup _ Hwk') Hin) in Hg'.
    injection Hg' as ->. discriminate Hact.
  - intros other Hne. unfold get_watchlist_item, store_item.
    cbn [_watchlist]. rewrite odict_get_set_ne; [reflexivity|].
    intros E. apply Hne. rewrite E. reflexivity.
  - unfold remove_from_watchlist. rewrite Hg'. f_equal.
    unfold store_item. cbn [_watchlist _watchlist_counter].
    rewrite odict_set_set. reflexivity.
  - destruct (odict_set_present _ _ _ (set_is_active item false) Hg)
      as (d1 & d2 & Hd & Hd' & _).
    unfold store_item. cbn [_watchlist]. rewrite Hd', Hd, !map_app.
    reflexivity.
Qed.

Lemma watchlist_soft_delete_witness :
  get_watchlist unrounded
    (snd (remove_from_watchlist
            (after_calls unrounded empty_store hoodie_calls) (lit "1")))
    (lit "anna@example.se")
  = ([], 0%nat) /\
  Forall (fun r => w_id (wi_item r) <> lit "1")
    (fst (get_watchlist unrounded
            (snd (remove_from_watchlist
                    (after_calls unrounded empty_store hoodie_calls) (lit "1")))
            (lit "anna@example.se"))).
Proof.
  split; [vm_compute; reflexivity|].
  exact (proj1 (proj2
    (watchlist_soft_delete unrounded hoodie_calls (lit "1")
       (lit "Item removed from watchlist")
       (snd (remove_from_watchlist
               (after_calls unrounded empty_store hoodie_calls) (lit "1")))
       eq_refl)) (lit "anna@example.se")).
Defined.

(** ** The feed adapter *)

(** *** Sorting by decreasing key *)

Lemma insert_by_key_In {A} (key : A -> spec_float) (x y : A) (l : list A) :
  In y (insert_by_key key x l) <-> y = x \/ In y l.
Proof.
  induction l as [|z l IH]; cbn; [intuition congruence|].
  destruct (fltb (key z) (key x)); cbn; [intuition congruence|].
  rewrite IH. intuition congruence.
Qed.

Lemma insert_by_key_length {A} (key : A -> spec_float) (x : A) (l : list A) :
  length (insert_by_key key x l) = S (length l).
Proof.
  induction l as [|z l IH]; cbn; [reflexivity|].
  destruct (fltb (key z) (key x)); cbn; [reflexivity|]. rewrite IH.
  reflexivity.
Qed.

Lemma decreasing_tail {A} (key : A -> spec_float) (a : A) (l : list A) :
  decreasing key (a :: l) -> decreasing key l.
Proof. cbn. intros [_ H]. exact H. Qed.

Lemma insert_by_key_decreasing {A} (key : A -> spec_float) (x : A)
    (l : list A) :
  is_number (key x) = true -> Forall (fun y => is_number (key y) = true) l ->
  decreasing key l -> decreasing key (insert_by_key key x l).
Proof.
  intros Hx Hl Hd. induction l as [|z l IH]; cbn; [auto|].
  apply Forall_cons in Hl as [Hz Hl].
  destruct (fltb (key z) (key x)) eqn:E.
  - split; [|exact Hd].
    unfold fltb, SFltb in E. unfold fleb, SFleb.
    destruct (SFcompare (key z) (key x)) as [[| |]|]; try discriminate E.
    reflexivity.
  - pose proof (IH Hl (decreasing_tail _ _ _ Hd)) as IH'.
    split; [|exact IH'].
    destruct l as [|w l]; cbn.
    + apply fleb_total; assumption.
    + destruct (fltb (key w) (key x)).
      * apply fleb_total; assumption.
      * exact (proj1 Hd).
Qed.

Lemma sort_reverse_acc {A} (key : A -> spec_float) (xs acc : list A) :
  let sorted := fold_left (fun sorted x => insert_by_key key x sorted) xs acc in
  (forall y, In y sorted <-> In y acc \/ In y xs) /\
  length sorted = (length acc + length xs)%nat /\
  (Forall (fun y => is_number (key y) = true) (acc ++ xs) ->
   decreasing key acc -> decreasing key sorted).
Proof.
  revert acc. induction xs as [|x xs IH]; intros acc; cbn.
  - split; [intros y; tauto|]. split; [lia|]. auto.
  - destruct (IH (insert_by_key key x acc)) as (Hin & Hlen & Hdec).
    split; [|split].
    + intros y. rewrite Hin, insert_by_key_In. intuition congruence.
    + rewrite Hlen, insert_by_key_length. lia.
    + intros Hn Hd. apply Forall_app in Hn as [Ha Hxs].
      apply Forall_cons in Hxs as [Hx Hxs].
      apply Hdec.
      * apply Forall_app. split; [|exact Hxs].
        apply Forall_forall. intros y Hy.
        apply list_elem_of_In, insert_by_key_In in Hy as [->|Hy]; [exact Hx|].
        rewrite Forall_forall in Ha. apply Ha, list_elem_of_In, Hy.
      * apply insert_by_key_decreasing; assumption.
Qed.

Lemma firstn_decreasing {A} (key : A -> spec_float) (n : nat) (l : list A) :
  decreasing key l -> decreasing key (firstn n l).
Proof.
  revert l. induction n as [|n IH]; intros l Hd; [exact I|].
  destruct l as [|a l]; [exact I|].
  cbn [firstn]. destruct Hd as [Hh Ht]. split; [|apply IH; exact Ht].
  destruct l as [|b l]; [destruct n; exact I|].
  destruct n; [exact I|exact Hh].
Qed.

Lemma slice_to_decreasing {A} (key : A -> spec_float) (l : list A) (n : Z) :
  decreasing key l -> decreasing key (slice_to l n).
Proof. unfold slice_to. destruct (0 <=? n); apply firstn_decreasing. Qed.

Lemma slice_to_In {A} (l : list A) (n : Z) (x : A) :
  In x (slice_to l n) -> In x l.
Proof.
  assert (Hsub : forall k, In x (firstn k l) -> In x l).
  { intros k Hin. rewrite <- (firstn_skipn k l). apply in_or_app. left.
    exact Hin. }
  unfold slice_to. destruct (0 <=? n); apply Hsub.
Qed.

Lemma slice_to_length {A} (l : list A) (n : Z) :
  (length (slice_to l n) <= length l)%nat /\
  (0 <= n -> Z.of_nat (length (slice_to l n)) <= n).
Proof.
  unfold slice_to. destruct (Z.leb_spec 0 n); rewrite length_firstn; lia.
Qed.

(** *** Searching the feed *)

Lemma relevance_in_range `{StrOps} (p : ProductResult) (q : SearchQuery) :
  fleb f0_0 (calculate_relevance p q) = true /\
  fleb (calculate_relevance p q) f1_0 = true.
Proof.
  destruct (unclamped_score_sign p q) as (s & -> & Hsign).
  apply clamp_in_unit_interval. exact Hsign.
Qed.

Lemma search_loop_acc `{StrOps} (q : SearchQuery)
    (products stored : list (str * ProductResult))
    (results : list ProductResult) :
  fold_left
    (fun '(results, stored) '(external_id, product) =>
       if found_by q product
       then let product :=
              set_relevance_score product (calculate_relevance product q) in
            (results ++ [product], stored ++ [(external_id, product)])
       else (results, stored ++ [(external_id, product)]))
    products (results, stored)
  = (results
       ++ map (fun p => set_relevance_score p (calculate_relevance p q))
              (List.filter (found_by q) (odict_values products)),
     stored
       ++ map (fun kp => (fst kp,
                          if found_by q (snd kp)
                          then set_relevance_score (snd kp)
                                 (calculate_relevance (snd kp) q)
                          else snd kp)) products).
Proof.
  revert results stored.
  induction products as [|[k p] products IH]; intros results stored; cbn.
  - rewrite !app_nil_r. reflexivity.
  - destruct (found_by q p); rewrite IH; cbn; rewrite <- !app_assoc;
      reflexivity.
Qed.

(** What a successful [search] returns, in terms of the products held when
    the loop starts. *)
Lemma FeedAdapter_search_inv `{StrOps}
    (fetch : ShopConfig -> result (list ProductResult))
    (self self' : FeedAdapter) (q : SearchQuery) (results : list ProductResult) :
  FeedAdapter_search fetch self q = Returned (results, self') ->
  exists loaded,
    ensure_products fetch self = Returned loaded /\
    results
    = slice_to
        (sort_reverse relevance_score
           (map (fun p => set_relevance_score p (calculate_relevance p q))
                (List.filter (found_by q) (odict_values (_products loaded)))))
        (limit q) /\
    map fst (_products self') = map fst (_products loaded).
Proof.
  unfold FeedAdapter_search. intros Hs.
  apply bind_returned in Hs as (loaded & He & Hs).
  exists loaded. split; [exact He|].
  unfold search_loop in Hs. rewrite search_loop_acc in Hs.
  cbn [app] in Hs. injection Hs as <- <-. split; [reflexivity|].
  cbn [_products]. rewrite map_map. reflexivity.
Qed.

(** X13: every product that [FeedAdapter.search] returns is one of the
    products held, with its relevance score assigned: it passes every
    filter of the query (in particular its price lies within the non-zero
    price bounds and its text holds one of the query's terms), and the
    score it carries is its relevance for the query, within [0, 1]. *)
Theorem FeedAdapter_search_sound (ops : StrOps)
    (fetch : ShopConfig -> result (list ProductResult))
    (self self' : FeedAdapter) (q : SearchQuery) (results : list ProductResult) :
  FeedAdapter_search fetch self q = Returned (results, self') ->
  exists loaded,
    ensure_products fetch self = Returned loaded /\
    Forall (fun r =>
      (exists p, In p (odict_values (_products loaded)) /\
                 r = set_relevance_score p (calculate_relevance p q)) /\
      found_by q r = true /\
      relevance_score r = calculate_relevance r q /\
      fleb f0_0 (relevance_score r) = true /\
      fleb (relevance_score r) f1_0 = true /\
      (forall lo, min_price q = Some lo -> is_zero lo = false ->
                  dge (price r) lo = true) /\
      (forall hi, max_price q = Some hi -> is_zero hi = false ->
                  dle (price r) hi = true) /\
      existsb (fun term => contains term (search_text_of r))
              (split (lower (query q))) = true) results.
Proof.
  intros Hs.
  destruct (FeedAdapter_search_inv fetch self self' q results Hs)
    as (loaded & He & -> & _).
  exists loaded. split; [exact He|].
  apply Forall_forall. intros r Hr.
  apply list_elem_of_In, slice_to_In in Hr.
  apply (proj1 (sort_reverse_acc relevance_score _ [])) in Hr.
  destruct Hr as [[]|Hr].
  apply in_map_iff in Hr as (p & <- & Hp).
  apply List.filter_In in Hp as [Hp Hf].
  split; [exists p; auto|].
  assert (Hf' : found_by q (set_relevance_score p (calculate_relevance p q))
                = true) by exact Hf.
  split; [exact Hf'|].
  assert (Hrel : calculate_relevance
                   (set_relevance_score p (calculate_relevance p q)) q
                 = calculate_relevance p q).
  { apply calculate_relevance_ext; reflexivity. }
  cbn [relevance_score set_relevance_score].
  split; [symmetry; exact Hrel|].
  destruct (relevance_in_range p q) as [H0 H1].
  split; [exact H0|]. split; [exact H1|].
  unfold found_by in Hf.
  repeat (apply andb_true_iff in Hf as [Hf ?]).
  split; [|split].
  - intros lo Hlo Hz. cbn [price set_relevance_score].
    match goal with Hm : min_price_filter q p = true |- _ =>
      unfold min_price_filter in Hm; rewrite Hlo in Hm; cbn in Hm;
      rewrite Hz in Hm; cbn in Hm end.
    rewrite dlt_not_dge in *.
    match goal with Hm : negb (negb _) = true |- _ =>
      rewrite negb_involutive in Hm; exact Hm end.
  - intros hi Hhi Hz. cbn [price set_relevance_score].
    match goal with Hm : max_price_filter q p = true |- _ =>
      unfold max_price_filter in Hm; rewrite Hhi in Hm; cbn in Hm;
      rewrite Hz in Hm; cbn in Hm end.
    unfold dgt in *. rewrite dlt_not_dge in *. unfold dge in *.
    match goal with Hm : negb (negb _) = true |- _ =>
      rewrite negb_involutive in Hm; exact Hm end.
  - match goal with Hm : text_filter q p = true |- _ => exact Hm end.
Qed.

Lemma FeedAdapter_search_sound_witness :
  exists results self',
    FeedAdapter_search (H:=ascii_ops) four_rows_feed unloaded_feed
      nike_hoodie_query = Returned (results, self') /\
    Forall (fun r => relevance_score r
                     = calculate_relevance (H:=ascii_ops) r nike_hoodie_query)
           results /\
    length results = 3%nat.
Proof.
  eexists _, _. split; [vm_compute; reflexivity|].
  split; [|reflexivity].
  destruct (FeedAdapter_search_sound ascii_ops four_rows_feed unloaded_feed
              _ nike_hoodie_query _ ltac:(vm_compute; reflexivity))
    as (loaded & _ & Hall).
  eapply Forall_impl; [exact Hall|].
  intros r Hr. exact (proj1 (proj2 (proj2 Hr))).
Defined.

(** X14: [FeedAdapter.search] returns its results by decreasing relevance,
    at most [limit] of them when the limit is not negative, and never more
    than there are products; the keys of the stored products are as
    before. *)
Theorem FeedAdapter_search_ranked (ops : StrOps)
    (fetch : ShopConfig -> result (list ProductResult))
    (self self' : FeedAdapter) (q : SearchQuery) (results : list ProductResult) :
  FeedAdapter_search fetch self q = Returned (results, self') ->
  decreasing relevance_score results /\
  (0 <= limit q -> Z.of_nat (length results) <= limit q) /\
  (length results <= length (_products self'))%nat /\
  exists loaded,
    ensure_products fetch self = Returned loaded /\
    map fst (_products self') = map fst (_products loaded).
Proof.
  intros Hs.
  destruct (FeedAdapter_search_inv fetch self self' q results Hs)
    as (loaded & He & -> & Hkeys).
  set (found := map (fun p => set_relevance_score p (calculate_relevance p q))
                    (List.filter (found_by q) (odict_values (_products loaded)))).
  destruct (sort_reverse_acc relevance_score found []) as (_ & Hlen & Hdec).
  cbv zeta in Hlen, Hdec. fold (sort_reverse relevance_score found) in Hlen, Hdec.
  destruct (slice_to_length (sort_reverse relevance_score found) (limit q))
    as [Hle Hlim].
  split; [|split; [exact Hlim|split]].
  - apply slice_to_decreasing. apply Hdec; [|exact I].
    cbn [app]. apply Forall_forall. intros r Hr.
    apply list_elem_of_In, in_map_iff in Hr as (p & <- & _).
    cbn [relevance_score set_relevance_score].
    exact (proj2 (fleb_is_number _ _ (proj1 (relevance_in_range p q)))).
  - rewrite <- (length_map fst (_products self')), Hkeys, length_map.
    etransitivity; [exact Hle|]. rewrite Hlen. cbn [length Nat.add].
    subst found. rewrite length_map.
    etransitivity; [apply List.filter_length_le|].
    unfold odict_values. rewrite length_map. reflexivity.
  - exists loaded. auto.
Qed.

Lemma FeedAdapter_search_ranked_witness :
  exists results self',
    FeedAdapter_search (H:=ascii_ops) four_rows_feed unloaded_feed
      nike_hoodie_query = Returned (results, self') /\
    decreasing relevance_score results.
Proof.
  eexists _, _. split; [vm_compute; reflexivity|].
  exact (proj1 (FeedAdapter_search_ranked ascii_ops four_rows_feed
                  unloaded_feed _ nike_hoodie_query _
                  ltac:(vm_compute; reflexivity))).
Defined.

Lemma ensure_products_empty
    (fetch : ShopConfig -> result (list ProductResult)) (self : FeedAdapter) :
  _products self = [] ->
  ensure_products fetch self
  = if str_truthy (feed_url (fa_config self))
    then products ← fetch (fa_config self);
         Returned {| fa_config := fa_config self;
                     _products := products_by_id products |}
    else Returned self.
Proof.
  intros He. unfold ensure_products, FeedAdapter_import_feed. rewrite He.
  destruct (str_truthy _); cbn; [|reflexivity].
  destruct (fetch _); reflexivity.
Qed.

(** X15: when nothing can be found: a query without terms (empty or blank)
    finds nothing, whatever the feed holds; an adapter without a feed URL
    returns the empty list without fetching anything; and when the feed
    cannot be fetched the search raises, which the orchestrator turns into
    an empty result for that shop. *)
Theorem FeedAdapter_search_nothing (ops : StrOps)
    (fetch : ShopConfig -> result (list ProductResult))
    (self : FeedAdapter) (q : SearchQuery) :
  (split (lower (query q)) = [] ->
   forall results self',
     FeedAdapter_search fetch self q = Returned (results, self') ->
     results = []) /\
  (_products self = [] -> str_truthy (feed_url (fa_config self)) = false ->
   FeedAdapter_search fetch self q = Returned ([], self)) /\
  (_products self = [] -> str_truthy (feed_url (fa_config self)) = true ->
   fetch (fa_config self) = Raised ->
   FeedAdapter_search fetch self q = Raised /\
   search_shop q (feed_adapter fetch self) = Returned []).
Proof.
  split; [|split].
  - intros Hq results self' Hs.
    destruct (FeedAdapter_search_inv fetch self self' q results Hs)
      as (loaded & _ & -> & _).
    assert (Hnone : List.filter (found_by q) (odict_values (_products loaded))
                    = []).
    { clear Hs.
      induction (odict_values (_products loaded)) as [|p l IH];
        [reflexivity|].
      cbn. unfold found_by at 1, text_filter. rewrite Hq. cbn.
      rewrite !andb_false_r. exact IH. }
    rewrite Hnone. unfold slice_to. cbn.
    destruct (0 <=? limit q); apply firstn_nil.
  - intros He Hu. unfold FeedAdapter_search.
    rewrite (ensure_products_empty fetch self He), Hu. cbn.
    rewrite He. cbn. unfold slice_to.
    destruct (0 <=? limit q); rewrite firstn_nil; destruct self; cbn in *;
      subst; reflexivity.
  - intros He Hu Hf.
    assert (Hs : FeedAdapter_search fetch self q = Raised).
    { unfold FeedAdapter_search.
      rewrite (ensure_products_empty fetch self He), Hu, Hf. reflexivity. }
    split; [exact Hs|].
    unfold search_shop, feed_adapter. cbn [search]. rewrite Hs. reflexivity.
Qed.

Lemma FeedAdapter_search_nothing_witness :
  FeedAdapter_search (H:=ascii_ops) broken_feed unloaded_feed nike_hoodie_query
    = Raised /\
  search_shop nike_hoodie_query (feed_adapter (H:=ascii_ops) broken_feed unloaded_feed)
    = Returned [].
Proof.
  apply (proj2 (proj2 (FeedAdapter_search_nothing ascii_ops broken_feed
                         unloaded_feed nike_hoodie_query)));
    reflexivity.
Defined.

(** *** Looking a product up *)

Lemma products_by_id_snoc (products : list ProductResult) (p : ProductResult) :
  products_by_id (products ++ [p])
  = odict_set (products_by_id products) (external_id p) p.
Proof. unfold products_by_id. rewrite fold_left_app. reflexivity. Qed.

Lemma products_by_id_get (products : list ProductResult) (external_id' : str) :
  odict_get (products_by_id products) external_id'
  = last_with_id products external_id'.
Proof.
  unfold last_with_id.
  induction products as [|p products IH] using rev_ind; [reflexivity|].
  rewrite products_by_id_snoc, rev_unit. cbn [find].
  destruct (str_eqb (external_id p) external_id') eqn:E.
  - apply str_eqb_eq in E as <-. apply odict_get_set_eq.
  - rewrite odict_get_set_ne; [exact IH|].
    apply bool_decide_eq_false in E. exact E.
Qed.

(** X16: after the feed was imported, [get_product] finds a product by its
    external id: it returns the last product of the feed with that id
    (a later row replaces an earlier one), [None] when the feed has none,
    and [None] for an id that is not a string; [check_availability] then
    reports that product's stock flag and price, or (False, None). *)
Theorem FeedAdapter_get_product_after_import (ops : StrOps)
    (fetch : ShopConfig -> result (list ProductResult))
    (self : FeedAdapter) (products : list ProductResult)
    (external_id' : str) :
  _products self = [] -> str_truthy (feed_url (fa_config self)) = true ->
  fetch (fa_config self) = Returned products ->
  let loaded := {| fa_config := fa_config self;
                   _products := products_by_id products |} in
  FeedAdapter_get_product fetch self (VStr external_id')
    = Returned (last_with_id products external_id', loaded) /\
  check_availability (feed_adapter fetch self) (VStr external_id')
    = Returned match last_with_id products external_id' with
               | Some p => (in_stock p, Some (price p))
               | None => (false, None)
               end /\
  (forall v, (forall s, v <> VStr s) ->
     FeedAdapter_get_product fetch self v = Returned (None, loaded)).
Proof.
  intros He Hu Hf loaded.
  assert (Hens : ensure_products fetch self = Returned loaded).
  { rewrite (ensure_products_empty fetch self He), Hu, Hf. reflexivity. }
  assert (Hget : FeedAdapter_get_product fetch self (VStr external_id')
                 = Returned (last_with_id products external_id', loaded)).
  { unfold FeedAdapter_get_product. rewrite Hens. cbn.
    rewrite products_by_id_get. reflexivity. }
  split; [exact Hget|]. split.
  - unfold check_availability, feed_adapter. cbn [get_product].
    rewrite Hget. cbn. destruct (last_with_id _ _); reflexivity.
  - intros v Hv. unfold FeedAdapter_get_product. rewrite Hens. cbn.
    destruct v; try reflexivity. exfalso. exact (Hv s eq_refl).
Qed.

Lemma FeedAdapter_get_product_after_import_witness :
  FeedAdapter_get_product four_rows_feed unloaded_feed
    (VStr (lit "s1"))
  = Returned (last_with_id feed_rows (lit "s1"), loaded_feed).
Proof.
  exact (proj1 (FeedAdapter_get_product_after_import ascii_ops
                  four_rows_feed unloaded_feed feed_rows (lit "s1")
                  eq_refl eq_refl eq_refl)).
Defined.

(** ** Costs are never negative *)

Lemma dge_zero_coef (d : Decimal) : dge d (mkDec 0 0) = true <-> 0 <= coef d.
Proof.
  unfold dge, dle, dcompare. cbn [coef expo].
  pose proof (pow10_pos (expo d - Z.min 0 (expo d)) ltac:(lia)) as Hp.
  rewrite Z.mul_0_l.
  destruct (Z.compare_spec 0 (coef d * pow10 (expo d - Z.min 0 (expo d))));
    split; intros; try reflexivity; try discriminate; nia.
Qed.

Lemma fix_ctx_nonneg (d : Decimal) : 0 <= coef d -> 0 <= coef (fix_ctx d).
Proof.
  intros Hd. pose proof (fix_ctx_sgn d) as Hs.
  apply Z.sgn_nonneg. rewrite Hs. apply Z.sgn_nonneg. exact Hd.
Qed.

Lemma dmul_nonneg (a b : Decimal) :
  0 <= coef a -> 0 <= coef b -> 0 <= coef (dmul a b).
Proof. intros. apply fix_ctx_nonneg. cbn. nia. Qed.

Lemma dadd_nonneg (a b : Decimal) :
  0 <= coef a -> 0 <= coef b -> 0 <= coef (dadd a b).
Proof.
  intros Ha Hb. apply fix_ctx_nonneg. cbn.
  pose proof (pow10_pos (expo a - Z.min (expo a) (expo b)) ltac:(lia)).
  pose proof (pow10_pos (expo b - Z.min (expo a) (expo b)) ltac:(lia)).
  nia.
Qed.

Lemma div_half_up_nonneg (n s : Z) : 0 <= n -> 0 <= s -> 0 <= div_half_up n s.
Proof.
  intros Hn Hs. unfold div_half_up.
  pose proof (pow10_pos s Hs) as Hp.
  pose proof (Z.div_pos n (pow10 s) Hn Hp).
  destruct (_ <=? _); lia.
Qed.

Lemma quantize_nonneg (d q : Decimal) :
  0 <= coef d -> quantize d = Returned q -> 0 <= coef q.
Proof.
  intros Hd. unfold quantize.
  destruct (is_zero d); [intros [= <-]; cbn; lia|].
  destruct (ctx_prec <? _); [discriminate|].
  destruct (Z.leb_spec (-2) (expo d)) as [He|He].
  - destruct (ctx_prec <? _); [discriminate|]. intros [= <-]. cbn.
    pose proof (pow10_pos (expo d + 2) ltac:(lia)).
    destruct (coef d); cbn; lia.
  - destruct (ctx_prec <? _); [discriminate|]. intros [= <-]. cbn.
    pose proof (div_half_up_nonneg (Z.abs (coef d)) (-2 - expo d)
                  ltac:(lia) ltac:(lia)).
    destruct (coef d); cbn in *; lia.
Qed.

Lemma strip_zeros_nonneg (fuel : nat) (c e : Z) :
  0 <= c -> 0 <= fst (strip_zeros fuel c e).
Proof.
  revert c e. induction fuel as [|fuel IH]; intros c e Hc; cbn; [exact Hc|].
  destruct (c mod 10 =? 0); [|exact Hc].
  apply IH. apply Z.div_pos; lia.
Qed.

Lemma ddiv_nonneg (a b q : Decimal) :
  0 <= coef a -> 0 <= coef b -> ddiv a b = Returned q -> 0 <= coef q.
Proof.
  intros Ha Hb. unfold ddiv.
  destruct (is_zero b) eqn:Hzb; [discriminate|].
  destruct (is_zero a); [intros [= <-]; cbn; lia|].
  assert (Hb' : 0 < coef b).
  { unfold is_zero in Hzb. apply Z.eqb_neq in Hzb. lia. }
  set (shift := ndigits (Z.abs (coef b)) - ndigits (Z.abs (coef a)) + ctx_prec + 1).
  assert (Hsign : 0 <= Z.sgn (coef a) * Z.sgn (coef b)).
  { destruct (coef a), (coef b); cbn; lia. }
  assert (Hq : forall x y, 0 <= x -> 0 < y -> 0 <= x / y).
  { intros. apply Z.div_pos; lia. }
  destruct (Z.leb_spec 0 shift) as [Hs|Hs].
  - pose proof (pow10_pos shift Hs) as Hp.
    pose proof (Hq (Z.abs (coef a) * pow10 shift) (Z.abs (coef b))
                  ltac:(nia) ltac:(lia)) as Hq1.
    destruct (_ =? 0).
    + pose proof (strip_zeros_nonneg
                    (Z.to_nat (expo a - expo b - (expo a - expo b - shift)))
                    (Z.abs (coef a) * pow10 shift / Z.abs (coef b))
                    (expo a - expo b - shift) Hq1) as Hst.
      destruct (strip_zeros _ _ _) as [c e']. cbn [fst] in Hst.
      intros [= <-]. apply fix_ctx_nonneg. cbn. nia.
    + intros [= <-]. apply fix_ctx_nonneg. cbn.
      destruct (_ =? 0); nia.
  - pose proof (pow10_pos (- shift) ltac:(lia)) as Hp.
    pose proof (Hq (Z.abs (coef a)) (Z.abs (coef b) * pow10 (- shift))
                  ltac:(lia) ltac:(nia)) as Hq1.
    destruct (_ =? 0).
    + pose proof (strip_zeros_nonneg
                    (Z.to_nat (expo a - expo b - (expo a - expo b - shift)))
                    (Z.abs (coef a) / (Z.abs (coef b) * pow10 (- shift)))
                    (expo a - expo b - shift) Hq1) as Hst.
      destruct (strip_zeros _ _ _) as [c e']. cbn [fst] in Hst.
      intros [= <-]. apply fix_ctx_nonneg. cbn. nia.
    + intros [= <-]. apply fix_ctx_nonneg. cbn.
      destruct (_ =? 0); nia.
Qed.

Lemma default_rate_nonneg (currency : str) :
  0 <= coef (default (mkDec 10 (-1)) (DEFAULT_EXCHANGE_RATES !! currency)).
Proof.
  destruct (DEFAULT_EXCHANGE_RATES !! currency) as [rate|] eqn:E; [|cbn; lia].
  apply elem_of_list_to_map_2 in E.
  repeat (apply elem_of_cons in E as [[= _ ->]|E]; [cbn; lia|]).
  apply elem_of_nil in E. destruct E.
Qed.

Lemma get_exchange_rate_nonneg (fetch : str -> str -> result Decimal)
    (calc calc' : CostCalculator) (from_currency to_currency : str)
    (rate : Decimal) :
  quotes_nonnegative fetch -> memo_nonnegative calc ->
  get_exchange_rate fetch calc from_currency to_currency
    = Returned (rate, calc') ->
  0 <= coef rate /\ memo_nonnegative calc'.
Proof.
  intros Hq Hm. unfold get_exchange_rate.
  destruct (bool_decide _); [intros [= <- <-]; split; [cbn; lia|exact Hm]|].
  cbv zeta. set (cache_key := from_currency ++ lit "_" ++ to_currency).
  destruct (_cached_rates calc !! cache_key) as [cached|] eqn:Hc.
  { intros [= <- <-]. split; [|exact Hm].
    apply dge_zero_coef. exact (Hm _ _ Hc). }
  assert (Hfallback :
    match bool_decide (to_currency = lit "SEK"),
          DEFAULT_EXCHANGE_RATES !! from_currency with
    | true, Some rate => Returned (rate, calc)
    | true, None => Returned (mkDec 10 (-1), calc)
    | false, _ =>
        rate ← ddiv (default (mkDec 10 (-1))
                       (DEFAULT_EXCHANGE_RATES !! from_currency))
                    (default (mkDec 10 (-1))
                       (DEFAULT_EXCHANGE_RATES !! to_currency));
        Returned (rate, calc)
    end = Returned (rate, calc') ->
    0 <= coef rate /\ memo_nonnegative calc').
  { pose proof (default_rate_nonneg from_currency) as Hf.
    pose proof (default_rate_nonneg to_currency) as Ht.
    destruct (bool_decide (to_currency = lit "SEK")).
    - destruct (DEFAULT_EXCHANGE_RATES !! from_currency);
        intros [= <- <-]; split; auto; cbn; lia.
    - intros Hd. apply bind_returned in Hd as (r & Hd & [= <- <-]).
      split; [|exact Hm]. exact (ddiv_nonneg _ _ _ Hf Ht Hd). }
  destruct (str_truthy (api_key calc)); [|exact Hfallback].
  destruct (fetch from_currency to_currency) as [live|] eqn:Hl;
    [|exact Hfallback].
  intros [= <- <-]. split; [apply dge_zero_coef; exact (Hq _ _ _ Hl)|].
  intros key r. cbn [_cached_rates].
  destruct (decide (cache_key = key)) as [<-|Hne].
  - rewrite lookup_insert_eq. intros [= <-]. exact (Hq _ _ _ Hl).
  - rewrite lookup_insert_ne by exact Hne. apply Hm.
Qed.

Lemma calculate_shipping_nonneg (price : Decimal) (config : ShopConfig) :
  (forall base, base_shipping_cost config = Some base -> 0 <= coef base) ->
  0 <= coef (calculate_shipping price config).
Proof.
  intros Hb. unfold calculate_shipping, base_cost_or_zero.
  destruct (negb _); [cbn; lia|]. destruct (_ && _); [cbn; lia|].
  destruct (dec_truthy _); [|cbn; lia].
  destruct (base_shipping_cost config) as [base|]; [|cbn; lia].
  cbn. apply Hb. reflexivity.
Qed.

Lemma customs_rate_nonneg `{StrOps} (category : option str) :
  0 <= coef (customs_rate category).
Proof.
  unfold customs_rate. destruct (str_truthy _); [|cbn; lia].
  cbv zeta. repeat (destruct (any_in _ _); [cbn; lia|]). cbn. lia.
Qed.

Lemma calculate_customs_nonneg `{StrOps} (price_eur shipping_eur : Decimal)
    (region : ShopRegion) (category : option str) (duty vat : Decimal) :
  0 <= coef price_eur -> 0 <= coef shipping_eur ->
  calculate_customs price_eur shipping_eur region category
    = Returned (duty, vat) ->
  0 <= coef duty /\ 0 <= coef vat.
Proof.
  intros Hp Hs. unfold calculate_customs.
  destruct region;
    [intros [= <- <-]; cbn; lia|intros [= <- <-]; cbn; lia|].
  intros Hc. apply bind_returned in Hc as (d & Hd & Hc).
  apply bind_returned in Hc as (v & Hv & [= <- <-]).
  assert (Hduty : 0 <= coef d).
  { destruct (dle _ _); [injection Hd as <-; cbn; lia|].
    apply (quantize_nonneg _ _ (dmul_nonneg _ _ Hp (customs_rate_nonneg _)) Hd). }
  split; [exact Hduty|].
  refine (quantize_nonneg _ _ _ Hv).
  apply dmul_nonneg; [|cbn; lia].
  apply dadd_nonneg; [apply dadd_nonneg; assumption|exact Hduty].
Qed.

(** Where the rates used by [cost_locals] come from. *)
Lemma cost_locals_rates `{StrOps} (fetch : str -> str -> result Decimal)
    (calc calc' : CostCalculator) (p : ProductResult) (c : ShopConfig)
    (l : CostLocals) :
  cost_locals fetch calc p c = Returned (l, calc') ->
  exists s1,
    get_exchange_rate fetch calc (p_currency p) (lit "SEK")
      = Returned (l_rate l, s1) /\
    (p_currency p <> lit "EUR" ->
     exists eur_rate s2 sek_to_eur s3 eur_to_orig,
       get_exchange_rate fetch s1 (p_currency p) (lit "EUR")
         = Returned (eur_rate, s2) /\
       get_exchange_rate fetch s2 (lit "SEK") (lit "EUR")
         = Returned (sek_to_eur, s3) /\
       get_exchange_rate fetch s3 (lit "EUR") (p_currency p)
         = Returned (eur_to_orig, calc') /\
       l_price_eur l = dmul (price p) eur_rate /\
       l_shipping_eur l = dmul (l_shipping l) eur_rate /\
       l_customs l = dmul (l_customs_eur l) eur_to_orig /\
       l_vat l = dmul (l_vat_eur l) eur_to_orig).
Proof.
  unfold cost_locals. intros Hc.
  apply bind_returned in Hc as ([rate s1] & H1 & Hc). cbv beta iota in Hc.
  apply bind_returned in Hc as ([[pe se] s2] & H2 & Hc). cbv beta iota in Hc.
  apply bind_returned in Hc as ([ce ve] & H3 & Hc). cbv beta iota in Hc.
  apply bind_returned in Hc as ([[cu va] s3] & H4 & Hc). cbv beta iota in Hc.
  apply bind_returned in Hc as (ts & H5 & Hc).
  injection Hc as <- <-. cbn [l_rate l_shipping l_price_eur l_shipping_eur
    l_customs_eur l_vat_eur l_customs l_vat l_total l_total_sek].
  exists s1. split; [exact H1|].
  destruct (bool_decide_reflect (p_currency p = lit "EUR")) as [Heur|Hne].
  - intros Hn. contradiction.
  - intros _.
    apply bind_returned in H2 as ([eur_rate s2'] & H2 & E2). cbv beta iota in E2.
    injection E2 as <- <- <-.
    apply bind_returned in H4 as ([sek_to_eur s3'] & H4 & E4). cbv beta iota in E4.
    apply bind_returned in E4 as ([eur_to_orig s3''] & H4' & E4).
    cbv beta iota in E4. injection E4 as <- <- <-.
    exists eur_rate, s2', sek_to_eur, s3', eur_to_orig.
    split; [exact H2|]. split; [exact H4|]. split; [exact H4'|].
    repeat split.
Qed.

(** The amounts that [cost_locals] computes are not negative. *)
Lemma cost_locals_nonneg `{StrOps} (fetch : str -> str -> result Decimal)
    (calc calc' : CostCalculator) (p : ProductResult) (c : ShopConfig)
    (l : CostLocals) :
  quotes_nonnegative fetch -> memo_nonnegative calc ->
  0 <= coef (price p) ->
  (forall base, base_shipping_cost c = Some base -> 0 <= coef base) ->
  cost_locals fetch calc p c = Returned (l, calc') ->
  0 <= coef (l_shipping l) /\ 0 <= coef (l_customs l) /\
  0 <= coef (l_vat l) /\ 0 <= coef (l_total l) /\ 0 <= coef (l_total_sek l).
Proof.
  intros Hq Hm Hprice Hbase Hl.
  destruct (cost_locals_inv fetch calc calc' p c l Hl)
    as (Hship & Hcustoms & Heur & Hother & Htotal & Hsek).
  destruct (cost_locals_rates fetch calc calc' p c l Hl)
    as (s1 & H1 & Hrates).
  destruct (get_exchange_rate_nonneg _ _ _ _ _ _ Hq Hm H1) as [Hrate Hm1].
  assert (Hs : 0 <= coef (l_shipping l)).
  { rewrite Hship. apply calculate_shipping_nonneg. exact Hbase. }
  assert (Hkeep : 0 <= coef (l_customs l) /\ 0 <= coef (l_vat l)).
  { destruct (decide (p_currency p = lit "EUR")) as [E|NE].
    - destruct (Heur E) as (Hpe & Hse & Hcu & Hva).
      rewrite Hcu, Hva. rewrite Hpe, Hse in Hcustoms.
      exact (calculate_customs_nonneg _ _ _ _ _ _ Hprice Hs Hcustoms).
    - destruct (Hrates NE)
        as (eur_rate & s2 & sek_to_eur & s3 & eur_to_orig
            & G1 & G2 & G3 & Hpe & Hse & Hcu & Hva).
      destruct (get_exchange_rate_nonneg _ _ _ _ _ _ Hq Hm1 G1) as [He Hm2].
      destruct (get_exchange_rate_nonneg _ _ _ _ _ _ Hq Hm2 G2) as [_ Hm3].
      destruct (get_exchange_rate_nonneg _ _ _ _ _ _ Hq Hm3 G3) as [Ho _].
      rewrite Hpe, Hse in Hcustoms.
      destruct (calculate_customs_nonneg _ _ _ _ _ _
                  (dmul_nonneg _ _ Hprice He) (dmul_nonneg _ _ Hs He) Hcustoms)
        as [Hce Hve].
      rewrite Hcu, Hva. split; apply dmul_nonneg; assumption. }
  destruct Hkeep as [Hcu Hva].
  assert (Ht : 0 <= coef (l_total l)).
  { rewrite Htotal. repeat apply dadd_nonneg; assumption. }
  repeat (split; [assumption|]).
  unfold convert_to_sek in Hsek.
  destruct (bool_decide (p_currency p = lit "SEK")).
  - injection Hsek as <-. exact Ht.
  - exact (quantize_nonneg _ _ (dmul_nonneg _ _ Ht Hrate) Hsek).
Qed.

(** X17: no cost is negative: for a product with a non-negative price from
    a shop with a non-negative flat shipping cost, and as long as neither
    the rate provider nor the memo holds a negative rate, the shipping,
    customs, VAT and total costs and the total in SEK that
    [calculate_total_cost] assigns are all at least zero. *)
Theorem costs_never_negative (ops : StrOps)
    (fetch : str -> str -> result Decimal) (calc calc' : CostCalculator)
    (p p' : ProductResult) (c : ShopConfig) :
  quotes_nonnegative fetch -> memo_nonnegative calc ->
  dge (price p) (mkDec 0 0) = true ->
  (forall base, base_shipping_cost c = Some base ->
                dge base (mkDec 0 0) = true) ->
  calculate_total_cost fetch calc p c = Returned (p', calc') ->
  exists shipping customs vat total total_sek,
    cost_fields p'
      = (Some shipping, Some customs, Some vat, Some total, Some total_sek) /\
    dge shipping (mkDec 0 0) = true /\ dge customs (mkDec 0 0) = true /\
    dge vat (mkDec 0 0) = true /\ dge total (mkDec 0 0) = true /\
    dge total_sek (mkDec 0 0) = true.
Proof.
  intros Hq Hm Hprice Hbase Hrun.
  apply dge_zero_coef in Hprice.
  assert (Hbase' : forall base, base_shipping_cost c = Some base ->
                                0 <= coef base).
  { intros base Hb. apply dge_zero_coef. exact (Hbase base Hb). }
  destruct (calculate_total_cost_inv fetch calc calc' p p' c Hrun)
    as (l & sh & cu & va & to & Hl & Hsh & Hcu & Hva & Hto & ->).
  destruct (cost_locals_nonneg fetch calc calc' p c l Hq Hm Hprice Hbase' Hl)
    as (H1 & H2 & H3 & H4 & H5).
  exists sh, cu, va, to, (l_total_sek l). split; [reflexivity|].
  rewrite !dge_zero_coef.
  split; [exact (quantize_nonneg _ _ H1 Hsh)|].
  split; [exact (quantize_nonneg _ _ H2 Hcu)|].
  split; [exact (quantize_nonneg _ _ H3 Hva)|].
  split; [exact (quantize_nonneg _ _ H4 Hto)|exact H5].
Qed.

Lemma costs_never_negative_witness :
  exists shipping customs vat total total_sek,
    cost_fields usd_jacket_costed
      = (Some shipping, Some customs, Some vat, Some total, Some total_sek) /\
    dge shipping (mkDec 0 0) = true /\ dge customs (mkDec 0 0) = true /\
    dge vat (mkDec 0 0) = true /\ dge total (mkDec 0 0) = true /\
    dge total_sek (mkDec 0 0) = true.
Proof.
  apply (costs_never_negative ascii_ops no_provider offline_calculator
           offline_calculator usd_jacket usd_jacket_costed
           (non_eu_shop (lit "USD"))).
  - intros a b r E. discriminate E.
  - intros k r E. discriminate E.
  - reflexivity.
  - intros base E. injection E as <-. reflexivity.
  - vm_compute. reflexivity.
Defined.

(** ** The shop registry *)

Section RegistryStore.

Context `{Registry.Imports}.

(** *** Looking an adapter up *)

Lemma get_adapter_cached (cls : Registry.t) (shop_id : str) (a : ShopAdapter) :
  odict_get (Registry._adapters cls) shop_id = Some a ->
  Registry.get_adapter cls shop_id = (Some a, cls).
Proof. intros Hc. unfold Registry.get_adapter. rewrite Hc. reflexivity. Qed.

(** What a lookup returns is what the store holds for the shop afterwards. *)
Lemma get_adapter_stored (cls : Registry.t) (shop_id : str) :
  odict_get (Registry._adapters (snd (Registry.get_adapter cls shop_id))) shop_id
  = fst (Registry.get_adapter cls shop_id).
Proof.
  unfold Registry.get_adapter.
  destruct (odict_get (Registry._adapters cls) shop_id) as [a|] eqn:Ha;
    [exact Ha|].
  destruct (odict_get (Registry._configs cls) shop_id) as [c|]; [|exact Ha].
  cbn. apply odict_get_set_eq.
Qed.

Lemma get_adapter_configs (cls : Registry.t) (shop_id : str) :
  Registry._configs (snd (Registry.get_adapter cls shop_id)) = Registry._configs cls.
Proof.
  unfold Registry.get_adapter.
  destruct (odict_get (Registry._adapters cls) shop_id); [reflexivity|].
  destruct (odict_get (Registry._configs cls) shop_id); reflexivity.
Qed.

Lemma get_adapter_keeps (cls : Registry.t) (shop_id other : str)
    (a : ShopAdapter) :
  odict_get (Registry._adapters cls) other = Some a ->
  odict_get (Registry._adapters (snd (Registry.get_adapter cls shop_id))) other = Some a.
Proof.
  intros Ho. unfold Registry.get_adapter.
  destruct (odict_get (Registry._adapters cls) shop_id) as [b|] eqn:Hb;
    [exact Ho|].
  destruct (odict_get (Registry._configs cls) shop_id) as [c|]; [|exact Ho].
  cbn. rewrite odict_get_set_ne; [exact Ho|].
  intros ->. rewrite Ho in Hb. discriminate Hb.
Qed.

(** A lookup finds an adapter exactly for the shops that have an adapter or
    a configuration. *)
Lemma get_adapter_None (cls : Registry.t) (shop_id : str) :
  fst (Registry.get_adapter cls shop_id) = None <->
  odict_get (Registry._adapters cls) shop_id = None /\
  odict_get (Registry._configs cls) shop_id = None.
Proof.
  unfold Registry.get_adapter.
  destruct (odict_get (Registry._adapters cls) shop_id) as [a|].
  - cbn. split; [discriminate|]. intros [Hx _]. discriminate Hx.
  - destruct (odict_get (Registry._configs cls) shop_id) as [c|]; cbn.
    + split; [discriminate|]. intros [_ Hx]. discriminate Hx.
    + tauto.
Qed.

Lemma get_adapter_unknown (cls : Registry.t) (shop_id : str) :
  fst (Registry.get_adapter cls shop_id) = None -> snd (Registry.get_adapter cls shop_id) = cls.
Proof.
  unfold Registry.get_adapter.
  destruct (odict_get (Registry._adapters cls) shop_id) as [a|];
    [discriminate|].
  destruct (odict_get (Registry._configs cls) shop_id) as [c|];
    [discriminate|reflexivity].
Qed.

(** *** All adapters *)

Lemma collect_adapters_configs (ids : list str) :
  forall (acc : list ShopAdapter) (cls : Registry.t),
  Registry._configs (snd (fold_left Registry.collect_adapter ids (acc, cls)))
  = Registry._configs cls.
Proof.
  induction ids as [|k ids IH]; intros acc cls; [reflexivity|].
  cbn [fold_left]. unfold Registry.collect_adapter at 2.
  pose proof (get_adapter_configs cls k) as Hc.
  destruct (Registry.get_adapter cls k) as [[a|] cls1]; cbn [snd] in Hc;
    rewrite IH; exact Hc.
Qed.

Lemma collect_adapters_keeps (ids : list str) (other : str) (a : ShopAdapter) :
  forall (acc : list ShopAdapter) (cls : Registry.t),
  odict_get (Registry._adapters cls) other = Some a ->
  odict_get
    (Registry._adapters (snd (fold_left Registry.collect_adapter ids (acc, cls)))) other
  = Some a.
Proof.
  induction ids as [|k ids IH]; intros acc cls Ho; [exact Ho|].
  cbn [fold_left]. unfold Registry.collect_adapter at 2.
  pose proof (get_adapter_keeps cls k other a Ho) as Hk.
  destruct (Registry.get_adapter cls k) as [[b|] cls1]; cbn [snd] in Hk;
    apply IH; exact Hk.
Qed.

Lemma collect_adapters_all (ids : list str) :
  forall (acc : list ShopAdapter) (cls : Registry.t),
  Forall (fun k => odict_get (Registry._configs cls) k <> None) ids ->
  exists found,
    fst (fold_left Registry.collect_adapter ids (acc, cls)) = acc ++ found /\
    Forall2 (fun k a =>
      odict_get
        (Registry._adapters (snd (fold_left Registry.collect_adapter ids (acc, cls)))) k
      = Some a) ids found.
Proof.
  induction ids as [|k ids IH]; intros acc cls Hall.
  - exists []. cbn. rewrite app_nil_r. split; [reflexivity|constructor].
  - apply Forall_cons in Hall as [Hk Hall].
    cbn [fold_left]. unfold Registry.collect_adapter at 2 4.
    pose proof (get_adapter_stored cls k) as Hs.
    pose proof (get_adapter_configs cls k) as Hc.
    pose proof (proj1 (get_adapter_None cls k)) as Hn.
    destruct (Registry.get_adapter cls k) as [[a|] cls1]; cbn [fst snd] in Hs, Hc, Hn.
    + rewrite <- Hc in Hall.
      destruct (IH (acc ++ [a]) cls1 Hall) as (found & Hf & Hg).
      exists (a :: found). rewrite Hf, <- app_assoc. split; [reflexivity|].
      constructor; [|exact Hg].
      apply collect_adapters_keeps. exact Hs.
    + destruct (Hn eq_refl) as [_ Hcfg]. contradiction.
Qed.

Lemma configured_ids (cls : Registry.t) :
  Forall (fun k => odict_get (Registry._configs cls) k <> None)
         (map fst (Registry._configs cls)).
Proof.
  apply Forall_forall. intros k Hk. apply list_elem_of_In in Hk.
  intros Hn. apply odict_get_None in Hn. contradiction.
Qed.

(** *** Calls *)

Lemma load_file_adapters (files : list (result (option ShopConfig))) :
  forall (configs : list (str * ShopConfig)) (cls : Registry.t),
  Registry._adapters (snd (fold_left Registry.load_file files (configs, cls)))
  = Registry._adapters cls.
Proof.
  induction files as [|f files IH]; intros configs cls; [reflexivity|].
  cbn [fold_left]. destruct f as [[c|]|]; cbn [Registry.load_file];
    rewrite IH; reflexivity.
Qed.

Lemma after_call_keeps (cls : Registry.t) (c : Registry.call) (shop_id : str)
    (a : ShopAdapter) :
  odict_get (Registry._adapters cls) shop_id = Some a ->
  odict_get (Registry._adapters (Registry.after_call cls c)) shop_id = Some a.
Proof.
  intros Ha. destruct c as [ty class|[files|]|k|]; cbn [Registry.after_call].
  - exact Ha.
  - cbn [Registry.load_configs]. rewrite load_file_adapters. exact Ha.
  - exact Ha.
  - apply get_adapter_keeps. exact Ha.
  - apply collect_adapters_keeps. exact Ha.
Qed.

Lemma after_calls_keeps (calls : list Registry.call) (shop_id : str)
    (a : ShopAdapter) :
  forall cls : Registry.t,
  odict_get (Registry._adapters cls) shop_id = Some a ->
  odict_get (Registry._adapters (Registry.after_calls cls calls)) shop_id = Some a.
Proof.
  induction calls as [|c calls IH]; intros cls Ha; [exact Ha|].
  cbn [Registry.after_calls fold_left]. apply IH.
  apply after_call_keeps. exact Ha.
Qed.

(** X18: once [Registry.get_adapter] has returned an adapter for a shop, every later
    [Registry.get_adapter] for that shop returns the same adapter and leaves the
    registry as it is, whatever was called in between: classes registered,
    configurations loaded again, other adapters looked up.  A configuration
    that is loaded again does not reach the adapter that exists. *)
Theorem registry_adapter_kept (cls cls' : Registry.t) (shop_id : str)
    (adapter : ShopAdapter) (calls : list Registry.call) :
  Registry.get_adapter cls shop_id = (Some adapter, cls') ->
  Registry.get_adapter (Registry.after_calls cls' calls) shop_id
  = (Some adapter, Registry.after_calls cls' calls).
Proof.
  intros Hget. apply get_adapter_cached. apply after_calls_keeps.
  pose proof (get_adapter_stored cls shop_id) as Hs.
  rewrite Hget in Hs. exact Hs.
Qed.

Lemma get_all_adapters_found (cls : Registry.t) :
  exists found,
    fst (Registry.get_all_adapters cls) = found /\
    length found = length (Registry._configs cls) /\
    Forall2 (fun shop_id adapter =>
               odict_get
                 (Registry._adapters (snd (Registry.get_all_adapters cls)))
                 shop_id = Some adapter)
            (map fst (Registry._configs cls)) found.
Proof.
  unfold Registry.get_all_adapters.
  destruct (collect_adapters_all (map fst (Registry._configs cls)) [] cls
              (configured_ids cls)) as (found & Hf & Hg).
  exists found. cbn [app] in Hf. split; [exact Hf|]. split; [|exact Hg].
  apply Forall2_length in Hg. rewrite <- Hg, length_map. reflexivity.
Qed.

(** X19: [get_all_adapters] returns one adapter for each configured shop, in
    the order of the configurations; each of them is the adapter the registry
    holds for that shop afterwards.  The configurations are unchanged and the
    adapters that existed are kept. *)
Theorem get_all_adapters_complete (cls : Registry.t) :
  let adapters := fst (Registry.get_all_adapters cls) in
  let cls' := snd (Registry.get_all_adapters cls) in
  length adapters = length (Registry._configs cls) /\
  Forall2 (fun shop_id adapter =>
             odict_get (Registry._adapters cls') shop_id = Some adapter)
          (map fst (Registry._configs cls)) adapters /\
  Registry._configs cls' = Registry._configs cls /\
  (forall shop_id adapter,
     odict_get (Registry._adapters cls) shop_id = Some adapter ->
     odict_get (Registry._adapters cls') shop_id = Some adapter).
Proof.
  cbv zeta. destruct (get_all_adapters_found cls) as (found & -> & Hlen & Hg).
  split; [exact Hlen|]. split; [exact Hg|]. split.
  - apply collect_adapters_configs.
  - intros k a Ha. apply collect_adapters_keeps. exact Ha.
Qed.

(** *** The adapters of a search *)

Lemma known_get_adapter (cls : Registry.t) (shop_id : str) :
  Registry.known cls shop_id
  = match fst (Registry.get_adapter cls shop_id) with
    | Some _ => true
    | None => false
    end.
Proof.
  unfold Registry.known, Registry.get_adapter.
  destruct (odict_get (Registry._adapters cls) shop_id); [reflexivity|].
  destruct (odict_get (Registry._configs cls) shop_id); reflexivity.
Qed.

Lemma known_after_get_adapter (cls : Registry.t) (shop_id other : str) :
  Registry.known (snd (Registry.get_adapter cls shop_id)) other
  = Registry.known cls other.
Proof.
  unfold Registry.known. rewrite get_adapter_configs.
  unfold Registry.get_adapter.
  destruct (odict_get (Registry._adapters cls) shop_id) as [a|] eqn:Ha;
    [reflexivity|].
  destruct (odict_get (Registry._configs cls) shop_id) as [c|] eqn:Hc;
    [|reflexivity].
  cbn [snd Registry.set_adapter Registry._adapters].
  destruct (decide (shop_id = other)) as [<-|Hne].
  - rewrite odict_get_set_eq, Ha, Hc. reflexivity.
  - rewrite odict_get_set_ne by exact Hne. reflexivity.
Qed.

(** The second lookup of a pass returns what the first one returned. *)
Lemma requested_adapter_pass (acc : list (option ShopAdapter))
    (cls : Registry.t) (shop_id : str) :
  Registry.requested_adapter (acc, cls) shop_id
  = if Registry.known cls shop_id
    then (acc ++ [fst (Registry.get_adapter cls shop_id)],
          snd (Registry.get_adapter cls shop_id))
    else (acc, cls).
Proof.
  unfold Registry.requested_adapter. rewrite known_get_adapter.
  pose proof (get_adapter_stored cls shop_id) as Hs.
  pose proof (get_adapter_unknown cls shop_id) as Hu.
  destruct (Registry.get_adapter cls shop_id) as [[a|] cls1];
    cbn [fst snd] in *.
  - rewrite (get_adapter_cached cls1 shop_id a Hs). reflexivity.
  - rewrite (Hu eq_refl). reflexivity.
Qed.

Lemma requested_adapters_configs (ids : list str) :
  forall (acc : list (option ShopAdapter)) (cls : Registry.t),
  Registry._configs (snd (fold_left Registry.requested_adapter ids (acc, cls)))
  = Registry._configs cls.
Proof.
  induction ids as [|k ids IH]; intros acc cls; [reflexivity|].
  cbn [fold_left]. rewrite requested_adapter_pass.
  destruct (Registry.known cls k); rewrite IH;
    [apply get_adapter_configs|reflexivity].
Qed.

Lemma requested_adapters_keep (ids : list str) (other : str) (a : ShopAdapter) :
  forall (acc : list (option ShopAdapter)) (cls : Registry.t),
  odict_get (Registry._adapters cls) other = Some a ->
  odict_get
    (Registry._adapters
       (snd (fold_left Registry.requested_adapter ids (acc, cls)))) other
  = Some a.
Proof.
  induction ids as [|k ids IH]; intros acc cls Ho; [exact Ho|].
  cbn [fold_left]. rewrite requested_adapter_pass.
  destruct (Registry.known cls k); apply IH;
    [apply get_adapter_keeps|]; exact Ho.
Qed.

Lemma requested_adapters_unknown (ids : list str) :
  forall (acc : list (option ShopAdapter)) (cls : Registry.t),
  List.filter (Registry.known cls) ids = [] ->
  fold_left Registry.requested_adapter ids (acc, cls) = (acc, cls).
Proof.
  induction ids as [|k ids IH]; intros acc cls Hf; [reflexivity|].
  cbn [fold_left List.filter] in *. rewrite requested_adapter_pass.
  destruct (Registry.known cls k); [discriminate Hf|].
  apply IH. exact Hf.
Qed.

Lemma filter_known_after (cls : Registry.t) (shop_id : str) (ids : list str) :
  List.filter (Registry.known (snd (Registry.get_adapter cls shop_id))) ids
  = List.filter (Registry.known cls) ids.
Proof.
  induction ids as [|k ids IH]; [reflexivity|].
  cbn [List.filter]. rewrite known_after_get_adapter, IH. reflexivity.
Qed.

Lemma requested_adapters_selected (ids : list str) :
  forall (acc : list (option ShopAdapter)) (cls : Registry.t),
  let done := fold_left Registry.requested_adapter ids (acc, cls) in
  fst done
  = acc ++ map (odict_get (Registry._adapters (snd done)))
               (List.filter (Registry.known cls) ids) /\
  Forall (fun k => is_Some (odict_get (Registry._adapters (snd done)) k))
         (List.filter (Registry.known cls) ids).
Proof.
  induction ids as [|k ids IH]; intros acc cls; cbv zeta.
  - cbn. rewrite app_nil_r. split; [reflexivity|constructor].
  - cbn [fold_left List.filter]. rewrite requested_adapter_pass.
    pose proof (known_get_adapter cls k) as Hk.
    pose proof (get_adapter_stored cls k) as Hs.
    destruct (Registry.known cls k).
    + destruct (IH (acc ++ [fst (Registry.get_adapter cls k)])
                   (snd (Registry.get_adapter cls k))) as [Hf Hall].
      cbv zeta in Hf, Hall. rewrite filter_known_after in Hf, Hall.
      destruct (fst (Registry.get_adapter cls k)) as [a|] eqn:Ha;
        [|discriminate Hk].
      pose proof (requested_adapters_keep ids k a
                    (acc ++ [Some a]) _ Hs) as Hkeep.
      split.
      * rewrite Hf, <- app_assoc. cbn [map app]. rewrite Hkeep. reflexivity.
      * constructor; [|exact Hall]. rewrite Hkeep. eexists. reflexivity.
    + apply IH.
Qed.

(** X20: a search for a list of shops uses, for each requested id that has
    an adapter or a configuration, the adapter of the registry, in the order
    of the request and as often as the id is requested; ids that are not
    known are passed over, and no entry of the list is [None].  When no
    requested id is known the request is refused with status 400. *)
Theorem search_adapters_requested (cls : Registry.t) (shop_id : str)
    (rest : list str) :
  let shops := shop_id :: rest in
  let cls' := snd (Registry.search_adapters cls (Some shops)) in
  let selected := List.filter (Registry.known cls) shops in
  fst (Registry.search_adapters cls (Some shops))
  = match selected with
    | [] => HTTPException 400 (lit "No shops configured")
    | _ => Ok (map (odict_get (Registry._adapters cls')) selected)
    end /\
  Forall (fun k => is_Some (odict_get (Registry._adapters cls') k)) selected /\
  Registry._configs cls' = Registry._configs cls.
Proof.
  cbv zeta. unfold Registry.search_adapters.
  pose proof (requested_adapters_selected (shop_id :: rest) [] cls) as Hsel.
  pose proof (requested_adapters_configs (shop_id :: rest) [] cls) as Hcfg.
  cbv zeta in Hsel. cbn [app] in Hsel.
  destruct (fold_left Registry.requested_adapter (shop_id :: rest) ([], cls))
    as [adapters cls1].
  cbn [fst snd] in Hsel, Hcfg. destruct Hsel as [-> Hall].
  destruct (List.filter (Registry.known cls) (shop_id :: rest)) as [|k ks];
    cbn [map fst snd]; auto.
Qed.

(** X21: the search is refused with status 400, "No shops configured",
    exactly when shops are requested and none of them has an adapter or a
    configuration, or when no shops are requested (no list, or an empty
    one) and the registry has no configuration.  No other [HTTPException]
    comes out of the selection, and a refused request leaves the registry as
    it was. *)
Theorem search_adapters_refused (cls : Registry.t) (shops : option (list str)) :
  (fst (Registry.search_adapters cls shops)
   = HTTPException 400 (lit "No shops configured") <->
   match shops with
   | Some (shop_id :: rest) =>
       forallb (fun k => negb (Registry.known cls k)) (shop_id :: rest) = true
   | _ => Registry._configs cls = []
   end) /\
  (forall status_code detail,
     fst (Registry.search_adapters cls shops)
     = HTTPException status_code detail ->
     status_code = 400 /\ detail = lit "No shops configured" /\
     snd (Registry.search_adapters cls shops) = cls).
Proof.
  assert (Hnone : forall ids,
            forallb (fun k => negb (Registry.known cls k)) ids = true <->
            List.filter (Registry.known cls) ids = []).
  { induction ids as [|k ids IH]; cbn; [tauto|].
    destruct (Registry.known cls k); cbn; [split; discriminate|exact IH]. }
  assert (Hall : forall ids : option (list str),
            match ids with Some (_ :: _) => False | _ => True end ->
            (fst (Registry.search_adapters cls ids)
             = HTTPException 400 (lit "No shops configured") <->
             Registry._configs cls = []) /\
            (forall status_code detail,
               fst (Registry.search_adapters cls ids)
               = HTTPException status_code detail ->
               status_code = 400 /\ detail = lit "No shops configured" /\
               snd (Registry.search_adapters cls ids) = cls)).
  { intros ids Hids.
    assert (Hrun : Registry.search_adapters cls ids
                   = match map Some (fst (Registry.get_all_adapters cls)) with
                     | [] => (HTTPException 400 (lit "No shops configured"),
                              snd (Registry.get_all_adapters cls))
                     | a :: l => (Ok (a :: l),
                                  snd (Registry.get_all_adapters cls))
                     end).
    { unfold Registry.search_adapters.
      destruct ids as [[|k ids]|]; try contradiction;
        destruct (Registry.get_all_adapters cls) as [adapters cls1];
        cbn [fst snd]; destruct adapters; reflexivity. }
    rewrite Hrun.
    destruct (get_all_adapters_found cls) as (found & Hfound & Hlen & _).
    rewrite Hfound.
    destruct (Registry._configs cls) as [|kc cfgs] eqn:Ecfg.
    - destruct found; [|discriminate Hlen].
      cbn [map fst snd]. split; [tauto|]. intros s d [= <- <-].
      repeat split. unfold Registry.get_all_adapters. rewrite Ecfg.
      reflexivity.
    - destruct found as [|a l]; [discriminate Hlen|].
      cbn [map fst]. split; [split; discriminate|]. discriminate. }
  destruct shops as [[|shop_id rest]|]; try (apply Hall; exact I).
  rewrite Hnone. unfold Registry.search_adapters.
  pose proof (requested_adapters_unknown (shop_id :: rest) [] cls) as Hunk.
  pose proof (requested_adapters_selected (shop_id :: rest) [] cls) as Hsel.
  cbv zeta in Hsel. cbn [app] in Hsel.
  destruct (List.filter (Registry.known cls) (shop_id :: rest)) as [|k ks]
    eqn:Ef.
  - rewrite (Hunk eq_refl). cbn [fst snd]. split; [tauto|].
    intros s d [= <- <-]. auto.
  - destruct (fold_left Registry.requested_adapter (shop_id :: rest) ([], cls))
      as [adapters cls1].
    cbn [fst snd] in Hsel. destruct Hsel as [-> _]. cbn [map fst].
    split; [split; discriminate|]. discriminate.
Qed.

(** *** Invariants of the store *)

Lemma odict_set_keys_NoDup {V} (d : list (str * V)) (k : str) (v : V) :
  NoDup (map fst d) -> NoDup (map fst (odict_set d k v)).
Proof.
  intros Hnd. destruct (odict_get d k) as [old|] eqn:Hg.
  - destruct (odict_set_present d k old v Hg) as (d1 & d2 & Hd & -> & _).
    rewrite Hd in Hnd. rewrite map_app in *. exact Hnd.
  - rewrite (odict_set_absent d k v Hg), map_app. cbn.
    apply NoDup_app. split; [exact Hnd|]. split.
    + intros x Hx Hx'. apply list_elem_of_In in Hx.
      apply list_elem_of_singleton in Hx'. subst x.
      apply odict_get_None in Hg. contradiction.
    + apply NoDup_singleton.
Qed.

Lemma get_adapter_filed (cls : Registry.t) (shop_id : str) :
  registry_filed cls -> registry_filed (snd (Registry.get_adapter cls shop_id)).
Proof.
  intros (Hc & Ha & Hid & Hcfg). unfold Registry.get_adapter.
  destruct (odict_get (Registry._adapters cls) shop_id) as [a|] eqn:Eg;
    [repeat split; assumption|].
  destruct (odict_get (Registry._configs cls) shop_id) as [c|] eqn:Ec;
    [|repeat split; assumption].
  cbn [snd]. unfold registry_filed.
  cbn [Registry.set_adapter Registry._adapters Registry._configs].
  split; [exact Hc|]. split; [apply odict_set_keys_NoDup; exact Ha|].
  split; [exact Hid|].
  intros k a. destruct (decide (shop_id = k)) as [<-|Hne].
  - intros _. rewrite Ec. discriminate.
  - rewrite odict_get_set_ne by exact Hne. apply Hcfg.
Qed.

Lemma collect_adapters_filed (ids : list str) :
  forall (acc : list ShopAdapter) (cls : Registry.t),
  registry_filed cls ->
  registry_filed (snd (fold_left Registry.collect_adapter ids (acc, cls))).
Proof.
  induction ids as [|k ids IH]; intros acc cls Hf; [exact Hf|].
  cbn [fold_left]. unfold Registry.collect_adapter at 2.
  pose proof (get_adapter_filed cls k Hf) as Hk.
  destruct (Registry.get_adapter cls k) as [[a|] cls1]; cbn [snd] in Hk;
    apply IH; exact Hk.
Qed.

Lemma load_files_filed (files : list (result (option ShopConfig))) :
  forall (configs : list (str * ShopConfig)) (cls : Registry.t),
  registry_filed cls ->
  registry_filed (snd (fold_left Registry.load_file files (configs, cls))).
Proof.
  induction files as [|f files IH]; intros configs cls Hf; [exact Hf|].
  cbn [fold_left]. destruct f as [[c|]|]; cbn [Registry.load_file];
    apply IH; try exact Hf.
  destruct Hf as (Hc & Ha & Hid & Hcfg). unfold registry_filed.
  cbn [Registry.set_config Registry._adapters Registry._configs].
  split; [apply odict_set_keys_NoDup; exact Hc|]. split; [exact Ha|]. split.
  - intros k c'. destruct (decide (c_id c = k)) as [<-|Hne].
    + rewrite odict_get_set_eq. intros [= <-]. reflexivity.
    + rewrite odict_get_set_ne by exact Hne. apply Hid.
  - intros k a Hk. destruct (decide (c_id c = k)) as [<-|Hne].
    + rewrite odict_get_set_eq. discriminate.
    + rewrite odict_get_set_ne by exact Hne. exact (Hcfg k a Hk).
Qed.

Lemma after_call_filed (cls : Registry.t) (c : Registry.call) :
  registry_filed cls -> registry_filed (Registry.after_call cls c).
Proof.
  intros Hf. destruct c as [ty class|[files|]|k|]; cbn [Registry.after_call].
  - exact Hf.
  - apply load_files_filed. exact Hf.
  - exact Hf.
  - apply get_adapter_filed. exact Hf.
  - apply collect_adapters_filed. exact Hf.
Qed.

(** X22: whatever is called on the registry as it starts, every
    configuration is filed under its own id, so that [get_config] answers a
    shop id with a configuration of that id, and every adapter is filed
    under the id of a shop that has a configuration. *)
Theorem registry_stays_filed (calls : list Registry.call) :
  registry_filed (Registry.after_calls Registry.initial calls).
Proof.
  assert (Hgen : forall cls, registry_filed cls ->
                   registry_filed (Registry.after_calls cls calls)).
  { induction calls as [|c calls IH]; intros cls Hf; [exact Hf|].
    cbn [Registry.after_calls fold_left]. apply IH.
    apply after_call_filed. exact Hf. }
  apply Hgen. unfold registry_filed. cbn.
  repeat split; try apply NoDup_nil_2; discriminate.
Qed.

(** *** Loading configurations *)

Lemma load_files_last (shop_id : str)
    (files : list (result (option ShopConfig))) :
  forall (configs : list (str * ShopConfig)) (cls : Registry.t),
  let done := fold_left Registry.load_file files (configs, cls) in
  odict_get (fst done) shop_id
  = last_parsed shop_id (odict_get configs shop_id) files /\
  Registry.get_config (snd done) shop_id
  = last_parsed shop_id (Registry.get_config cls shop_id) files.
Proof.
  induction files as [|f files IH]; intros configs cls; cbv zeta;
    [split; reflexivity|].
  unfold last_parsed. cbn [fold_left].
  destruct f as [[c|]|]; cbn [Registry.load_file]; try apply IH.
  destruct (IH (odict_set configs (c_id c) c)
               (Registry.set_config cls (c_id c) c)) as [H1 H2].
  cbv zeta in H1, H2. rewrite H1, H2. unfold Registry.get_config.
  cbn [Registry.set_config Registry._configs].
  destruct (str_eqb (c_id c) shop_id) eqn:E.
  - apply str_eqb_eq in E as <-. rewrite !odict_get_set_eq.
    split; reflexivity.
  - apply bool_decide_eq_false in E.
    rewrite !odict_get_set_ne by exact E. split; reflexivity.
Qed.

(** X23: [load_configs] never raises.  It returns, for each shop id, the
    configuration parsed last among the files that give this id; files that
    cannot be read or parsed and files without data are passed over.  The
    registry keeps the configurations it had and takes the returned ones
    over them; a directory that does not exist changes nothing. *)
Theorem load_configs_merges (cls : Registry.t)
    (files : option (list (result (option ShopConfig)))) (shop_id : str) :
  let loaded := fst (Registry.load_configs cls files) in
  let cls' := snd (Registry.load_configs cls files) in
  odict_get loaded shop_id = last_parsed shop_id None (default [] files) /\
  Registry.get_config cls' shop_id
  = match odict_get loaded shop_id with
    | Some config => Some config
    | None => Registry.get_config cls shop_id
    end /\
  Registry._adapters cls' = Registry._adapters cls /\
  (files = None -> loaded = [] /\ cls' = cls).
Proof.
  cbv zeta. destruct files as [files|]; cbn [Registry.load_configs default].
  - destruct (load_files_last shop_id files [] cls) as [H1 H2].
    cbv zeta in H1, H2. cbn [odict_get] in H1.
    split; [exact H1|]. split; [|split; [apply load_file_adapters|discriminate]].
    rewrite H1, H2. clear H1 H2.
    generalize (Registry.get_config cls shop_id). intros before.
    unfold last_parsed.
    assert (Hgen : forall found found',
              (found' = match found with Some c => Some c | None => before end) ->
              fold_left (fun found file =>
                match file with
                | Returned (Some config) =>
                    if str_eqb (c_id config) shop_id then Some config else found
                | _ => found
                end) files found'
              = match fold_left (fun found file =>
                  match file with
                  | Returned (Some config) =>
                      if str_eqb (c_id config) shop_id
                      then Some config else found
                  | _ => found
                  end) files found with
                | Some c => Some c
                | None => before
                end).
    { induction files as [|f files IH]; intros found found' Hf; [exact Hf|].
      cbn [fold_left]. apply IH.
      destruct f as [[c|]|]; try exact Hf.
      destruct (str_eqb (c_id c) shop_id); [reflexivity|exact Hf]. }
    apply Hgen. reflexivity.
  - cbn. repeat split; reflexivity.
Qed.

End RegistryStore.

Lemma sample_lookup :
  Registry.get_adapter (H:=sample_imports) loaded_registry (lit "shop")
  = (Some (silent_adapter swedish_shop),
     Registry.set_adapter loaded_registry (lit "shop")
       (silent_adapter swedish_shop)).
Proof. vm_compute. reflexivity. Qed.

Lemma registry_adapter_kept_witness :
  let cls' := Registry.set_adapter loaded_registry (lit "shop")
                (silent_adapter swedish_shop) in
  Registry.get_config (Registry.after_calls (H:=sample_imports) cls' reload_calls)
    (lit "shop") = Some (non_eu_shop (lit "USD")) /\
  Registry.get_adapter (H:=sample_imports)
    (Registry.after_calls (H:=sample_imports) cls' reload_calls) (lit "shop")
  = (Some (silent_adapter swedish_shop),
     Registry.after_calls (H:=sample_imports) cls' reload_calls).
Proof.
  split; [vm_compute; reflexivity|].
  exact (registry_adapter_kept (H:=sample_imports) loaded_registry _
           (lit "shop") (silent_adapter swedish_shop) reload_calls
           sample_lookup).
Defined.

(** ** The order of the search response *)

(** *** The sort *)

Lemma insert_by_lt_Permutation {A K} (ltb : K -> K -> bool) (key : A -> K)
    (x : A) (sorted : list A) :
  Permutation (x :: sorted) (insert_by_lt ltb key x sorted).
Proof.
  induction sorted as [|y rest IH]; cbn [insert_by_lt]; [reflexivity|].
  destruct (ltb (key x) (key y)); [reflexivity|].
  rewrite perm_swap. apply perm_skip. exact IH.
Qed.

Lemma sort_by_key_Permutation {A K} (ltb : K -> K -> bool) (key : A -> K)
    (xs : list A) :
  Permutation xs (sort_by_key ltb key xs).
Proof.
  unfold sort_by_key.
  assert (Hgen : forall acc,
            Permutation (acc ++ xs)
              (fold_left (fun sorted x => insert_by_lt ltb key x sorted) xs acc)).
  { induction xs as [|x xs IH]; intros acc; cbn [fold_left].
    - rewrite app_nil_r. reflexivity.
    - rewrite <- IH. rewrite <- insert_by_lt_Permutation.
      cbn [app]. symmetry. apply Permutation_middle. }
  exact (Hgen []).
Qed.

Lemma insert_by_lt_ascending {A K} (ltb : K -> K -> bool) (key : A -> K)
    (x : A) (sorted : list A) :
  (forall a b, ltb a b = true -> ltb b a = false) ->
  ascending ltb key sorted -> ascending ltb key (insert_by_lt ltb key x sorted).
Proof.
  intros Hasym. induction sorted as [|y rest IH]; cbn [insert_by_lt].
  - intros _. cbn. auto.
  - intros [Hy Hrest]. destruct (ltb (key x) (key y)) eqn:E.
    + cbn [ascending]. split; [apply Hasym; exact E|]. split; assumption.
    + specialize (IH Hrest). cbn [ascending]. split; [|exact IH].
      destruct rest as [|z rest']; cbn [insert_by_lt]; [exact E|].
      destruct (ltb (key x) (key z)); [exact E|exact Hy].
Qed.

Lemma sort_by_key_ascending {A K} (ltb : K -> K -> bool) (key : A -> K)
    (xs : list A) :
  (forall a b, ltb a b = true -> ltb b a = false) ->
  ascending ltb key (sort_by_key ltb key xs).
Proof.
  intros Hasym. unfold sort_by_key.
  assert (Hgen : forall acc, ascending ltb key acc ->
            ascending ltb key
              (fold_left (fun sorted x => insert_by_lt ltb key x sorted) xs acc)).
  { induction xs as [|x xs IH]; intros acc Hacc; [exact Hacc|].
    cbn [fold_left]. apply IH. apply insert_by_lt_ascending; assumption. }
  apply Hgen. exact I.
Qed.

(** *** The order of the keys *)

Lemma fltb_asym (x y : spec_float) : fltb x y = true -> fltb y x = false.
Proof.
  unfold fltb, SFltb. rewrite (SFcompare_swap x y).
  destruct (SFcompare x y) as [[| |]|]; cbn; congruence.
Qed.

Lemma feqb_sym (x y : spec_float) : feqb y x = feqb x y.
Proof.
  unfold feqb, SFeqb. rewrite (SFcompare_swap x y).
  destruct (SFcompare x y) as [[| |]|]; reflexivity.
Qed.

Lemma pair_ltb_asym (a b : spec_float * spec_float) :
  pair_ltb a b = true -> pair_ltb b a = false.
Proof.
  unfold pair_ltb. rewrite (feqb_sym (fst a) (fst b)), (feqb_sym (snd a) (snd b)).
  destruct (feqb (fst a) (fst b)); cbn [negb].
  - destruct (feqb (snd a) (snd b)); cbn [negb]; [reflexivity|].
    apply fltb_asym.
  - apply fltb_asym.
Qed.

Lemma SFcompare_opp (x y : spec_float) :
  SFcompare (SFopp x) (SFopp y) = SFcompare y x.
Proof.
  rewrite (SFcompare_swap x y).
  destruct x as [sx|sx| |sx mx ex], y as [sy|sy| |sy my ey]; cbn;
    try reflexivity;
    try (destruct sx; reflexivity); try (destruct sy; reflexivity);
    try (destruct sx, sy; reflexivity).
  destruct sx, sy; cbn; try reflexivity; f_equal;
    destruct (ex ?= ey); cbn; try reflexivity;
    destruct (Pos.compare_cont Eq mx my); reflexivity.
Qed.

Lemma feqb_fleb (x y : spec_float) : feqb x y = true -> fleb x y = true.
Proof.
  unfold feqb, SFeqb, fleb, SFleb.
  destruct (SFcompare x y) as [[| |]|]; congruence.
Qed.

Lemma has_sign_number (s : bool) (x : spec_float) :
  has_sign s x -> is_number x = true.
Proof. destruct x; cbn; [reflexivity..|contradiction|reflexivity]. Qed.

Lemma fdiv_finite_number (sx sy : bool) (mx my : positive) (ex ey : Z) :
  is_number (fdiv (S754_finite sx mx ex) (S754_finite sy my ey)) = true.
Proof.
  unfold fdiv, SFdiv.
  pose proof (SFdiv_core_binary_nonneg mx my ex ey) as Hq.
  destruct (SFdiv_core_binary prec emax (Zpos mx) ex (Zpos my) ey)
    as [[mz ez] lz].
  cbn [fst] in Hq.
  exact (has_sign_number _ _ (binary_round_aux_sign (xorb sx sy) mz ez lz Hq)).
Qed.

Lemma binary_normalize_number (m e : Z) (szero : bool) :
  is_number (binary_normalize prec emax m e szero) = true.
Proof.
  unfold binary_normalize. destruct m as [|p|p]; [reflexivity| |];
    unfold binary_round; destruct (shl_align p e _) as [mz ez];
    eapply has_sign_number; apply binary_round_aux_sign; lia.
Qed.

(** [float(d)] is never NaN. *)
Lemma float_of_decimal_number (d : Decimal) :
  is_number (float_of_decimal d) = true.
Proof.
  unfold float_of_decimal. destruct (coef d) as [|c|c]; [reflexivity| |];
    destruct (0 <=? expo d);
    first [apply binary_normalize_number | apply fdiv_finite_number].
Qed.

Lemma fneg_number (x : spec_float) : is_number (fneg x) = is_number x.
Proof. destruct x; reflexivity. Qed.

(** *** The keys *)

Lemma each_Returned {A B} (f : A -> result B) (g : A -> B) (xs : list A) :
  List.Forall (fun x => f x = Returned (g x)) xs ->
  each f xs = Returned (map g xs).
Proof.
  induction 1 as [|x xs Hx _ IH]; [reflexivity|].
  cbn [each map]. rewrite Hx, bind_Returned, IH, bind_Returned. reflexivity.
Qed.

Lemma each_Forall2 {A B} (f : A -> result B) (xs : list A) :
  List.Forall (fun x => exists y, f x = Returned y) xs ->
  exists ys, each f xs = Returned ys /\
             Forall2 (fun x y => f x = Returned y) xs ys.
Proof.
  induction 1 as [|x xs [y Hy] _ (ys & Hys & Hall)].
  - exists []. split; [reflexivity|constructor].
  - exists (y :: ys). cbn [each].
    rewrite Hy, bind_Returned, Hys, bind_Returned.
    split; [reflexivity|constructor; assumption].
Qed.

Lemma float_of_any_value (x : AnyDecimal) :
  converts x = true -> float_of_any x = Returned (float_value x).
Proof. destruct x as [d|e|s|[|]]; try reflexivity. discriminate. Qed.

Lemma not_nan_converts (x : AnyDecimal) : not_nan x = true -> converts x = true.
Proof. destruct x as [d|e|s|[|]]; try reflexivity; discriminate. Qed.

Lemma float_value_number (x : AnyDecimal) :
  not_nan x = true -> is_number (float_value x) = true.
Proof.
  destruct x as [d|e|s|s]; cbn; [|reflexivity..|discriminate].
  intros _. apply float_of_decimal_number.
Qed.

Lemma sort_key_value (p : Product.t) :
  not_nan (cost_or_price p) = true -> sort_key p = Returned (key_value p).
Proof.
  intros Hn. unfold sort_key.
  rewrite (float_of_any_value _ (not_nan_converts _ Hn)). reflexivity.
Qed.

(** *** Sorting with the keys at hand *)

Lemma combine_keys {A K} (key : A -> K) (xs : list A) :
  combine (map key xs) xs = map (fun x => (key x, x)) xs.
Proof. induction xs as [|x xs IH]; cbn; [|rewrite IH]; reflexivity. Qed.

Lemma insert_by_lt_keyed {A K} (ltb : K -> K -> bool) (key : A -> K) (x : A)
    (sorted : list A) :
  insert_by_lt ltb fst (key x, x) (map (fun y => (key y, y)) sorted)
  = map (fun y => (key y, y)) (insert_by_lt ltb key x sorted).
Proof.
  induction sorted as [|y rest IH]; cbn [insert_by_lt map fst]; [reflexivity|].
  destruct (ltb (key x) (key y)); cbn [map]; [reflexivity|].
  rewrite IH. reflexivity.
Qed.

Lemma sort_by_key_keyed {A K} (ltb : K -> K -> bool) (key : A -> K)
    (xs : list A) :
  map snd (sort_by_key ltb fst (map (fun x => (key x, x)) xs))
  = sort_by_key ltb key xs.
Proof.
  unfold sort_by_key.
  assert (Hgen : forall acc,
            fold_left (fun sorted kx => insert_by_lt ltb fst kx sorted)
              (map (fun x => (key x, x)) xs) (map (fun x => (key x, x)) acc)
            = map (fun x => (key x, x))
                (fold_left (fun sorted x => insert_by_lt ltb key x sorted)
                   xs acc)).
  { induction xs as [|x xs IH]; intros acc; cbn [fold_left map];
      [reflexivity|].
    rewrite insert_by_lt_keyed. apply IH. }
  specialize (Hgen []). cbn [map] in Hgen. rewrite Hgen, map_map.
  cbn [snd]. apply map_id.
Qed.

(** With relevance scores and costs that are not NaN the sort returns the
    stable order by the keys. *)
Lemma sort_results_ordered (all_results : list Product.t) :
  Forall (fun p => is_number (Product.relevance_score p) = true) all_results ->
  Forall (fun p => not_nan (cost_or_price p) = true) all_results ->
  sort_results all_results
  = Returned (Some (sort_by_key pair_ltb key_value all_results)).
Proof.
  intros Hrel Hcost. unfold sort_results.
  rewrite (each_Returned sort_key key_value).
  2:{ apply List.Forall_forall. intros p Hp. apply sort_key_value.
      rewrite Forall_forall in Hcost. apply Hcost.
      apply list_elem_of_In. exact Hp. }
  rewrite bind_Returned.
  assert (Hord : forallb ordered_key (map key_value all_results) = true).
  { apply forallb_forall. intros k Hk. apply in_map_iff in Hk as (p & <- & Hp).
    apply list_elem_of_In in Hp.
    rewrite Forall_forall in Hrel. rewrite Forall_forall in Hcost.
    unfold ordered_key, key_value. cbn [fst snd].
    rewrite fneg_number, (Hrel p Hp), (float_value_number _ (Hcost p Hp)).
    reflexivity. }
  rewrite Hord, combine_keys, sort_by_key_keyed. reflexivity.
Qed.

(** A price that is NaN leaves the order open, and one that is a signalling
    NaN ends the sort with an exception. *)
Lemma sort_results_nan_price :
  sort_results [priced (Finite (mkDec 5000 (-2))); priced (NaN false);
                priced (Finite (mkDec 1000 (-2)))] = Returned None /\
  sort_results [priced (Finite (mkDec 5000 (-2))); priced (NaN true)] = Raised.
Proof. split; vm_compute; reflexivity. Qed.

(** What the order of the keys says about two neighbours. *)
Lemma key_value_order (a b : Product.t) :
  is_number (Product.relevance_score a) = true ->
  is_number (Product.relevance_score b) = true ->
  not_nan (cost_or_price a) = true -> not_nan (cost_or_price b) = true ->
  pair_ltb (key_value b) (key_value a) = false ->
  fleb (Product.relevance_score b) (Product.relevance_score a) = true /\
  (feqb (Product.relevance_score a) (Product.relevance_score b) = true ->
   fleb (float_value (cost_or_price a))
        (float_value (cost_or_price b)) = true).
Proof.
  intros Ha Hb Hca Hcb. unfold pair_ltb, key_value. cbn [fst snd].
  assert (Heq : feqb (fneg (Product.relevance_score b))
                     (fneg (Product.relevance_score a))
                = feqb (Product.relevance_score a) (Product.relevance_score b)).
  { unfold feqb, SFeqb, fneg. rewrite SFcompare_opp. reflexivity. }
  assert (Hlt : fltb (fneg (Product.relevance_score b))
                     (fneg (Product.relevance_score a))
                = fltb (Product.relevance_score a) (Product.relevance_score b)).
  { unfold fltb, SFltb, fneg. rewrite SFcompare_opp. reflexivity. }
  rewrite Heq, Hlt.
  destruct (feqb (Product.relevance_score a) (Product.relevance_score b))
    eqn:E; cbn [negb].
  - intros Hc. split.
    + apply feqb_fleb. rewrite feqb_sym. exact E.
    + intros _.
      destruct (feqb (float_value (cost_or_price b))
                     (float_value (cost_or_price a))) eqn:Ec;
        cbn [negb] in Hc.
      * apply feqb_fleb. rewrite feqb_sym. exact Ec.
      * apply fleb_total; [apply float_value_number; assumption..|exact Hc].
  - intros Hc. split; [|discriminate].
    apply fleb_total; assumption.
Qed.

Lemma ascending_ranked (xs : list Product.t) :
  Forall (fun p => is_number (Product.relevance_score p) = true) xs ->
  Forall (fun p => not_nan (cost_or_price p) = true) xs ->
  ascending pair_ltb key_value xs -> ranked xs.
Proof.
  induction xs as [|a rest IH]; intros Hn Hc Hs; [exact I|].
  apply Forall_cons in Hn as [Ha Hn]. apply Forall_cons in Hc as [Hca Hc].
  destruct Hs as [Hab Hs].
  cbn [ranked]. split; [|apply IH; assumption].
  destruct rest as [|b rest']; [exact I|].
  apply Forall_cons in Hn as [Hb _]. apply Forall_cons in Hc as [Hcb _].
  apply key_value_order; assumption.
Qed.

(** *** The response *)

Lemma float_or_none_returns (x : option AnyDecimal) :
  default true (converts <$> x) = true ->
  exists f, float_or_none x = Returned f.
Proof.
  destruct x as [d|]; [|intros _; eexists; reflexivity].
  cbn [fmap option_fmap option_map default]. intros Hd. unfold float_or_none.
  destruct (any_truthy (Some d)); [|eexists; reflexivity].
  rewrite (float_of_any_value d Hd), bind_Returned. eexists. reflexivity.
Qed.

Lemma product_response_returns (cls : Registry.t) (p : Product.t) :
  convertible p = true -> exists r, product_response cls p = Returned r.
Proof.
  unfold convertible. intros Hc.
  apply andb_true_iff in Hc as [Hprice Hrest].
  cbn [forallb] in Hrest.
  repeat (apply andb_true_iff in Hrest as [?H Hrest]).
  unfold product_response.
  rewrite (float_of_any_value _ Hprice), bind_Returned.
  destruct (float_or_none_returns (Product.original_price p)) as [f1 ->];
    [assumption|rewrite bind_Returned].
  destruct (float_or_none_returns (Product.shipping_cost p)) as [f2 ->];
    [assumption|rewrite bind_Returned].
  destruct (float_or_none_returns (Product.customs_cost p)) as [f3 ->];
    [assumption|rewrite bind_Returned].
  destruct (float_or_none_returns (Product.vat_cost p)) as [f4 ->];
    [assumption|rewrite bind_Returned].
  destruct (float_or_none_returns (Product.total_cost p)) as [f5 ->];
    [assumption|rewrite bind_Returned].
  destruct (float_or_none_returns (Product.total_cost_sek p)) as [f6 ->];
    [assumption|rewrite bind_Returned].
  eauto.
Qed.

(** X24: as long as no relevance score and no sort cost (the total in SEK,
    or the price where there is no such total or where it is zero) is NaN,
    the sort returns, and the response is built from the products that were
    found, each once, ordered by relevance from the most relevant down, and
    products of equal relevance by that cost from the cheapest up;
    [total_results] is their number.  When moreover no amount of a product
    is a signalling NaN, every product is turned into an entry and the
    response is returned. *)
Theorem search_response_ranked (cls : Registry.t) (request_query : str)
    (all_results : list Product.t) :
  Forall (fun p => is_number (Product.relevance_score p) = true) all_results ->
  Forall (fun p => not_nan (cost_or_price p) = true) all_results ->
  exists sorted,
    sort_results all_results = Returned (Some sorted) /\
    Permutation all_results sorted /\ ranked sorted /\
    search_response cls request_query all_results
    = (results ← each (product_response cls) sorted;
       Returned
         (Some {| SearchResponse.query := request_query;
                  SearchResponse.total_results :=
                    Z.of_nat (length all_results);
                  SearchResponse.results := results |})) /\
    (Forall (fun p => convertible p = true) all_results ->
     exists results,
       each (product_response cls) sorted = Returned results /\
       Forall2 (fun p r => product_response cls p = Returned r)
               sorted results).
Proof.
  intros Hrel Hcost.
  exists (sort_by_key pair_ltb key_value all_results).
  pose proof (sort_by_key_Permutation pair_ltb key_value all_results) as Hp.
  pose proof (sort_results_ordered all_results Hrel Hcost) as Hsort.
  split; [exact Hsort|]. split; [exact Hp|]. split.
  { apply ascending_ranked.
    - rewrite <- Hp. exact Hrel.
    - rewrite <- Hp. exact Hcost.
    - apply sort_by_key_ascending. apply pair_ltb_asym. }
  split.
  { unfold search_response. rewrite Hsort, bind_Returned.
    rewrite <- (Permutation_length Hp). reflexivity. }
  intros Hconv. apply each_Forall2.
  rewrite Hp in Hconv. apply List.Forall_forall. intros p Hin.
  apply product_response_returns.
  rewrite Forall_forall in Hconv. apply Hconv.
  apply list_elem_of_In. exact Hin.
Qed.

Lemma search_response_ranked_witness :
  exists sorted,
    sort_results found_products = Returned (Some sorted) /\
    Permutation found_products sorted /\ ranked sorted /\
    (exists results,
       search_response loaded_registry (lit "hoodie") found_products
       = Returned
           (Some {| SearchResponse.query := lit "hoodie";
                    SearchResponse.total_results := 4;
                    SearchResponse.results := results |}) /\
       Forall2 (fun p r => product_response loaded_registry p = Returned r)
               sorted results).
Proof.
  destruct (search_response_ranked loaded_registry (lit "hoodie")
              found_products)
    as (sorted & Hsort & Hperm & Hranked & Hresp & Hret).
  - repeat constructor.
  - repeat constructor.
  - exists sorted. repeat (split; [assumption|]).
    destruct Hret as (results & Heach & Hall); [repeat constructor|].
    exists results. split; [|exact Hall].
    rewrite Hresp, Heach. reflexivity.
Defined.
